(** * AiHistory: the dialogue record store of [script.js]

    A shallow embedding of the [DialogueManager] class of [src/script.js]
    and of the host functions it relies on ([String.prototype.trim],
    [Number.prototype.toString], [JSON.parse], [JSON.stringify],
    [localStorage]), followed by the properties of the store.

    Conventions.
    - A JavaScript string is the list of its UTF-16 code units, each a
      natural number ([jstring]).
    - A value produced by [JSON.parse] is a [JSON.jsval]; [undefined], which
      JSON cannot hold, is [None] in an [option jsval].
    - The methods are computations in a state-and-exception monad over the
      fields of the manager and the browser state they touch: the list of
      dialogues, the storage item, the console and the notices shown.
    - The clock readings and the answers to [confirm] are arguments of the
      methods that ask for them.

    Left out: the page itself (the markup written by [renderDialogues],
    the modal window, the listeners, the timers of [showMessage]), of
    which only the exceptions that rendering can throw are kept; the delay
    between the choice of a file and the end of its reading; and the
    limits of an engine on memory or on the number of arguments of a
    call. *)

From Stdlib Require Import NArith ZArith List Bool Lia Arith.
From Stdlib Require Import Ascii String Decimal DecimalZ.
Import ListNotations.

Set Warnings "-register-all".

(* ================================================================= *)
(** ** Strings as sequences of UTF-16 code units *)

Definition jstring : Type := list N.

Module Str.

Local Open Scope N_scope.

(** An ASCII literal of the source as a [jstring]. *)
Definition lit (s : string) : jstring :=
  List.map N_of_ascii (list_ascii_of_string s).

Fixpoint eqb (a b : jstring) : bool :=
  match a, b with
  | [], [] => true
  | x :: a', y :: b' => (x =? y) && eqb a' b'
  | _, _ => false
  end.

(** [WhiteSpace] and [LineTerminator] of ECMAScript: what [trim] strips. *)
Definition is_space (c : N) : bool :=
  (c =? 9) || (c =? 10) || (c =? 11) || (c =? 12) || (c =? 13) ||
  (c =? 32) || (c =? 160) || (c =? 5760) ||
  ((8192 <=? c) && (c <=? 8202)) ||
  (c =? 8232) || (c =? 8233) || (c =? 8239) || (c =? 8287) ||
  (c =? 12288) || (c =? 65279).

Fixpoint trimStart (s : jstring) : jstring :=
  match s with
  | [] => []
  | c :: r => if is_space c then trimStart r else s
  end.

Definition trimEnd (s : jstring) : jstring :=
  List.rev (trimStart (List.rev s)).

(** [s.trim()] *)
Definition trim (s : jstring) : jstring := trimEnd (trimStart s).

(** A string is blank when it is empty or whitespace-only. *)
Definition blank (s : jstring) : bool :=
  match trim s with [] => true | _ => false end.

(** Decimal digits of an integer, most significant first. *)
Fixpoint uint_units (d : Decimal.uint) : jstring :=
  match d with
  | Nil => []
  | D0 d => 48 :: uint_units d
  | D1 d => 49 :: uint_units d
  | D2 d => 50 :: uint_units d
  | D3 d => 51 :: uint_units d
  | D4 d => 52 :: uint_units d
  | D5 d => 53 :: uint_units d
  | D6 d => 54 :: uint_units d
  | D7 d => 55 :: uint_units d
  | D8 d => 56 :: uint_units d
  | D9 d => 57 :: uint_units d
  end.

Definition int_units (d : Decimal.int) : jstring :=
  match d with
  | Pos u => uint_units u
  | Neg u => 45 :: uint_units u
  end.

(** [n.toString()] for an integral Number [n] below 10^21 in magnitude, as
    [Date.now()] returns: the decimal digits, with a minus sign if negative. *)
Definition toString (n : Z) : jstring := int_units (Z.to_int n).

End Str.

(* ================================================================= *)
(** ** JSON values, [JSON.parse] and [JSON.stringify] *)

Module JSON.

Local Open Scope N_scope.

(** A JSON number is kept as the literal that denotes it; what the store
    observes of it is its type, whether the Number it denotes is zero, and
    the text [JSON.stringify] writes for that Number, and these are
    computed from the literal ([number_is_zero], [number_text]).
    An object is the list of its members in the order in which
    [JSON.parse] creates them; the order in which they are enumerated,
    array indices first, is computed where the printer needs it
    ([own_property_order]). *)
Inductive jsval : Type :=
| JNull
| JBool (b : bool)
| JNum (lexeme : jstring)
| JStr (s : jstring)
| JArr (items : list jsval)
| JObj (members : list (jstring * jsval)).

(** *** Objects as association lists *)

Fixpoint lookup (k : jstring) (ms : list (jstring * jsval)) : option jsval :=
  match ms with
  | [] => None
  | (k', v) :: r => if Str.eqb k k' then Some v else lookup k r
  end.

(** [CreateDataProperty]: a key already present keeps its place and takes
    the new value, a new key goes last. *)
Fixpoint put (k : jstring) (v : jsval) (ms : list (jstring * jsval))
  : list (jstring * jsval) :=
  match ms with
  | [] => [(k, v)]
  | (k', v') :: r =>
    if Str.eqb k k' then (k', v) :: r else (k', v') :: put k v r
  end.

Definition normalize (ms : list (jstring * jsval)) : list (jstring * jsval) :=
  fold_left (fun acc kv => put (fst kv) (snd kv) acc) ms [].

(** *** Numbers *)

Definition is_digit (c : N) : bool := (48 <=? c) && (c <=? 57).

Fixpoint span_digits (s : jstring) : jstring * jstring :=
  match s with
  | [] => ([], [])
  | c :: r =>
    if is_digit c then let (ds, r') := span_digits r in (c :: ds, r')
    else ([], s)
  end.

(** Exponent part: [e] or [E], an optional sign, one digit at least. *)
Definition lex_exp (acc s : jstring) : option (jstring * jstring) :=
  match s with
  | c :: r =>
    if (c =? 101) || (c =? 69) then
      let (sign, r1) :=
        match r with
        | d :: r' => if (d =? 43) || (d =? 45) then ([d], r') else ([], r)
        | [] => ([], r)
        end in
      match span_digits r1 with
      | ([], _) => None
      | (ds, r2) => Some (acc ++ c :: sign ++ ds, r2)
      end
    else Some (acc, s)
  | [] => Some (acc, s)
  end.

(** Fraction part: a point and one digit at least. *)
Definition lex_frac (acc s : jstring) : option (jstring * jstring) :=
  match s with
  | c :: r =>
    if c =? 46 then
      match span_digits r with
      | ([], _) => None
      | (ds, r1) => lex_exp (acc ++ c :: ds) r1
      end
    else lex_exp acc s
  | [] => Some (acc, s)
  end.

(** A JSON number literal at the head of [s]: the literal and the rest. *)
Definition lex_number (s : jstring) : option (jstring * jstring) :=
  let (sign, s1) :=
    match s with
    | c :: r => if c =? 45 then ([c], r) else ([], s)
    | [] => ([], s)
    end in
  match s1 with
  | c :: r =>
    if c =? 48 then lex_frac (sign ++ [c]) r
    else if is_digit c then
      let (ds, r1) := span_digits r in lex_frac (sign ++ c :: ds) r1
    else None
  | [] => None
  end.

(** The decimal value [m * 10^e] of a literal, as the pair [(m, e)]. *)
Fixpoint digits_value (acc : N) (ds : jstring) : N :=
  match ds with
  | [] => acc
  | c :: r => digits_value (10 * acc + (c - 48)) r
  end.

Definition number_parts (lx : jstring) : N * Z :=
  let s0 := match lx with c :: r => if c =? 45 then r else lx | [] => lx end in
  let (ip, s1) := span_digits s0 in
  let (fp, s2) :=
    match s1 with
    | c :: r => if c =? 46 then span_digits r else ([], s1)
    | [] => ([], s1)
    end in
  let ex : Z :=
    match s2 with
    | _ :: d :: r =>
      if d =? 45 then Z.opp (Z.of_N (digits_value 0 r))
      else if d =? 43 then Z.of_N (digits_value 0 r)
      else Z.of_N (digits_value 0 (d :: r))
    | _ => 0%Z
    end in
  (digits_value 0 (ip ++ fp), (ex - Z.of_nat (List.length fp))%Z).

(** The Number a literal denotes is zero: its digits are all zero, or it
    is so small that it rounds to zero (at most 2^-1075). *)
Definition number_is_zero (lx : jstring) : bool :=
  let (m, e) := number_parts lx in
  (m =? 0) || ((e <? 0)%Z && (m * 2 ^ 1075 <=? 10 ^ Z.to_N (- e))).

(** The magnitude of a Number (IEEE 754 binary64): zero, [q * 2^x] with
    [2^52 <= q < 2^53] and [x <= 971], or with [x = -1074] and
    [0 < q < 2^52] for the subnormal ones, or infinity. *)
Inductive number : Type :=
| Zero
| Finite (q x : Z)
| Infinite.

(** [a / b] rounded to the nearest integer, ties to even, for [0 <= a]
    and [0 < b]. *)
Definition div_half_even (a b : Z) : Z :=
  (let q := a / b in
   let r := a mod b in
   if 2 * r <? b then q
   else if b <? 2 * r then q + 1
   else if Z.even q then q else q + 1)%Z.

(** The Number nearest to the rational [num / den], ties to even
    (roundTiesToEven), for [0 <= num] and [0 < den]. *)
Definition round_binary64 (num den : Z) : number :=
  (if num <=? 0 then Zero
   else
     let k := Z.log2 num - Z.log2 den in
     (* b is the integer part of the binary logarithm of num / den *)
     let b := if den * 2 ^ Z.max k 0 <=? num * 2 ^ Z.max (- k) 0
              then k else k - 1 in
     let x := Z.max (b - 52) (-1074) in
     let q := div_half_even (num * 2 ^ Z.max (- x) 0)
                            (den * 2 ^ Z.max x 0) in
     let q' := if q =? 2 ^ 53 then 2 ^ 52 else q in
     let x' := if q =? 2 ^ 53 then x + 1 else x in
     if q' =? 0 then Zero
     else if 971 <? x' then Infinite
     else Finite q' x')%Z.

(** [num / den] is at least [2^j]. *)
Definition at_least_pow2 (num den j : Z) : Prop :=
  (den * 2 ^ Z.max j 0 <= num * 2 ^ Z.max (- j) 0)%Z.

(** The Number nearest to [m * 10^e]. *)
Definition round_decimal (m e : Z) : number :=
  (if 0 <=? e then round_binary64 (m * 10 ^ e) 1
   else round_binary64 m (10 ^ (- e)))%Z.

(** The magnitude of the Number that [JSON.parse] makes of a literal. *)
Definition number_of (lx : jstring) : number :=
  let (m, e) := number_parts lx in round_decimal (Z.of_N m) e.

Definition number_eqb (a b : number) : bool :=
  match a, b with
  | Zero, Zero => true
  | Finite q x, Finite q' x' => ((q =? q') && (x =? x'))%Z
  | Infinite, Infinite => true
  | _, _ => false
  end.

(** The number of decimal digits of a positive integer. *)
Definition decimal_length (z : Z) : Z :=
  Z.of_nat (List.length (Str.toString z)).

(** The [n] with [10^(n-1) <= p / q < 10^n], for [0 < p] and [0 < q]. *)
Definition decimal_exponent (p q : Z) : Z :=
  (if q <=? p then decimal_length (p / q)
   else
     let l := decimal_length (q / p) in
     if q <=? p * 10 ^ (l - 1) then 2 - l else 1 - l)%Z.

(** The digits [s] and the exponent [n] of a decimal of [k] digits,
    [s * 10^(n-k)], that denotes the Number [q * 2^x], if there is one:
    of the two decimals of [k] digits around [q * 2^x], the nearer one
    that is rounded to it, the even one on a tie. *)
Definition decimal_of_length (q x k : Z) : option (Z * Z) :=
  (let p := q * 2 ^ Z.max x 0 in
   let d := 2 ^ Z.max (- x) 0 in
   let n := decimal_exponent p d in
   let a := p * 10 ^ Z.max (k - n) 0 in
   let b := d * 10 ^ Z.max (n - k) 0 in
   let lo := a / b in
   let r := a mod b in
   let below := (lo, n) in
   let above := if lo + 1 =? 10 ^ k then (10 ^ (k - 1), n + 1)
                else (lo + 1, n) in
   let denotes (c : Z * Z) :=
     number_eqb (round_decimal (fst c) (snd c - k)) (Finite q x) in
   if r =? 0 then Some below
   else
     match denotes below, denotes above with
     | true, true =>
       if 2 * r <? b then Some below
       else if b <? 2 * r then Some above
       else if Z.even lo then Some below else Some above
     | true, false => Some below
     | false, true => Some above
     | false, false => None
     end)%Z.

(** The shortest decimal that denotes [q * 2^x]: its digits [s], their
    number [k] and the exponent [n]. Seventeen digits always suffice. *)
Fixpoint shortest_decimal (fuel : nat) (q x k : Z) : Z * Z * Z :=
  match decimal_of_length q x k with
  | Some (s, n) => (s, k, n)
  | None =>
    match fuel with
    | O => (q, k, 0%Z)
    | S fuel' => shortest_decimal fuel' q x (k + 1)%Z
    end
  end.

(** [Number::toString] of a positive finite Number, from the digits [s]
    of its shortest decimal, their number [k] and the exponent [n]. *)
Definition decimal_text (s k n : Z) : jstring :=
  let digits := Str.toString s in
  if ((k <=? n) && (n <=? 21))%Z then
    digits ++ repeat 48 (Z.to_nat (n - k))
  else if ((0 <? n) && (n <=? 21))%Z then
    firstn (Z.to_nat n) digits ++ 46 :: skipn (Z.to_nat n) digits
  else if ((-6 <? n) && (n <=? 0))%Z then
    48 :: 46 :: repeat 48 (Z.to_nat (- n)) ++ digits
  else
    let e := (n - 1)%Z in
    let exponent := 101 :: (if (e <? 0)%Z then 45 else 43)
                        :: Str.toString (Z.abs e) in
    match digits with
    | [] => exponent
    | [c] => c :: exponent
    | c :: rest => c :: 46 :: rest ++ exponent
    end.

(** What [JSON.stringify] writes for the Number a literal denotes: the
    text of [Number::toString], [0] for both zeros, and [null] for a
    Number that is not finite. *)
Definition number_text (lx : jstring) : jstring :=
  match number_of lx with
  | Zero => [48]
  | Infinite => Str.lit "null"
  | Finite q x =>
    let '(s, k, n) := shortest_decimal 16 q x 1%Z in
    match lx with
    | 45 :: _ => 45 :: decimal_text s k n
    | _ => decimal_text s k n
    end
  end.

(** *** String literals *)

Definition hexval (c : N) : option N :=
  if (48 <=? c) && (c <=? 57) then Some (c - 48)
  else if (97 <=? c) && (c <=? 102) then Some (c - 87)
  else if (65 <=? c) && (c <=? 70) then Some (c - 55)
  else None.

Definition hex4 (a b c d : N) : option N :=
  match hexval a, hexval b, hexval c, hexval d with
  | Some x, Some y, Some z, Some w => Some (4096 * x + 256 * y + 16 * z + w)
  | _, _, _, _ => None
  end.

(** The character a one-letter escape stands for. *)
Definition unescape (e : N) : option N :=
  if e =? 34 then Some 34           (* quotation mark *)
  else if e =? 92 then Some 92      (* reverse solidus *)
  else if e =? 47 then Some 47      (* solidus *)
  else if e =? 98 then Some 8       (* b: backspace *)
  else if e =? 102 then Some 12     (* f: form feed *)
  else if e =? 110 then Some 10     (* n: line feed *)
  else if e =? 114 then Some 13     (* r: carriage return *)
  else if e =? 116 then Some 9      (* t: tab *)
  else None.

Definition push (c : N) (p : option (jstring * jstring))
  : option (jstring * jstring) :=
  match p with
  | Some (str, rest) => Some (c :: str, rest)
  | None => None
  end.

(** The characters of a string literal after its opening quote, up to and
    including the closing quote. *)
Fixpoint parse_chars (s : jstring) : option (jstring * jstring) :=
  match s with
  | [] => None
  | c :: r =>
    if c =? 34 then Some ([], r)
    else if c =? 92 then
      match r with
      | [] => None
      | e :: r1 =>
        if e =? 117 then
          match r1 with
          | h1 :: h2 :: h3 :: h4 :: r2 =>
            match hex4 h1 h2 h3 h4 with
            | Some n => push n (parse_chars r2)
            | None => None
            end
          | _ => None
          end
        else
          match unescape e with
          | Some n => push n (parse_chars r1)
          | None => None
          end
      end
    else if c <? 32 then None
    else push c (parse_chars r)
  end.

(** *** The parser *)

Definition is_ws (c : N) : bool :=
  (c =? 32) || (c =? 9) || (c =? 10) || (c =? 13).

Fixpoint skip_ws (s : jstring) : jstring :=
  match s with
  | [] => []
  | c :: r => if is_ws c then skip_ws r else s
  end.

Fixpoint expect (word s : jstring) : option jstring :=
  match word, s with
  | [], _ => Some s
  | w :: word', c :: r => if w =? c then expect word' r else None
  | _ :: _, [] => None
  end.

Definition keyword (word s : jstring) (v : jsval) : option (jsval * jstring) :=
  match expect word s with
  | Some r => Some (v, r)
  | None => None
  end.

(** Recursive descent; [fuel] bounds the number of values read plus their
    nesting depth, both at most the length of the text. *)
Fixpoint parse_value (fuel : nat) (s : jstring) : option (jsval * jstring) :=
  match fuel with
  | O => None
  | S f =>
    match skip_ws s with
    | [] => None
    | c :: r =>
      if c =? 34 then
        match parse_chars r with
        | Some (str, r') => Some (JStr str, r')
        | None => None
        end
      else if c =? 91 then
        match skip_ws r with
        | [] => None
        | d :: r' =>
          if d =? 93 then Some (JArr [], r')
          else
            match parse_elements f r with
            | Some (vs, r'') => Some (JArr vs, r'')
            | None => None
            end
        end
      else if c =? 123 then
        match skip_ws r with
        | [] => None
        | d :: r' =>
          if d =? 125 then Some (JObj [], r')
          else
            match parse_members f r with
            | Some (ms, r'') => Some (JObj (normalize ms), r'')
            | None => None
            end
        end
      else if c =? 110 then keyword (Str.lit "ull") r JNull
      else if c =? 116 then keyword (Str.lit "rue") r (JBool true)
      else if c =? 102 then keyword (Str.lit "alse") r (JBool false)
      else
        match lex_number (c :: r) with
        | Some (lx, r') => Some (JNum lx, r')
        | None => None
        end
    end
  end
with parse_elements (fuel : nat) (s : jstring)
  : option (list jsval * jstring) :=
  match fuel with
  | O => None
  | S f =>
    match parse_value f s with
    | None => None
    | Some (v, r) =>
      match skip_ws r with
      | [] => None
      | d :: r' =>
        if d =? 44 then
          match parse_elements f r' with
          | Some (vs, r'') => Some (v :: vs, r'')
          | None => None
          end
        else if d =? 93 then Some ([v], r')
        else None
      end
    end
  end
with parse_members (fuel : nat) (s : jstring)
  : option (list (jstring * jsval) * jstring) :=
  match fuel with
  | O => None
  | S f =>
    match skip_ws s with
    | [] => None
    | q :: r =>
      if q =? 34 then
        match parse_chars r with
        | None => None
        | Some (k, r1) =>
          match skip_ws r1 with
          | [] => None
          | col :: r2 =>
            if col =? 58 then
              match parse_value f r2 with
              | None => None
              | Some (v, r3) =>
                match skip_ws r3 with
                | [] => None
                | d :: r4 =>
                  if d =? 44 then
                    match parse_members f r4 with
                    | Some (ms, r5) => Some ((k, v) :: ms, r5)
                    | None => None
                    end
                  else if d =? 125 then Some ([(k, v)], r4)
                  else None
                end
              end
            else None
          end
        end
      else None
    end
  end.

(** [JSON.parse(text)]; [None] stands for the [SyntaxError] it throws. *)
Definition parse (text : jstring) : option jsval :=
  match parse_value (S (List.length text)) text with
  | Some (v, r) =>
    match skip_ws r with
    | [] => Some v
    | _ :: _ => None
    end
  | None => None
  end.

(** *** The printer *)

Definition hexdigit (n : N) : N := if n <? 10 then 48 + n else 87 + n.

(** A four-digit [u] escape, in lower-case hexadecimal. *)
Definition uescape (c : N) : jstring :=
  [92; 117; hexdigit (c / 4096); hexdigit ((c / 256) mod 16);
   hexdigit ((c / 16) mod 16); hexdigit (c mod 16)].

Definition is_high (c : N) : bool := (55296 <=? c) && (c <=? 56319).
Definition is_low (c : N) : bool := (56320 <=? c) && (c <=? 57343).

(** One code unit that is not a surrogate, as [QuoteJSONString] writes it. *)
Definition escape_unit (c : N) : jstring :=
  if c =? 8 then [92; 98]
  else if c =? 9 then [92; 116]
  else if c =? 10 then [92; 110]
  else if c =? 12 then [92; 102]
  else if c =? 13 then [92; 114]
  else if c =? 34 then [92; 34]
  else if c =? 92 then [92; 92]
  else if c <? 32 then uescape c
  else [c].

(** A surrogate pair is written as it is, a lone surrogate is escaped. *)
Fixpoint escape (s : jstring) : jstring :=
  match s with
  | [] => []
  | c :: r =>
    if is_high c then
      match r with
      | d :: r' =>
        if is_low d then c :: d :: escape r'
        else uescape c ++ escape r
      | [] => uescape c
      end
    else if is_low c then uescape c ++ escape r
    else escape_unit c ++ escape r
  end.

Definition quote (s : jstring) : jstring := 34 :: escape s ++ [34].

Fixpoint join (sep : jstring) (parts : list jstring) : jstring :=
  match parts with
  | [] => []
  | [p] => p
  | p :: rest => p ++ sep ++ join sep rest
  end.

(** A line break and the indentation, when a gap is in use. *)
Definition newline (gap ind : nat) : jstring :=
  match gap with
  | O => []
  | S _ => 10 :: repeat 32 ind
  end.

Definition colon (gap : nat) : jstring :=
  match gap with
  | O => [58]
  | S _ => [58; 32]
  end.

(** A property key that is an array index: the decimal text, without
    leading zero, of an integer below [2^32 - 1]. *)
Definition array_index (k : jstring) : option N :=
  match k with
  | [] => None
  | c :: r =>
    if forallb is_digit k
       && (negb (c =? 48) || match r with [] => true | _ :: _ => false end)
       && (Nat.leb (List.length k) 10)
       && (digits_value 0 k <=? 4294967294)
    then Some (digits_value 0 k)
    else None
  end.

Fixpoint insert_index {A : Type} (i : N) (a : A) (l : list (N * A))
  : list (N * A) :=
  match l with
  | [] => [(i, a)]
  | (j, b) :: r =>
    if i <? j then (i, a) :: l else (j, b) :: insert_index i a r
  end.

(** [OrdinaryOwnPropertyKeys]: the members whose keys are array indices
    in ascending order, then the others in the order of their
    creation. *)
Definition own_property_order {A : Type} (ms : list (jstring * A))
  : list (jstring * A) :=
  List.map snd
    (fold_right (fun kv acc =>
                   match array_index (fst kv) with
                   | Some i => insert_index i kv acc
                   | None => acc
                   end) [] ms)
  ++ filter (fun kv => match array_index (fst kv) with
                       | Some _ => false
                       | None => true
                       end) ms.

(** [SerializeJSONProperty] with a gap of [gap] spaces at indentation
    [ind]. *)
Fixpoint stringify_at (gap ind : nat) (v : jsval) : jstring :=
  match v with
  | JNull => Str.lit "null"
  | JBool true => Str.lit "true"
  | JBool false => Str.lit "false"
  | JNum lx => number_text lx
  | JStr s => quote s
  | JArr [] => Str.lit "[]"
  | JArr vs =>
    91 :: newline gap (ind + gap)
       ++ join (44 :: newline gap (ind + gap))
               (List.map (stringify_at gap (ind + gap)) vs)
       ++ newline gap ind ++ [93]
  | JObj [] => Str.lit "{}"
  | JObj ms =>
    123 :: newline gap (ind + gap)
        ++ join (44 :: newline gap (ind + gap))
                (List.map snd
                   (own_property_order
                      (List.map (fun kv =>
                         (fst kv,
                          quote (fst kv) ++ colon gap
                            ++ stringify_at gap (ind + gap) (snd kv)))
                         ms)))
        ++ newline gap ind ++ [125]
  end.

(** [JSON.stringify(v)] *)
Definition stringify (v : jsval) : jstring := stringify_at 0 0 v.

(** [JSON.stringify(v, null, 2)] *)
Definition stringify2 (v : jsval) : jstring := stringify_at 2 0 v.

End JSON.

Import JSON.

(* ================================================================= *)
(** ** Reading parsed values the way the source does *)

Definition k_id : jstring := Eval cbv in Str.lit "id".
Definition k_role : jstring := Eval cbv in Str.lit "role".
Definition k_dialogue : jstring := Eval cbv in Str.lit "dialogue".
Definition k_think : jstring := Eval cbv in Str.lit "think".
Definition k_timestamp : jstring := Eval cbv in Str.lit "timestamp".
Definition k_length : jstring := Eval cbv in Str.lit "length".
Definition k_toString : jstring := Eval cbv in Str.lit "toString".
Definition responder : jstring := Eval cbv in Str.lit "responder".
Definition questioner : jstring := Eval cbv in Str.lit "questioner".
Definition application_json : jstring := Eval cbv in Str.lit "application/json".

(** What the source throws or lets through. *)
Inductive error_text : Type :=
| BadFormat      (* new Error('文件格式不正确') *)
| BadStructure.  (* new Error('文件数据结构不正确') *)

Inductive exn : Type :=
| TypeError
| SyntaxError
| QuotaExceededError
| SecurityError
| Error (m : error_text).

Inductive result (A : Type) : Type :=
| Ok (a : A)
| Throw (e : exn).

Arguments Ok {A} a.
Arguments Throw {A} e.

Definition rbind {A B : Type} (r : result A) (k : A -> result B) : result B :=
  match r with
  | Ok a => k a
  | Throw e => Throw e
  end.

Fixpoint mapR {A B : Type} (f : A -> result B) (l : list A)
  : result (list B) :=
  match l with
  | [] => Ok []
  | x :: r =>
    rbind (f x) (fun y => rbind (mapR f r) (fun ys => Ok (y :: ys)))
  end.

Fixpoint filterR {A : Type} (f : A -> result bool) (l : list A)
  : result (list A) :=
  match l with
  | [] => Ok []
  | x :: r =>
    rbind (f x) (fun b =>
      rbind (filterR f r) (fun ys => Ok (if b then x :: ys else ys)))
  end.

(** [v.k] for one of the keys [id], [role], [dialogue], [think],
    [timestamp]: the own property of an object, [undefined] on any other
    value (no built-in prototype has a property of these names), and a
    [TypeError] on [null]. *)
Definition get (v : jsval) (k : jstring) : option jsval :=
  match v with
  | JObj ms => lookup k ms
  | _ => None
  end.

Definition field (v : jsval) (k : jstring) : result (option jsval) :=
  match v with
  | JNull => Throw TypeError
  | _ => Ok (get v k)
  end.

(** [ToBoolean] *)
Definition truthy (v : jsval) : bool :=
  match v with
  | JNull => false
  | JBool b => b
  | JNum lx => negb (number_is_zero lx)
  | JStr [] => false
  | JStr (_ :: _) => true
  | JArr _ => true
  | JObj _ => true
  end.

(** [typeof x === 'string'] *)
Definition is_string (x : option jsval) : bool :=
  match x with
  | Some (JStr _) => true
  | _ => false
  end.

(** [x === s] and [x !== s] for a string [s] *)
Definition same_string (x : option jsval) (s : jstring) : bool :=
  match x with
  | Some (JStr t) => Str.eqb t s
  | _ => false
  end.

(** [v.length === 0] *)
Definition length_is_zero (v : jsval) : result bool :=
  match v with
  | JNull => Throw TypeError
  | JArr [] => Ok true
  | JArr (_ :: _) => Ok false
  | JStr [] => Ok true
  | JStr (_ :: _) => Ok false
  | JObj ms =>
    Ok match lookup k_length ms with
       | Some (JNum lx) => number_is_zero lx
       | _ => false
       end
  | _ => Ok false
  end.

(** The receiver of [map], [filter], [push] and [unshift]: these are
    functions on arrays only; on any other parsed value the call is a
    [TypeError]. *)
Definition as_array (v : jsval) : result (list jsval) :=
  match v with
  | JArr l => Ok l
  | _ => Throw TypeError
  end.

(** [ToString(v)] throws: an object with an own [toString] member, which
    parsed data never makes callable, or an array that holds one. *)
Fixpoint unprintable (v : jsval) : bool :=
  match v with
  | JObj ms =>
    match lookup k_toString ms with
    | Some _ => true
    | None => false
    end
  | JArr vs => existsb unprintable vs
  | _ => false
  end.

Definition shown (x : option jsval) : bool :=
  match x with
  | Some v => negb (unprintable v)
  | None => true
  end.

(* ================================================================= *)
(** ** The manager and the browser state it touches *)

(** First argument of [console.error]. *)
Inductive log : Type :=
| LoadFailed      (* '加载对话数据失败:' *)
| SaveFailed      (* '保存对话数据失败:' *)
| ImportFailed.   (* '导入文件失败:' *)

(** Texts given to [showMessage]. *)
Inductive notice : Type :=
| EnterDialogue         (* '请输入对话内容' *)
| AddOk                 (* '对话添加成功' *)
| DeleteOk              (* '对话删除成功' *)
| NothingToExport       (* '没有数据可导出' *)
| ExportOk              (* '数据导出成功' *)
| NotJsonFile           (* '请选择JSON格式的文件' *)
| NothingNew            (* '没有新的对话数据可导入' *)
| Imported (n : nat)    (* `成功导入 ${n} 条对话` *)
| ImportError (e : exn) (* '文件导入失败：' + error.message *)
| ReadFailed            (* '文件读取失败' *)
| NothingToClear        (* '没有数据可清空' *)
| ClearOk.              (* '所有数据已清空' *)

(** Second argument of [showMessage]. *)
Inductive kind : Type := success | error | info.

Record state : Type := mkState {
  dialogues : jsval;                 (* this.dialogues *)
  stored : option jstring;           (* localStorage item 'ai_dialogues' *)
  enabled : bool;                    (* localStorage can be used at all *)
  capacity : nat;                    (* longest text the item can take *)
  console : list (log * exn);        (* console.error calls, oldest first *)
  messages : list (notice * kind)    (* showMessage calls, oldest first *)
}.

Definition with_dialogues (v : jsval) (st : state) : state :=
  mkState v (stored st) (enabled st) (capacity st) (console st) (messages st).

Definition with_stored (text : jstring) (st : state) : state :=
  mkState (dialogues st) (Some text) (enabled st) (capacity st)
          (console st) (messages st).

Definition logged (l : log) (e : exn) (st : state) : state :=
  mkState (dialogues st) (stored st) (enabled st) (capacity st)
          (console st ++ [(l, e)]) (messages st).

Definition notified (n : notice) (k : kind) (st : state) : state :=
  mkState (dialogues st) (stored st) (enabled st) (capacity st)
          (console st) (messages st ++ [(n, k)]).

Definition M (A : Type) : Type := state -> result A * state.

Definition ret {A : Type} (a : A) : M A := fun st => (Ok a, st).

Definition bind {A B : Type} (m : M A) (k : A -> M B) : M B :=
  fun st =>
    match m st with
    | (Ok a, st') => k a st'
    | (Throw e, st') => (Throw e, st')
    end.

Definition throw {A : Type} (e : exn) : M A := fun st => (Throw e, st).

Definition lift {A : Type} (r : result A) : M A := fun st => (r, st).

(** [try { m } catch (error) { handler error }] *)
Definition try_catch {A : Type} (m : M A) (handler : exn -> M A) : M A :=
  fun st =>
    match m st with
    | (Ok a, st') => (Ok a, st')
    | (Throw e, st') => handler e st'
    end.

Declare Scope js_scope.
Delimit Scope js_scope with js.
Notation "x <- m ;; k" := (bind m (fun x => k))
  (at level 61, m at next level, right associativity) : js_scope.
Notation "m ;; k" := (bind m (fun _ => k))
  (at level 61, right associativity) : js_scope.
Local Open Scope js_scope.

Definition this_dialogues : M jsval := fun st => (Ok (dialogues st), st).

Definition set_dialogues (v : jsval) : M unit :=
  fun st => (Ok tt, with_dialogues v st).

(** [localStorage.getItem(this.storageKey)] *)
Definition getItem : M (option jstring) :=
  fun st =>
    if enabled st then (Ok (stored st), st) else (Throw SecurityError, st).

(** [localStorage.setItem(this.storageKey, text)] *)
Definition setItem (text : jstring) : M unit :=
  fun st =>
    if enabled st then
      if List.length text <=? capacity st then (Ok tt, with_stored text st)
      else (Throw QuotaExceededError, st)
    else (Throw SecurityError, st).

Definition console_error (l : log) (e : exn) : M unit :=
  fun st => (Ok tt, logged l e st).

(** [showMessage(message, type)]: the page gets a notice that goes away
    after three seconds; the model keeps the call. *)
Definition showMessage (n : notice) (k : kind) : M unit :=
  fun st => (Ok tt, notified n k st).

(** [JSON.parse(text)] as a computation. *)
Definition JSON_parse (text : jstring) : M jsval :=
  match JSON.parse text with
  | Some v => ret v
  | None => throw SyntaxError
  end.

(** [loadDialogues()] *)
Definition loadDialogues : M jsval :=
  try_catch
    (item <- getItem ;;
     match item with
     | None => ret (JArr [])
     | Some [] => ret (JArr [])
     | Some (c :: text) => JSON_parse (c :: text)
     end)
    (fun err => console_error LoadFailed err ;; ret (JArr [])).

(** [saveDialogues()] *)
Definition saveDialogues : M unit :=
  try_catch
    (d <- this_dialogues ;; setItem (JSON.stringify d))
    (fun err => console_error SaveFailed err).

(** One record of the list is rendered: its fields are read and the id,
    the timestamp, the reasoning and the dialogue are turned into text. *)
Definition renders (d : jsval) : result unit :=
  rbind (field d k_role) (fun _ =>
    if shown (get d k_id) && shown (get d k_timestamp)
       && shown (get d k_think) && shown (get d k_dialogue)
    then Ok tt else Throw TypeError).

(** [renderDialogues()]: it writes the page from [this.dialogues] and
    leaves the store alone; what the model keeps of it is whether it
    throws. *)
Definition renderDialogues : M unit :=
  d <- this_dialogues ;;
  empty <- lift (length_is_zero d) ;;
  if empty : bool then ret tt
  else
    l <- lift (as_array d) ;;
    _ <- lift (mapR renders l) ;;
    ret tt.

(** [addDialogue(role, dialogueText, thinkText)]; [now] is what
    [Date.now()] returns during the call and [localeString] what
    [new Date().toLocaleString('zh-CN')] returns. *)
Definition addDialogue (now : Z) (localeString : jstring)
    (role dialogueText thinkText : jstring) : M bool :=
  match Str.trim dialogueText with
  | [] => showMessage EnterDialogue error ;; ret false
  | _ :: _ =>
    let newDialogue :=
      JObj [ (k_id, JStr (Str.toString now));
             (k_role, JStr role);
             (k_dialogue, JStr (Str.trim dialogueText));
             (k_think, JStr (if Str.eqb role responder
                             then Str.trim thinkText else []));
             (k_timestamp, JStr localeString) ] in
    d <- this_dialogues ;;
    l <- lift (as_array d) ;;
    set_dialogues (JArr (l ++ [newDialogue])) ;;
    saveDialogues ;;
    renderDialogues ;;
    showMessage AddOk success ;;
    ret true
  end.

(** [deleteDialogue(id)]; [confirmed] is the answer to [confirm(...)]. *)
Definition deleteDialogue (confirmed : bool) (id : jstring) : M unit :=
  if confirmed then
    d <- this_dialogues ;;
    l <- lift (as_array d) ;;
    kept <- lift (filterR (fun dialogue =>
                     rbind (field dialogue k_id) (fun x =>
                       Ok (negb (same_string x id)))) l) ;;
    set_dialogues (JArr kept) ;;
    saveDialogues ;;
    renderDialogues ;;
    showMessage DeleteOk success
  else ret tt.

(** [exportData()]; the result is the text of the file offered for
    download, if any. *)
Definition exportData : M (option jstring) :=
  d <- this_dialogues ;;
  empty <- lift (length_is_zero d) ;;
  if empty : bool then showMessage NothingToExport error ;; ret None
  else
    let dataStr := JSON.stringify2 d in
    showMessage ExportOk success ;;
    ret (Some dataStr).

(** The test applied to every item of an imported array. *)
Definition isValidItem (item : jsval) : bool :=
  truthy item
  && is_string (get item k_id)
  && is_string (get item k_role)
  && is_string (get item k_dialogue)
  && is_string (get item k_timestamp).

(** [existingIds.has(x)] for the set built from the list [ids] *)
Definition has (ids : list (option jsval)) (x : option jsval) : bool :=
  match x with
  | Some (JStr s) => existsb (fun y => same_string y s) ids
  | _ => false
  end.

(** [reader.onload]: the file has been read as [text]. *)
Definition onload (text : jstring) : M unit :=
  try_catch
    (importedData <- JSON_parse text ;;
     match importedData with
     | JArr items =>
       if negb (forallb isValidItem items) then throw (Error BadStructure)
       else
         d <- this_dialogues ;;
         l <- lift (as_array d) ;;
         existingIds <- lift (mapR (fun d => field d k_id) l) ;;
         let newDialogues :=
           filter (fun item => negb (has existingIds (get item k_id)))
                  items in
         match newDialogues with
         | [] => showMessage NothingNew info
         | _ :: _ =>
           set_dialogues (JArr (newDialogues ++ l)) ;;
           saveDialogues ;;
           renderDialogues ;;
           showMessage (Imported (List.length newDialogues)) success
         end
     | _ => throw (Error BadFormat)
     end)
    (fun err =>
       console_error ImportFailed err ;;
       showMessage (ImportError err) error).

(** [reader.onerror] *)
Definition onerror : M unit := showMessage ReadFailed error.

(** The file picked by the user: its media type and what reading it as
    text gives, [None] when the read fails. *)
Record file : Type := mkFile {
  type : jstring;
  content : option jstring
}.

(** [handleFileImport(e)] with [e.target.files[0]] as [chosen]; the read
    completes before anything else happens to the store. *)
Definition handleFileImport (chosen : option file) : M unit :=
  match chosen with
  | None => ret tt
  | Some f =>
    if negb (Str.eqb (type f) application_json)
    then showMessage NotJsonFile error
    else
      match content f with
      | Some text => onload text
      | None => onerror
      end
  end.

(** [clearAllData()]; [confirmed] is the answer to [confirm(...)]. *)
Definition clearAllData (confirmed : bool) : M unit :=
  d <- this_dialogues ;;
  empty <- lift (length_is_zero d) ;;
  if empty : bool then showMessage NothingToClear error
  else if confirmed then
    set_dialogues (JArr []) ;;
    saveDialogues ;;
    renderDialogues ;;
    showMessage ClearOk success
  else ret tt.

(** [new DialogueManager()]: the listeners it installs only forward the
    page's events to the methods above. *)
Definition constructor : M unit :=
  d <- loadDialogues ;;
  set_dialogues d ;;
  renderDialogues.

(* ================================================================= *)
(** ** Sessions *)

(** What the page can ask of the manager. *)
Inductive action : Type :=
| Append (now : Z) (localeString role dialogueText thinkText : jstring)
| Delete (confirmed : bool) (id : jstring)
| Import (chosen : option file)
| Export
| Clear (confirmed : bool)
| Reload.

(** The state an action leaves, whether it returns or throws. *)
Definition step (a : action) (st : state) : state :=
  match a with
  | Append now localeString role dialogueText thinkText =>
    snd (addDialogue now localeString role dialogueText thinkText st)
  | Delete confirmed id => snd (deleteDialogue confirmed id st)
  | Import chosen => snd (handleFileImport chosen st)
  | Export => snd (exportData st)
  | Clear confirmed => snd (clearAllData confirmed st)
  | Reload => snd (constructor st)
  end.

Fixpoint run (acts : list action) (st : state) : state :=
  match acts with
  | [] => st
  | a :: rest => run rest (step a st)
  end.

(** One call of [addDialogue]: the two readings of the clock and the
    three arguments. *)
Record append_call : Type := mkCall {
  at_ms : Z;
  at_locale : jstring;
  call_role : jstring;
  call_text : jstring;
  call_think : jstring
}.

Definition appends (calls : list append_call) : list action :=
  List.map (fun c => Append (at_ms c) (at_locale c) (call_role c)
                            (call_text c) (call_think c)) calls.

(** A manager with no record, nothing in storage and room for [cap] code
    units. *)
Definition fresh (cap : nat) : state := mkState (JArr []) None true cap [] [].

(* ================================================================= *)
(** ** Vocabulary of the specification *)

(** A turn record: five texts. *)
Module Turn.
Record t : Type := make {
  id : jstring;
  role : jstring;
  dialogue : jstring;
  think : jstring;
  timestamp : jstring
}.
End Turn.

(** The object the store holds for a record, its members in the order of
    the object literal of [addDialogue]. *)
Definition to_json (r : Turn.t) : jsval :=
  JObj [ (k_id, JStr (Turn.id r));
         (k_role, JStr (Turn.role r));
         (k_dialogue, JStr (Turn.dialogue r));
         (k_think, JStr (Turn.think r));
         (k_timestamp, JStr (Turn.timestamp r)) ].

(** The members of a record, as pairs of texts. *)
Definition fields (r : Turn.t) : list (jstring * jstring) :=
  [ (k_id, Turn.id r); (k_role, Turn.role r); (k_dialogue, Turn.dialogue r);
    (k_think, Turn.think r); (k_timestamp, Turn.timestamp r) ].

(** A member whose value is a string, and the text written for it. *)
Definition string_member (kv : jstring * jstring) : jstring * jsval :=
  (fst kv, JStr (snd kv)).

Definition member_text (gap : nat) (kv : jstring * jstring) : jstring :=
  quote (fst kv) ++ colon gap ++ quote (snd kv).

(** The record a successful [addDialogue] builds. *)
Definition newDialogue (now : Z) (localeString : jstring)
    (role dialogueText thinkText : jstring) : Turn.t :=
  Turn.make (Str.toString now) role (Str.trim dialogueText)
            (if Str.eqb role responder then Str.trim thinkText else [])
            localeString.

(** The record a call adds, when its dialogue text is not blank. *)
Definition added (c : append_call) : Turn.t :=
  newDialogue (at_ms c) (at_locale c) (call_role c) (call_text c)
              (call_think c).

Definition accepted (c : append_call) : bool :=
  match Str.trim (call_text c) with
  | [] => false
  | _ :: _ => true
  end.

(** The state in which [addDialogue] leaves the store after the push and
    the save. *)
Definition pushed (r : Turn.t) (l : list jsval) (st : state) : state :=
  snd (saveDialogues (with_dialogues (JArr (l ++ [to_json r])) st)).

(** The ids of the records of a sequence. *)
Definition ids (l : list jsval) : list (option jsval) :=
  List.map (fun d => get d k_id) l.

(** The sequence the store holds, if it holds one. *)
Definition sequence (st : state) : list jsval :=
  match dialogues st with
  | JArr l => l
  | _ => []
  end.

(** The string id of an item, if it has one. *)
Definition id_of (item : jsval) : option jstring :=
  match get item k_id with
  | Some (JStr s) => Some s
  | _ => None
  end.

(** The id of [item] is the id of a record of [l]. *)
Definition known (l : list jsval) (item : jsval) : bool :=
  match id_of item with
  | Some s =>
    existsb (fun d => match id_of d with
                      | Some t => Str.eqb t s
                      | None => false
                      end) l
  | None => false
  end.

(** Structural validity of an import candidate, in the words of the
    specification: an object with [id], [role], [dialogue] and
    [timestamp] all present as text. *)
Definition structurally_valid (item : jsval) : Prop :=
  exists ms a b c d,
    item = JObj ms
    /\ lookup k_id ms = Some (JStr a)
    /\ lookup k_role ms = Some (JStr b)
    /\ lookup k_dialogue ms = Some (JStr c)
    /\ lookup k_timestamp ms = Some (JStr d).

(** An import input with a candidate that fails structural validation,
    or that is not a sequence at all. *)
Definition malformed (v : jsval) : Prop :=
  match v with
  | JArr items => exists item, In item items /\ ~ structurally_valid item
  | _ => True
  end.

(** The dialogue of a record is text that is neither empty nor
    whitespace-only. *)
Definition has_dialogue (d : jsval) : Prop :=
  exists s, get d k_dialogue = Some (JStr s) /\ Str.blank s = false.

(** Every record of the store has a dialogue. *)
Definition all_have_dialogue (st : state) : Prop :=
  exists l, dialogues st = JArr l /\ Forall has_dialogue l.

(** A record can be rendered. *)
Definition presentable (d : jsval) : Prop := renders d = Ok tt.

(** What a call of [saveDialogues] in state [st] leaves in storage when
    the sequence is [v]. *)
Definition saved (st : state) (v : jsval) : option jstring :=
  if enabled st && (List.length (JSON.stringify v) <=? capacity st)
  then Some (JSON.stringify v)
  else stored st.

(** The error of a write of [text] in state [st], if it fails. *)
Definition write_error (st : state) (text : jstring) : option exn :=
  if enabled st then
    if List.length text <=? capacity st then None
    else Some QuotaExceededError
  else Some SecurityError.

(** The caller of a method that ran from state [st] is told of something
    other than success: the call throws, or it shows a notice that is not
    of the kind [success]. *)
Definition signals {A : Type} (st : state) (out : result A * state) : Prop :=
  (exists e, fst out = Throw e)
  \/ (exists n k,
        In (n, k) (skipn (List.length (messages st)) (messages (snd out)))
        /\ k <> success).

(** An action keeps blank dialogues out of the store: an import brings
    only records with a dialogue, a reload finds only such records. *)
Definition brings_dialogues (a : action) (st : state) : Prop :=
  match a with
  | Import (Some f) =>
    forall text items,
      content f = Some text -> JSON.parse text = Some (JArr items) ->
      Forall has_dialogue items
  | Reload =>
    enabled st = true ->
    forall c text v,
      stored st = Some (c :: text) -> JSON.parse (c :: text) = Some v ->
      exists items, v = JArr items /\ Forall has_dialogue items
  | _ => True
  end.

Fixpoint all_bring_dialogues (acts : list action) (st : state) : Prop :=
  match acts with
  | [] => True
  | a :: rest => brings_dialogues a st /\ all_bring_dialogues rest (step a st)
  end.


(* ================================================================= *)
(** ** Escaping text for the page *)

(** One code unit of the data of a text node, as [innerHTML] serializes
    it: the ampersand, the angle brackets and the no-break space become
    character references. *)
Definition escape_html_unit (c : N) : jstring :=
  (if c =? 38 then Str.lit "&amp;"
   else if c =? 60 then Str.lit "&lt;"
   else if c =? 62 then Str.lit "&gt;"
   else if c =? 160 then Str.lit "&nbsp;"
   else [c])%N.

(** [escapeHtml(text)] for a string [text]: the text is made the content
    of a fresh [div] and the markup of that content is read back. *)
Definition escapeHtml (text : jstring) : jstring :=
  flat_map escape_html_unit text.

(** [dialogue.role === 'questioner']: the test on which the template of
    [renderDialogues] picks the side, the avatar and the badge of a
    record; every other role is drawn as the responder. *)
Definition drawn_as_questioner (d : jsval) : bool :=
  same_string (get d k_role) questioner.

(* ================================================================= *)
(** ** The modal window *)

Definition flex : jstring := Eval cbv in Str.lit "flex".
Definition none : jstring := Eval cbv in Str.lit "none".
Definition block : jstring := Eval cbv in Str.lit "block".
Definition user : jstring := Eval cbv in Str.lit "user".

(** A [.role-btn] element: its [data-role] attribute, which every such
    button is taken to carry, and whether its class list holds
    [role-btn-active]. *)
Record role_button : Type := mkButton {
  data_role : jstring;
  active : bool
}.

(** What the modal functions read and write of the page. Only role
    buttons are taken to carry the class [role-btn-active]. *)
Record page : Type := mkPage {
  modal_display : jstring;         (* #addDialogModal: style.display *)
  modalDialogueInput : jstring;    (* #modalDialogueInput: value *)
  modalThinkInput : jstring;       (* #modalThinkInput: value *)
  thinkGroup_display : jstring;    (* #modalThinkInputGroup: style.display *)
  roleButtons : list role_button   (* the .role-btn elements, in order *)
}.

(** [setActiveRoleButton(role)] *)
Definition setActiveRoleButton (role : jstring) (p : page) : page :=
  mkPage (modal_display p) (modalDialogueInput p) (modalThinkInput p)
         (thinkGroup_display p)
         (List.map (fun button =>
                      mkButton (data_role button)
                               (Str.eqb (data_role button) role))
                   (roleButtons p)).

(** [updateThinkInputVisibility(role)] *)
Definition updateThinkInputVisibility (role : jstring) (p : page) : page :=
  if Str.eqb role responder
  then mkPage (modal_display p) (modalDialogueInput p) (modalThinkInput p)
              block (roleButtons p)
  else mkPage (modal_display p) (modalDialogueInput p) [] none
              (roleButtons p).

(** [openAddDialogModal()]; the focus it asks for a moment later is not
    kept. *)
Definition openAddDialogModal (p : page) : page :=
  let p1 := mkPage (modal_display p) [] [] (thinkGroup_display p)
                   (roleButtons p) in
  let p2 := setActiveRoleButton user p1 in
  mkPage flex (modalDialogueInput p2) (modalThinkInput p2)
         (thinkGroup_display p2) (roleButtons p2).

(** [closeAddDialogModal()] *)
Definition closeAddDialogModal (p : page) : page :=
  mkPage none (modalDialogueInput p) (modalThinkInput p)
         (thinkGroup_display p) (roleButtons p).

(** [handleRoleButtonClick(clickedButton)] *)
Definition handleRoleButtonClick (clickedButton : role_button) (p : page)
  : page :=
  let role := data_role clickedButton in
  updateThinkInputVisibility role (setActiveRoleButton role p).

(** The role that [handleModalAddDialogue] reads off the page: that of
    the first active role button, ['user'] when there is none. *)
Definition activeRole (p : page) : jstring :=
  match find active (roleButtons p) with
  | Some activeRoleButton => data_role activeRoleButton
  | None => user
  end.

(** [handleModalAddDialogue()], on the page and the manager. *)
Definition handleModalAddDialogue (now : Z) (localeString : jstring)
    (p : page) (st : state) : result unit * (page * state) :=
  let role := activeRole p in
  let dialogueText := modalDialogueInput p in
  let thinkText := modalThinkInput p in
  match Str.trim dialogueText with
  | [] => (Ok tt, (p, notified EnterDialogue error st))
  | _ :: _ =>
    match addDialogue now localeString role dialogueText thinkText st with
    | (Ok true, st') =>
      (Ok tt, (closeAddDialogModal p, notified AddOk success st'))
    | (Ok false, st') => (Ok tt, (p, st'))
    | (Throw e, st') => (Throw e, (p, st'))
    end
  end.

(* ================================================================= *)
(** ** Further vocabulary *)

(** A reasoning is kept only with the role ['responder']. *)
Definition reasoning_fits (d : jsval) : Prop :=
  get d k_think = Some (JStr [])
  \/ get d k_role = Some (JStr responder).

(** Where a record that an action adds to the store comes from: the call
    of [addDialogue], or the file of the import. *)
Definition brought_by (a : action) (d : jsval) : Prop :=
  match a with
  | Append now localeString role dialogueText thinkText =>
    Str.trim dialogueText <> []
    /\ d = to_json (newDialogue now localeString role dialogueText
                                thinkText)
  | Import (Some f) =>
    exists text items,
      content f = Some text /\ JSON.parse text = Some (JArr items)
      /\ In d items /\ structurally_valid d
  | _ => False
  end.

(** A record as [addDialogue] makes them: an object of five texts. *)
Definition is_record (d : jsval) : Prop := exists r : Turn.t, d = to_json r.

(** The sequence an import leaves when the store holds [l] and the file
    reads as [text]. *)
Definition imported (text : jstring) (l : list jsval) : list jsval :=
  match JSON.parse text with
  | Some (JArr items) =>
    if forallb isValidItem items
    then filter (fun item => negb (known l item)) items ++ l
    else l
  | _ => l
  end.

(* ================================================================= *)
(** * Properties *)

Section RoundTrip.

Local Open Scope N_scope.

(* ================================================================= *)
(** ** [JSON.parse] reads back what [JSON.stringify] writes *)

Ltac compare_units :=
  repeat match goal with
  | |- context [N.eqb ?a ?b] => destruct (N.eqb_spec a b)
  | |- context [N.ltb ?a ?b] => destruct (N.ltb_spec a b)
  | |- context [N.leb ?a ?b] => destruct (N.leb_spec a b)
  | H : context [N.eqb ?a ?b] |- _ => destruct (N.eqb_spec a b)
  | H : context [N.ltb ?a ?b] |- _ => destruct (N.ltb_spec a b)
  | H : context [N.leb ?a ?b] |- _ => destruct (N.leb_spec a b)
  end.

Lemma hexval_hexdigit (n : N) : n < 16 -> hexval (hexdigit n) = Some n.
Proof.
  intros H. unfold hexval, hexdigit.
  compare_units; cbn [andb]; try lia; f_equal; lia.
Qed.

Lemma hex4_digits (c : N) :
  c < 65536 ->
  hex4 (hexdigit (c / 4096)) (hexdigit ((c / 256) mod 16))
       (hexdigit ((c / 16) mod 16)) (hexdigit (c mod 16)) = Some c.
Proof.
  intros H. unfold hex4.
  rewrite !hexval_hexdigit;
    try (apply N.mod_lt; discriminate);
    try (apply N.Div0.div_lt_upper_bound; exact H).
  f_equal. zify. Z.to_euclidean_division_equations. lia.
Qed.

Lemma parse_chars_plain (c : N) (s : jstring) :
  c <> 34 -> c <> 92 -> 32 <= c ->
  parse_chars (c :: s) = push c (parse_chars s).
Proof.
  intros H1 H2 H3. cbn [parse_chars].
  compare_units; try lia; reflexivity.
Qed.

Lemma parse_chars_uescape (c : N) (s : jstring) :
  c < 65536 ->
  parse_chars (uescape c ++ s) = push c (parse_chars s).
Proof.
  intros H. unfold uescape. cbn [List.app parse_chars].
  change (92 =? 34) with false. change (92 =? 92) with true.
  change (117 =? 117) with true. cbv iota.
  rewrite (hex4_digits c H). reflexivity.
Qed.

Lemma parse_chars_escape_unit (c : N) (s : jstring) :
  is_high c = false -> is_low c = false ->
  parse_chars (escape_unit c ++ s) = push c (parse_chars s).
Proof.
  unfold is_high, is_low, escape_unit. intros Hh Hl.
  destruct (N.eqb_spec c 8) as [->|]; [reflexivity|].
  destruct (N.eqb_spec c 9) as [->|]; [reflexivity|].
  destruct (N.eqb_spec c 10) as [->|]; [reflexivity|].
  destruct (N.eqb_spec c 12) as [->|]; [reflexivity|].
  destruct (N.eqb_spec c 13) as [->|]; [reflexivity|].
  destruct (N.eqb_spec c 34) as [->|]; [reflexivity|].
  destruct (N.eqb_spec c 92) as [->|]; [reflexivity|].
  destruct (N.ltb_spec c 32).
  - apply parse_chars_uescape. lia.
  - apply parse_chars_plain; assumption.
Qed.

Lemma surrogate_plain (c : N) :
  is_high c = true \/ is_low c = true -> c <> 34 /\ c <> 92 /\ 32 <= c.
Proof.
  unfold is_high, is_low. intros [H|H];
    apply andb_true_iff in H; destruct H as [H1 H2];
    apply N.leb_le in H1; apply N.leb_le in H2; lia.
Qed.

Lemma surrogate_small (c : N) :
  is_high c = true \/ is_low c = true -> c < 65536.
Proof.
  unfold is_high, is_low. intros [H|H];
    apply andb_true_iff in H; destruct H as [H1 H2];
    apply N.leb_le in H1; apply N.leb_le in H2; lia.
Qed.

Lemma parse_chars_escape_bounded (n : nat) :
  forall (s rest : jstring),
    (List.length s <= n)%nat ->
    parse_chars (escape s ++ 34 :: rest) = Some (s, rest).
Proof.
  induction n as [|n IH]; intros s rest Hn.
  - destruct s; [reflexivity | simpl in Hn; lia].
  - destruct s as [|c r]; [reflexivity|]. simpl in Hn.
    cbn [escape].
    destruct (is_high c) eqn:Hh.
    + destruct r as [|d r'].
      * rewrite parse_chars_uescape
          by (apply surrogate_small; left; assumption).
        reflexivity.
      * destruct (is_low d) eqn:Hl.
        -- cbn [List.app].
           destruct (surrogate_plain c (or_introl Hh)) as (c1 & c2 & c3).
           destruct (surrogate_plain d (or_intror Hl)) as (d1 & d2 & d3).
           rewrite (parse_chars_plain c _ c1 c2 c3).
           rewrite (parse_chars_plain d _ d1 d2 d3).
           rewrite IH by (simpl in Hn; lia). reflexivity.
        -- rewrite <- app_assoc.
           rewrite parse_chars_uescape
             by (apply surrogate_small; left; assumption).
           rewrite IH by lia. reflexivity.
    + destruct (is_low c) eqn:Hl.
      * rewrite <- app_assoc.
        rewrite parse_chars_uescape
          by (apply surrogate_small; right; assumption).
        rewrite IH by lia. reflexivity.
      * rewrite <- app_assoc.
        rewrite (parse_chars_escape_unit c _ Hh Hl).
        rewrite IH by lia. reflexivity.
Qed.

(** A string literal is read back as the string it was written from. *)
Lemma parse_chars_escape (s rest : jstring) :
  parse_chars (escape s ++ 34 :: rest) = Some (s, rest).
Proof. apply (parse_chars_escape_bounded (List.length s)). lia. Qed.

Lemma skip_ws_spaces (n : nat) (s : jstring) :
  skip_ws (repeat 32 n ++ s) = skip_ws s.
Proof. induction n as [|n IH]; [reflexivity | exact IH]. Qed.

(** The line break and the indentation are skipped, with or without a
    gap. *)
Lemma skip_ws_newline (gap ind : nat) (s : jstring) :
  skip_ws (newline gap ind ++ s) = skip_ws s.
Proof. destruct gap; [reflexivity | apply (skip_ws_spaces ind s)]. Qed.

Lemma parse_value_skip (f : nat) (s1 s2 : jstring) :
  skip_ws s1 = skip_ws s2 -> parse_value f s1 = parse_value f s2.
Proof. intros E. destruct f; [reflexivity|]. simpl. rewrite E. reflexivity. Qed.

Lemma parse_members_skip (f : nat) (s1 s2 : jstring) :
  skip_ws s1 = skip_ws s2 -> parse_members f s1 = parse_members f s2.
Proof. intros E. destruct f; [reflexivity|]. simpl. rewrite E. reflexivity. Qed.

Lemma parse_elements_skip (f : nat) (s1 s2 : jstring) :
  skip_ws s1 = skip_ws s2 -> parse_elements f s1 = parse_elements f s2.
Proof.
  intros E. destruct f; [reflexivity|]. simpl.
  rewrite (parse_value_skip f s1 s2 E). reflexivity.
Qed.

(** The cases of the parser that a written store goes through. *)

Lemma parse_value_quote (f : nat) (s r : jstring) :
  skip_ws s = 34 :: r ->
  parse_value (S f) s
  = match parse_chars r with
    | Some (str, r') => Some (JStr str, r')
    | None => None
    end.
Proof. intros E. simpl. rewrite E. reflexivity. Qed.

Lemma parse_value_brace (f : nat) (s r r' : jstring) (d : N) :
  skip_ws s = 123 :: r -> skip_ws r = d :: r' -> d <> 125 ->
  parse_value (S f) s
  = match parse_members f r with
    | Some (ms, r'') => Some (JObj (normalize ms), r'')
    | None => None
    end.
Proof.
  intros E E' N. simpl. rewrite E. cbn [N.eqb Pos.eqb]. rewrite E'.
  destruct (N.eqb_spec d 125); [contradiction | reflexivity].
Qed.

Lemma parse_value_bracket (f : nat) (s r r' : jstring) (d : N) :
  skip_ws s = 91 :: r -> skip_ws r = d :: r' -> d <> 93 ->
  parse_value (S f) s
  = match parse_elements f r with
    | Some (vs, r'') => Some (JArr vs, r'')
    | None => None
    end.
Proof.
  intros E E' N. simpl. rewrite E. cbn [N.eqb Pos.eqb]. rewrite E'.
  destruct (N.eqb_spec d 93); [contradiction | reflexivity].
Qed.

Lemma parse_members_member (f : nat) (s r r1 r2 r3 : jstring)
    (k : jstring) (v : jsval) :
  skip_ws s = 34 :: r -> parse_chars r = Some (k, r1) ->
  skip_ws r1 = 58 :: r2 -> parse_value f r2 = Some (v, r3) ->
  parse_members (S f) s
  = match skip_ws r3 with
    | [] => None
    | d :: r4 =>
      if d =? 44 then
        match parse_members f r4 with
        | Some (ms, r5) => Some ((k, v) :: ms, r5)
        | None => None
        end
      else if d =? 125 then Some ([(k, v)], r4)
      else None
    end.
Proof.
  intros E1 E2 E3 E4. simpl. rewrite E1. cbn [N.eqb Pos.eqb].
  rewrite E2, E3. cbn [N.eqb Pos.eqb]. rewrite E4. reflexivity.
Qed.

Lemma parse_elements_element (f : nat) (s r : jstring) (v : jsval) :
  parse_value f s = Some (v, r) ->
  parse_elements (S f) s
  = match skip_ws r with
    | [] => None
    | d :: r' =>
      if d =? 44 then
        match parse_elements f r' with
        | Some (vs, r'') => Some (v :: vs, r'')
        | None => None
        end
      else if d =? 93 then Some ([v], r')
      else None
    end.
Proof. intros E. simpl. rewrite E. reflexivity. Qed.

Lemma parse_value_string (f : nat) (s rest : jstring) :
  parse_value (S f) (quote s ++ rest) = Some (JStr s, rest).
Proof.
  rewrite (parse_value_quote f _ (escape s ++ 34 :: rest)).
  - rewrite parse_chars_escape. reflexivity.
  - unfold quote. cbn [List.app]. rewrite <- app_assoc. reflexivity.
Qed.

(** The members of an object whose values are strings are read back in
    order, written on one line or one per line. *)
Lemma parse_members_strings (gap n m : nat) (rest : jstring) :
  forall (fs : list (jstring * jstring)) (f : nat),
    fs <> [] ->
    parse_members (List.length fs + S f)
      (join (44 :: newline gap n) (List.map (member_text gap) fs)
         ++ newline gap m ++ 125 :: rest)
    = Some (List.map string_member fs, rest).
Proof.
  induction fs as [|[k v] fs IH]; intros f Hne;
    [contradiction Hne; reflexivity|].
  cbn [List.length Nat.add List.map].
  set (closing := newline gap m ++ 125 :: rest).
  assert (Hmem : forall tail : jstring,
            parse_members (S (List.length fs + S f))
              (member_text gap (k, v) ++ tail)
            = match skip_ws tail with
              | [] => None
              | d :: r4 =>
                if d =? 44 then
                  match parse_members (List.length fs + S f) r4 with
                  | Some (ms, r5) => Some ((k, JStr v) :: ms, r5)
                  | None => None
                  end
                else if d =? 125 then Some ([(k, JStr v)], r4)
                else None
              end).
  { intros tail.
    set (space := match gap with O => [] | S _ => [32] end).
    apply (parse_members_member _ _
             (escape k ++ 34 :: 58 :: space ++ 34 :: escape v ++ 34 :: tail)
             (58 :: space ++ 34 :: escape v ++ 34 :: tail)
             (space ++ 34 :: escape v ++ 34 :: tail) tail k (JStr v)).
    - unfold member_text, quote, colon, space; cbn [fst snd].
      destruct gap;
        repeat (rewrite <- app_assoc || rewrite <- app_comm_cons);
        reflexivity.
    - apply parse_chars_escape.
    - reflexivity.
    - rewrite Nat.add_succ_r.
      rewrite (parse_value_quote _ _ (escape v ++ 34 :: tail))
        by (unfold space; destruct gap; reflexivity).
      rewrite parse_chars_escape. reflexivity. }
  destruct fs as [|kv fs'].
  - cbn [List.map join]. rewrite Hmem.
    unfold closing. rewrite skip_ws_newline. reflexivity.
  - change (join (44 :: newline gap n)
              (member_text gap (k, v)
                 :: List.map (member_text gap) (kv :: fs')))
      with (member_text gap (k, v) ++ (44 :: newline gap n)
              ++ join (44 :: newline gap n)
                   (List.map (member_text gap) (kv :: fs'))).
    rewrite <- !app_assoc. rewrite Hmem.
    cbn [List.app skip_ws is_ws N.eqb Pos.eqb orb].
    rewrite (parse_members_skip _ _
               (join (44 :: newline gap n)
                  (List.map (member_text gap) (kv :: fs')) ++ closing))
      by (apply skip_ws_newline).
    rewrite IH by discriminate. reflexivity.
Qed.

(* ----------------------------------------------------------------- *)
(** *** The fuel of the parser is enough *)

Lemma skip_ws_length (s : jstring) :
  (List.length (skip_ws s) <= List.length s)%nat.
Proof.
  induction s as [|c s IH]; simpl; [lia|].
  destruct (is_ws c); simpl; lia.
Qed.

Lemma push_length (c : N) (p : option (jstring * jstring))
    (x r : jstring) :
  push c p = Some (x, r) -> exists y, p = Some (y, r).
Proof.
  destruct p as [[y r']|]; simpl; [|discriminate].
  intros [= _ <-]. exists y. reflexivity.
Qed.

Lemma parse_chars_length_bounded (n : nat) :
  forall (s x r : jstring),
    (List.length s <= n)%nat ->
    parse_chars s = Some (x, r) -> (List.length r < List.length s)%nat.
Proof.
  induction n as [|n IH]; intros s x r Hn H.
  - destruct s; [discriminate H | simpl in Hn; lia].
  - destruct s as [|c s]; [discriminate H|].
    cbn [parse_chars] in H. simpl in Hn. cbn [List.length].
    destruct (c =? 34).
    + injection H as _ <-. lia.
    + destruct (c =? 92).
      * destruct s as [|e s1]; [discriminate H|].
        destruct (e =? 117).
        -- destruct s1 as [|h1 [|h2 [|h3 [|h4 s2]]]]; try discriminate H.
           destruct (hex4 h1 h2 h3 h4); [|discriminate H].
           apply push_length in H. destruct H as [y H].
           apply IH in H; simpl in *; lia.
        -- destruct (unescape e); [|discriminate H].
           apply push_length in H. destruct H as [y H].
           apply IH in H; simpl in *; lia.
      * destruct (c <? 32); [discriminate H|].
        apply push_length in H. destruct H as [y H].
        apply IH in H; simpl in *; lia.
Qed.

Lemma parse_chars_length (s x r : jstring) :
  parse_chars s = Some (x, r) -> (List.length r < List.length s)%nat.
Proof. apply (parse_chars_length_bounded (List.length s)). lia. Qed.

Lemma expect_length (w s r : jstring) :
  expect w s = Some r -> (List.length r <= List.length s)%nat.
Proof.
  revert s; induction w as [|a w IH]; intros s H; simpl in H.
  - injection H as <-. lia.
  - destruct s as [|c s]; [discriminate H|].
    destruct (a =? c); [|discriminate H].
    apply IH in H. simpl. lia.
Qed.

Lemma keyword_length (w s : jstring) (v v' : jsval) (r : jstring) :
  keyword w s v = Some (v', r) -> (List.length r <= List.length s)%nat.
Proof.
  unfold keyword. destruct (expect w s) as [r'|] eqn:E; [|discriminate].
  intros [= _ <-]. apply (expect_length w s r' E).
Qed.

Lemma span_digits_length (s ds r : jstring) :
  span_digits s = (ds, r) -> (List.length r <= List.length s)%nat.
Proof.
  revert ds r; induction s as [|c s IH]; intros ds r H; simpl in H.
  - injection H as _ <-. lia.
  - destruct (is_digit c).
    + destruct (span_digits s) as [ds' r'] eqn:E.
      injection H as _ <-. specialize (IH _ _ eq_refl). simpl. lia.
    + injection H as _ <-. lia.
Qed.

Lemma lex_exp_length (acc s lx r : jstring) :
  lex_exp acc s = Some (lx, r) -> (List.length r <= List.length s)%nat.
Proof.
  unfold lex_exp. destruct s as [|c s]; [intros [= _ <-]; lia|].
  destruct ((c =? 101) || (c =? 69)); [|intros [= _ <-]; lia].
  destruct s as [|d s'].
  - simpl. discriminate.
  - destruct ((d =? 43) || (d =? 45)).
    + destruct (span_digits s') as [[|x ds] r2] eqn:E; [discriminate|].
      intros [= _ <-]. apply span_digits_length in E. simpl. lia.
    + destruct (span_digits (d :: s')) as [[|x ds] r2] eqn:E; [discriminate|].
      intros [= _ <-]. apply span_digits_length in E. simpl in *. lia.
Qed.

Lemma lex_frac_length (acc s lx r : jstring) :
  lex_frac acc s = Some (lx, r) -> (List.length r <= List.length s)%nat.
Proof.
  unfold lex_frac. destruct s as [|c s]; [intros [= _ <-]; lia|].
  destruct (c =? 46).
  - destruct (span_digits s) as [[|x ds] r1] eqn:E; [discriminate|].
    intros H. apply lex_exp_length in H. apply span_digits_length in E.
    simpl. lia.
  - apply lex_exp_length.
Qed.

Lemma lex_number_length (s lx r : jstring) :
  lex_number s = Some (lx, r) -> (List.length r < List.length s)%nat.
Proof.
  unfold lex_number.
  assert (digits : forall sign s1,
            match s1 with
            | [] => None
            | c :: r0 =>
              if c =? 48 then lex_frac (sign ++ [c]) r0
              else if is_digit c
                   then let (ds, r1) := span_digits r0 in
                        lex_frac (sign ++ c :: ds) r1
                   else None
            end = Some (lx, r) ->
            (List.length r < List.length s1)%nat).
  { intros sign [|c r0]; [discriminate|].
    destruct (c =? 48).
    - intros H. apply lex_frac_length in H. simpl. lia.
    - destruct (is_digit c); [|discriminate].
      destruct (span_digits r0) as [ds r1] eqn:E.
      intros H. apply lex_frac_length in H. apply span_digits_length in E.
      simpl. lia. }
  destruct s as [|c s0]; [discriminate|].
  destruct (c =? 45); cbv beta iota.
  - intros H. apply (digits [c] s0) in H. simpl. lia.
  - apply (digits [] (c :: s0)).
Qed.

(** Whatever the parser reads with some fuel, it reads with any fuel
    that is at least the number of code units it consumes. *)
Lemma parser_fuel (f : nat) :
  (forall s v r,
     parse_value f s = Some (v, r) ->
     (List.length r < List.length s)%nat
     /\ forall g, (List.length s - List.length r <= g)%nat ->
                  parse_value g s = Some (v, r))
  /\ (forall s vs r,
        parse_elements f s = Some (vs, r) ->
        (List.length r < List.length s)%nat
        /\ forall g, (List.length s - List.length r <= g)%nat ->
                     parse_elements g s = Some (vs, r))
  /\ (forall s ms r,
        parse_members f s = Some (ms, r) ->
        (List.length r < List.length s)%nat
        /\ forall g, (List.length s - List.length r <= g)%nat ->
                     parse_members g s = Some (ms, r)).
Proof.
  induction f as [|f (IHv & IHe & IHm)].
  { repeat split; intros; discriminate. }
  split; [|split].
  - intros s v r H. simpl in H.
    pose proof (skip_ws_length s) as Hs.
    destruct (skip_ws s) as [|c r0] eqn:Es; [discriminate H|].
    cbn [List.length] in Hs.
    destruct (c =? 34) eqn:E34.
    { destruct (parse_chars r0) as [[str r']|] eqn:Ec; [|discriminate H].
      injection H as <- <-. pose proof (parse_chars_length _ _ _ Ec) as Lc.
      split; [lia|]. intros [|g] Hg; [lia|].
      simpl. rewrite Es, E34, Ec. reflexivity. }
    destruct (c =? 91) eqn:E91.
    { pose proof (skip_ws_length r0) as Hs0.
      destruct (skip_ws r0) as [|d r'] eqn:Er; [discriminate H|].
      cbn [List.length] in Hs0.
      destruct (d =? 93) eqn:E93.
      - injection H as <- <-. split; [lia|]. intros [|g] Hg; [lia|].
        simpl. rewrite Es, E34, E91, Er, E93. reflexivity.
      - destruct (parse_elements f r0) as [[vs r'']|] eqn:Ee;
          [|discriminate H].
        injection H as <- <-. destruct (IHe _ _ _ Ee) as [L G].
        split; [lia|]. intros [|g] Hg; [lia|].
        simpl. rewrite Es, E34, E91, Er, E93, (G g) by lia. reflexivity. }
    destruct (c =? 123) eqn:E123.
    { pose proof (skip_ws_length r0) as Hs0.
      destruct (skip_ws r0) as [|d r'] eqn:Er; [discriminate H|].
      cbn [List.length] in Hs0.
      destruct (d =? 125) eqn:E125.
      - injection H as <- <-. split; [lia|]. intros [|g] Hg; [lia|].
        simpl. rewrite Es, E34, E91, E123, Er, E125. reflexivity.
      - destruct (parse_members f r0) as [[ms r'']|] eqn:Em;
          [|discriminate H].
        injection H as <- <-. destruct (IHm _ _ _ Em) as [L G].
        split; [lia|]. intros [|g] Hg; [lia|].
        simpl. rewrite Es, E34, E91, E123, Er, E125, (G g) by lia.
        reflexivity. }
    destruct (c =? 110) eqn:E110.
    { pose proof (keyword_length _ _ _ _ _ H) as L.
      split; [lia|]. intros [|g] Hg; [lia|].
      simpl. rewrite Es, E34, E91, E123, E110. exact H. }
    destruct (c =? 116) eqn:E116.
    { pose proof (keyword_length _ _ _ _ _ H) as L.
      split; [lia|]. intros [|g] Hg; [lia|].
      simpl. rewrite Es, E34, E91, E123, E110, E116. exact H. }
    destruct (c =? 102) eqn:E102.
    { pose proof (keyword_length _ _ _ _ _ H) as L.
      split; [lia|]. intros [|g] Hg; [lia|].
      simpl. rewrite Es, E34, E91, E123, E110, E116, E102. exact H. }
    destruct (lex_number (c :: r0)) as [[lx r']|] eqn:En; [|discriminate H].
    injection H as <- <-. pose proof (lex_number_length _ _ _ En) as L.
    cbn [List.length] in L.
    split; [lia|]. intros [|g] Hg; [lia|].
    simpl. rewrite Es, E34, E91, E123, E110, E116, E102, En. reflexivity.
  - intros s vs r H. simpl in H.
    destruct (parse_value f s) as [[v r1]|] eqn:Ev; [|discriminate H].
    destruct (IHv _ _ _ Ev) as [Lv Gv].
    pose proof (skip_ws_length r1) as Hs.
    destruct (skip_ws r1) as [|d r'] eqn:Er; [discriminate H|].
    cbn [List.length] in Hs.
    destruct (d =? 44) eqn:E44.
    + destruct (parse_elements f r') as [[vs' r'']|] eqn:Ee;
        [|discriminate H].
      injection H as <- <-. destruct (IHe _ _ _ Ee) as [L G].
      split; [lia|]. intros [|g] Hg; [lia|].
      simpl. rewrite (Gv g) by lia. rewrite Er, E44, (G g) by lia.
      reflexivity.
    + destruct (d =? 93) eqn:E93; [|discriminate H].
      injection H as <- <-.
      split; [lia|]. intros [|g] Hg; [lia|].
      simpl. rewrite (Gv g) by lia. rewrite Er, E44, E93. reflexivity.
  - intros s ms r H. simpl in H.
    pose proof (skip_ws_length s) as Hs.
    destruct (skip_ws s) as [|q r0] eqn:Es; [discriminate H|].
    cbn [List.length] in Hs.
    destruct (q =? 34) eqn:E34; [|discriminate H].
    destruct (parse_chars r0) as [[k r1]|] eqn:Ec; [|discriminate H].
    pose proof (parse_chars_length _ _ _ Ec) as Lc.
    pose proof (skip_ws_length r1) as Hs1.
    destruct (skip_ws r1) as [|col r2] eqn:Er1; [discriminate H|].
    cbn [List.length] in Hs1.
    destruct (col =? 58) eqn:E58; [|discriminate H].
    destruct (parse_value f r2) as [[v r3]|] eqn:Ev; [|discriminate H].
    destruct (IHv _ _ _ Ev) as [Lv Gv].
    pose proof (skip_ws_length r3) as Hs3.
    destruct (skip_ws r3) as [|d r4] eqn:Er3; [discriminate H|].
    cbn [List.length] in Hs3.
    destruct (d =? 44) eqn:E44.
    + destruct (parse_members f r4) as [[ms' r5]|] eqn:Em;
        [|discriminate H].
      injection H as <- <-. destruct (IHm _ _ _ Em) as [L G].
      split; [lia|]. intros [|g] Hg; [lia|].
      simpl. rewrite Es, E34, Ec, Er1, E58. rewrite (Gv g) by lia.
      rewrite Er3, E44, (G g) by lia. reflexivity.
    + destruct (d =? 125) eqn:E125; [|discriminate H].
      injection H as <- <-.
      split; [lia|]. intros [|g] Hg; [lia|].
      simpl. rewrite Es, E34, Ec, Er1, E58. rewrite (Gv g) by lia.
      rewrite Er3, E44, E125. reflexivity.
Qed.

(** The fuel that [JSON.parse] gives the parser is enough: more fuel
    reads nothing that it does not read. *)
Lemma parse_value_enough (f : nat) (s : jstring) (v : jsval) (r : jstring) :
  parse_value f s = Some (v, r) ->
  parse_value (S (List.length s)) s = Some (v, r).
Proof.
  intros H. destruct (parser_fuel f) as (Hv & _ & _).
  destruct (Hv s v r H) as [_ G]. apply G. lia.
Qed.

Lemma stringify_record (gap ind : nat) (r : Turn.t) :
  stringify_at gap ind (to_json r)
  = 123 :: newline gap (ind + gap)
      ++ join (44 :: newline gap (ind + gap))
              (List.map (member_text gap) (fields r))
      ++ newline gap ind ++ [125].
Proof. reflexivity. Qed.

Lemma stringify_record_head (gap ind : nat) (r : Turn.t) :
  exists t, stringify_at gap ind (to_json r) = 123 :: t.
Proof. rewrite stringify_record. eexists. reflexivity. Qed.

(** A record is read back as it was written, whatever follows it. *)
Lemma parse_value_record (f gap ind : nat) (r : Turn.t) (rest : jstring) :
  (7 <= f)%nat ->
  parse_value f (stringify_at gap ind (to_json r) ++ rest)
  = Some (to_json r, rest).
Proof.
  intros Hf.
  replace f with (S (List.length (fields r) + S (f - 7)))%nat
    by (cbn [fields List.length]; lia).
  rewrite stringify_record.
  set (body := join (44 :: newline gap (ind + gap))
                    (List.map (member_text gap) (fields r))).
  assert (Hb : exists b, body = 34 :: b).
  { unfold body, fields.
    cbn [List.map join member_text fst quote List.app].
    eexists. reflexivity. }
  destruct Hb as [b Hb].
  rewrite (parse_value_brace _ _
             (newline gap (ind + gap) ++ body
                ++ newline gap ind ++ 125 :: rest)
             (b ++ newline gap ind ++ 125 :: rest) 34).
  - rewrite (parse_members_skip _ _
               (body ++ newline gap ind ++ 125 :: rest))
      by (apply skip_ws_newline).
    unfold body. rewrite parse_members_strings by discriminate.
    reflexivity.
  - cbn [List.app]. repeat (rewrite <- app_assoc || rewrite <- app_comm_cons).
    reflexivity.
  - rewrite skip_ws_newline, Hb. reflexivity.
  - discriminate.
Qed.

(** The records of a sequence, written one after the other, are read
    back in order. *)
Lemma parse_elements_records (gap : nat) (rest : jstring) :
  forall (rs : list Turn.t) (f : nat),
    rs <> [] -> (List.length rs + 7 <= f)%nat ->
    parse_elements f
      (join (44 :: newline gap gap)
            (List.map (stringify_at gap gap) (List.map to_json rs))
         ++ newline gap 0 ++ 93 :: rest)
    = Some (List.map to_json rs, rest).
Proof.
  induction rs as [|r rs IH]; intros f Hne Hf;
    [contradiction Hne; reflexivity|].
  destruct f as [|f]; [simpl in Hf; lia|].
  cbn [List.length] in Hf.
  destruct rs as [|r' rs'].
  - cbn [List.map join].
    rewrite (parse_elements_element _ _ (newline gap 0 ++ 93 :: rest)
               (to_json r))
      by (apply parse_value_record; simpl in Hf; lia).
    rewrite skip_ws_newline. reflexivity.
  - change (List.map (stringify_at gap gap)
              (List.map to_json (r :: r' :: rs')))
      with (stringify_at gap gap (to_json r)
              :: List.map (stringify_at gap gap)
                   (List.map to_json (r' :: rs'))).
    change (join (44 :: newline gap gap)
              (stringify_at gap gap (to_json r)
                 :: List.map (stringify_at gap gap)
                      (List.map to_json (r' :: rs'))))
      with (stringify_at gap gap (to_json r) ++ (44 :: newline gap gap)
              ++ join (44 :: newline gap gap)
                   (List.map (stringify_at gap gap)
                      (List.map to_json (r' :: rs')))).
    rewrite <- !app_assoc.
    set (more := join (44 :: newline gap gap)
                   (List.map (stringify_at gap gap)
                      (List.map to_json (r' :: rs')))
                 ++ newline gap 0 ++ 93 :: rest).
    rewrite (parse_elements_element _ _
               ((44 :: newline gap gap) ++ more) (to_json r))
      by (apply parse_value_record; simpl in Hf; lia).
    cbn [List.app skip_ws is_ws N.eqb Pos.eqb orb].
    rewrite (parse_elements_skip _ _ more) by (apply skip_ws_newline).
    unfold more. rewrite (IH f) by (try discriminate; lia). reflexivity.
Qed.

(** What is written for a sequence of records, on one line as
    [saveDialogues] does or with a gap as [exportData] does, is read back
    by [JSON.parse] as that sequence. *)
Lemma parse_stringify_records (gap : nat) (rs : list Turn.t) :
  JSON.parse (stringify_at gap 0 (JArr (List.map to_json rs)))
  = Some (JArr (List.map to_json rs)).
Proof.
  destruct rs as [|r rs]; [reflexivity|].
  set (all := r :: rs).
  set (body := join (44 :: newline gap gap)
                 (List.map (stringify_at gap gap) (List.map to_json all))).
  assert (Et : stringify_at gap 0 (JArr (List.map to_json all))
               = 91 :: newline gap gap ++ body ++ newline gap 0 ++ [93])
    by reflexivity.
  unfold parse. rewrite Et.
  destruct (stringify_record_head gap gap r) as [t Ht].
  assert (Hb : exists b, body = 123 :: b).
  { unfold body, all. cbn [List.map]. rewrite Ht.
    destruct (List.map (stringify_at gap gap) (List.map to_json rs));
      eexists; reflexivity. }
  destruct Hb as [b Hb].
  rewrite (parse_value_enough (S (List.length all + 7)) _
             (JArr (List.map to_json all)) []).
  - reflexivity.
  - rewrite (parse_value_bracket _ _
               (newline gap gap ++ body ++ newline gap 0 ++ [93])
               (b ++ newline gap 0 ++ [93]) 123).
    + rewrite (parse_elements_skip _ _ (body ++ newline gap 0 ++ [93]))
        by (apply skip_ws_newline).
      unfold body. rewrite parse_elements_records.
      * reflexivity.
      * discriminate.
      * lia.
    + reflexivity.
    + rewrite skip_ws_newline, Hb. reflexivity.
    + discriminate.
Qed.

End RoundTrip.

Section Numbers.

Local Open Scope Z_scope.

(* ----------------------------------------------------------------- *)
(** *** The Number of a literal *)

Lemma div_half_even_zero (a b : Z) :
  0 <= a -> 0 < b -> (div_half_even a b = 0 <-> 2 * a <= b).
Proof.
  intros Ha Hb. unfold div_half_even.
  pose proof (Z.div_mod a b) as E.
  pose proof (Z.mod_pos_bound a b Hb) as [R0 R1].
  pose proof (Z.div_pos a b Ha Hb) as Q0.
  set (q := a / b) in *. set (r := a mod b) in *.
  assert (Ea : a = b * q + r) by (apply E; lia). clear E.
  destruct (Z.ltb_spec (2 * r) b) as [L|L].
  - split; intros T; nia.
  - destruct (Z.ltb_spec b (2 * r)) as [G|G].
    + split; intros T; nia.
    + destruct (Z.even q) eqn:Ev.
      * split; intros T; nia.
      * assert (Nq : q <> 0) by (intros Zq; rewrite Zq in Ev; discriminate Ev).
        split; intros T; nia.
Qed.

Lemma at_least_pow2_shift (num den j t : Z) :
  0 < den -> 0 < num -> Z.abs j <= t ->
  (at_least_pow2 num den j <-> den * 2 ^ (t + j) <= num * 2 ^ t).
Proof.
  intros Hd Hn Ht. unfold at_least_pow2.
  destruct (Z.le_gt_cases 0 j) as [J|J].
  - rewrite (Z.max_l j 0), (Z.max_r (- j) 0) by lia.
    rewrite Z.pow_0_r, Z.pow_add_r by lia.
    assert (P : 0 < 2 ^ t) by (apply Z.pow_pos_nonneg; lia).
    split; intros H; nia.
  - rewrite (Z.max_r j 0), (Z.max_l (- j) 0) by lia.
    rewrite Z.pow_0_r.
    replace t with ((t + j) + (- j)) at 2 by lia.
    rewrite (Z.pow_add_r 2 (t + j) (- j)) by lia.
    assert (P : 0 < 2 ^ (t + j)) by (apply Z.pow_pos_nonneg; lia).
    split; intros H; nia.
Qed.

Lemma at_least_pow2_le (num den j j' : Z) :
  0 < den -> 0 < num -> j' <= j ->
  at_least_pow2 num den j -> at_least_pow2 num den j'.
Proof.
  intros Hd Hn Hj H.
  set (t := Z.abs j + Z.abs j').
  apply (at_least_pow2_shift num den j t) in H; [|assumption|assumption|lia].
  apply (at_least_pow2_shift num den j' t); [assumption|assumption|lia|].
  assert (M : 2 ^ (t + j') <= 2 ^ (t + j))
    by (apply Z.pow_le_mono_r; lia).
  nia.
Qed.

Lemma at_least_pow2_log2 (num den : Z) :
  0 < den -> 0 < num ->
  at_least_pow2 num den (Z.log2 num - Z.log2 den - 1).
Proof.
  intros Hd Hn.
  pose proof (Z.log2_spec num Hn) as [N0 _].
  pose proof (Z.log2_spec den Hd) as [_ D1].
  pose proof (Z.log2_nonneg num) as Ln.
  pose proof (Z.log2_nonneg den) as Ld.
  set (ln := Z.log2 num) in *. set (ld := Z.log2 den) in *.
  set (t := Z.abs (ln - ld - 1) + ld + 1).
  apply (at_least_pow2_shift num den (ln - ld - 1) t);
    [assumption | assumption | lia |].
  assert (E : 2 ^ (t + ln) = 2 ^ (Z.succ ld) * 2 ^ (t + (ln - ld - 1))).
  { rewrite <- Z.pow_add_r by lia. f_equal. lia. }
  assert (P : 0 < 2 ^ (t + (ln - ld - 1)))
    by (apply Z.pow_pos_nonneg; lia).
  assert (T : 2 ^ (t + ln) = 2 ^ ln * 2 ^ t).
  { rewrite <- Z.pow_add_r by lia. f_equal. lia. }
  assert (Pt : 0 < 2 ^ t) by (apply Z.pow_pos_nonneg; lia).
  nia.
Qed.

(** A positive rational is rounded to zero exactly when it is at most
    [2^-1075], half of the least positive Number. *)
Lemma round_binary64_zero (num den : Z) :
  0 < num -> 0 < den ->
  (round_binary64 num den = Zero <-> num * 2 ^ 1075 <= den).
Proof.
  intros Hn Hd. unfold round_binary64.
  destruct (Z.leb_spec num 0) as [L|_]; [lia|].
  set (k := Z.log2 num - Z.log2 den).
  set (b := if den * 2 ^ Z.max k 0 <=? num * 2 ^ Z.max (- k) 0
            then k else k - 1).
  assert (Hb : at_least_pow2 num den b).
  { unfold b.
    destruct (Z.leb_spec (den * 2 ^ Z.max k 0) (num * 2 ^ Z.max (- k) 0))
      as [T|T]; [exact T|].
    apply at_least_pow2_log2; assumption. }
  set (x := Z.max (b - 52) (-1074)).
  set (A := num * 2 ^ Z.max (- x) 0).
  set (B := den * 2 ^ Z.max x 0).
  assert (PA : 0 < A).
  { unfold A. apply Z.mul_pos_pos; [assumption|].
    apply Z.pow_pos_nonneg; lia. }
  assert (PB : 0 < B).
  { unfold B. apply Z.mul_pos_pos; [assumption|].
    apply Z.pow_pos_nonneg; lia. }
  assert (Q : div_half_even A B = 0 <-> 2 * A <= B)
    by (apply div_half_even_zero; lia).
  assert (K : 2 * A <= B <-> num * 2 ^ 1075 <= den).
  { destruct (Z.le_gt_cases (b - 52) (-1074)) as [S|S].
    - assert (Ex : x = -1074) by (unfold x; lia).
      unfold A, B. rewrite Ex.
      change (Z.max (- -1074) 0) with 1074. change (Z.max (-1074) 0) with 0.
      change (2 ^ 1075) with (2 * 2 ^ 1074). rewrite Z.pow_0_r. lia.
    - assert (Ex : x = b - 52) by (unfold x; lia).
      assert (Hx : at_least_pow2 num den x)
        by (apply (at_least_pow2_le num den b x); [| |lia|]; assumption).
      assert (H1 : at_least_pow2 num den (-1021))
        by (apply (at_least_pow2_le num den b (-1021)); [| |lia|];
            assumption).
      unfold at_least_pow2 in Hx, H1. fold A in Hx. fold B in Hx.
      change (Z.max (-1021) 0) with 0 in H1.
      change (Z.max (- -1021) 0) with 1021 in H1.
      rewrite Z.pow_0_r in H1.
      assert (G : 2 ^ 1021 < 2 ^ 1075) by (apply Z.pow_lt_mono_r; lia).
      split; intros H; nia. }
  destruct (Z.eqb_spec (div_half_even A B) (2 ^ 53)) as [E53|N53].
  - change (2 ^ 52 =? 0) with false. cbv iota.
    assert (N0 : div_half_even A B <> 0).
    { rewrite E53. apply Z.pow_nonzero; lia. }
    split.
    + destruct (971 <? x + 1); discriminate.
    + intros H. apply K in H. apply Q in H. contradiction.
  - destruct (Z.eqb_spec (div_half_even A B) 0) as [E0|N0].
    + split; [intros _; apply K, Q, E0 | reflexivity].
    + split.
      * destruct (971 <? x); discriminate.
      * intros H. apply K in H. apply Q in H. contradiction.
Qed.

(** The two readings of a literal agree: [number_is_zero] holds exactly
    of the literals whose Number is a zero, which are written [0]. *)
Lemma number_is_zero_number_of (lx : jstring) :
  number_is_zero lx = true <-> number_of lx = Zero.
Proof.
  unfold number_is_zero, number_of.
  destruct (number_parts lx) as [m e]. unfold round_decimal.
  destruct (N.eqb_spec m 0) as [M|M].
  - subst m. cbn [orb Z.of_N]. split; [intros _|reflexivity].
    destruct (0 <=? e); reflexivity.
  - cbn [orb].
    assert (Pm : 0 < Z.of_N m) by lia.
    destruct (Z.leb_spec 0 e) as [E|E].
    + destruct (Z.ltb_spec e 0) as [E'|_]; [lia|]. cbn [andb].
      split; [discriminate|].
      intros H.
      assert (P : 0 < 10 ^ e) by (apply Z.pow_pos_nonneg; lia).
      assert (P2 : 1 < 2 ^ 1075) by (apply Z.pow_gt_1; lia).
      assert (Pn : 0 < Z.of_N m * 10 ^ e) by nia.
      apply (round_binary64_zero _ 1 Pn) in H; [nia | lia].
    + destruct (Z.ltb_spec e 0) as [_|E']; [|lia]. cbn [andb].
      assert (P : 0 < 10 ^ (- e)) by (apply Z.pow_pos_nonneg; lia).
      rewrite (round_binary64_zero (Z.of_N m) (10 ^ (- e)) Pm P).
      rewrite N.leb_le.
      rewrite N2Z.inj_le, N2Z.inj_mul, !N2Z.inj_pow, Z2N.id by lia.
      reflexivity.
Qed.

Lemma number_text_zero (lx : jstring) :
  number_is_zero lx = true -> number_text lx = [48%N].
Proof.
  intros H. apply number_is_zero_number_of in H.
  unfold number_text. rewrite H. reflexivity.
Qed.

End Numbers.

(* ----------------------------------------------------------------- *)
(** *** What the printer writes for numbers and keys *)

(** A Number is written as its shortest literal, whatever literal it was
    read from; the two zeros are written alike, and a literal too large
    for a finite Number is written as [null]. *)
Example number_text_shortest :
  List.map (fun s => number_text (Str.lit s))
           [ "1.0"; "-0"; "0.00"; "1e21"; "1e999"; "12e-1"; "0.1";
             "123456789012345678"; "5e-324"; "-2.50E+3"; "1e-7";
             "0.000001" ]%string
  = List.map Str.lit
           [ "1"; "0"; "0"; "1e+21"; "null"; "1.2"; "0.1";
             "123456789012345680"; "5e-324"; "-2500"; "1e-7";
             "0.000001" ]%string.
Proof. vm_compute. reflexivity. Qed.

(** What was read is written back with every Number in its shortest
    form. *)
Example stringify_after_parse :
  option_map JSON.stringify
             (JSON.parse (Str.lit "[1.0, 1e21, -0, 1e999, [0.5e1, true]]"))
  = Some (Str.lit "[1,1e+21,0,null,[5,true]]").
Proof. vm_compute. reflexivity. Qed.

(** The members of an object are written with the array indices first,
    in ascending order, and the other keys in the order of their
    creation. *)
Example own_property_order_indices_first :
  List.map fst
    (own_property_order
       [ (Str.lit "b", 1%nat); (Str.lit "10", 2%nat); (Str.lit "a", 3%nat);
         (Str.lit "9", 4%nat); (Str.lit "07", 5%nat);
         (Str.lit "4294967295", 6%nat); (Str.lit "0", 7%nat) ])
  = List.map Str.lit [ "0"; "9"; "10"; "b"; "a"; "07"; "4294967295" ]%string.
Proof. vm_compute. reflexivity. Qed.

(* ================================================================= *)
(** ** Strings *)

Lemma eqb_eq (a b : jstring) : Str.eqb a b = true <-> a = b.
Proof.
  revert b; induction a as [|x a IH]; intros [|y b]; simpl;
    try (split; [discriminate | discriminate]); try tauto.
  rewrite andb_true_iff, N.eqb_eq, IH.
  split; [intros [-> ->]; reflexivity | intros E; inversion E; auto].
Qed.

Lemma eqb_refl (a : jstring) : Str.eqb a a = true.
Proof. apply eqb_eq; reflexivity. Qed.

Lemma eqb_neq (a b : jstring) : Str.eqb a b = false <-> a <> b.
Proof.
  rewrite <- eqb_eq. destruct (Str.eqb a b); split; congruence.
Qed.

(* ================================================================= *)
(** ** The methods, step by step *)

Lemma saveDialogues_eq (st : state) :
  saveDialogues st =
  (Ok tt,
   match write_error st (JSON.stringify (dialogues st)) with
   | None => with_stored (JSON.stringify (dialogues st)) st
   | Some e => logged SaveFailed e st
   end).
Proof.
  unfold saveDialogues, try_catch, bind, this_dialogues, setItem,
    write_error, console_error.
  destruct (enabled st); [|reflexivity].
  destruct (List.length _ <=? capacity st); reflexivity.
Qed.

Lemma saveDialogues_ok (st : state) :
  saveDialogues st = (Ok tt, snd (saveDialogues st)).
Proof. rewrite saveDialogues_eq. reflexivity. Qed.

Lemma saveDialogues_dialogues (st : state) :
  dialogues (snd (saveDialogues st)) = dialogues st.
Proof.
  rewrite saveDialogues_eq; simpl.
  destruct (write_error _ _); reflexivity.
Qed.

Lemma saveDialogues_stored (st : state) :
  stored (snd (saveDialogues st)) = saved st (dialogues st).
Proof.
  rewrite saveDialogues_eq; unfold saved, write_error; simpl.
  destruct (enabled st); [|reflexivity].
  destruct (List.length _ <=? capacity st); reflexivity.
Qed.

Lemma saveDialogues_messages (st : state) :
  messages (snd (saveDialogues st)) = messages st.
Proof.
  rewrite saveDialogues_eq; simpl.
  destruct (write_error _ _); reflexivity.
Qed.

Lemma renderDialogues_state (st : state) : snd (renderDialogues st) = st.
Proof.
  unfold renderDialogues, bind, this_dialogues, lift, ret.
  destruct (length_is_zero (dialogues st)) as [[|]|]; try reflexivity.
  destruct (as_array (dialogues st)); try reflexivity.
  destruct (mapR renders a); reflexivity.
Qed.

Lemma renderDialogues_eq (st : state) :
  renderDialogues st = (fst (renderDialogues st), st).
Proof.
  rewrite <- (renderDialogues_state st) at 3.
  destruct (renderDialogues st); reflexivity.
Qed.

Lemma mapR_renders (l : list jsval) :
  Forall presentable l -> exists us, mapR renders l = Ok us.
Proof.
  induction 1 as [|d l Hd _ [us IH]]; simpl.
  - eexists; reflexivity.
  - rewrite Hd; simpl. rewrite IH; simpl. eexists; reflexivity.
Qed.

Lemma renderDialogues_ok (st : state) (l : list jsval) :
  dialogues st = JArr l -> Forall presentable l ->
  renderDialogues st = (Ok tt, st).
Proof.
  intros Hd Hl.
  unfold renderDialogues, bind, this_dialogues, lift, ret; rewrite Hd.
  destruct l as [|d l']; simpl; [reflexivity|].
  destruct (mapR_renders _ Hl) as [us E]. simpl in E. rewrite E. reflexivity.
Qed.

Lemma presentable_to_json (r : Turn.t) : presentable (to_json r).
Proof. reflexivity. Qed.

Lemma presentable_not_null (d : jsval) : presentable d -> d <> JNull.
Proof. intros H ->; discriminate H. Qed.

Lemma addDialogue_rejected now stamp role text think (st : state) :
  Str.trim text = [] ->
  addDialogue now stamp role text think st
  = (Ok false, notified EnterDialogue error st).
Proof.
  intros E. unfold addDialogue. rewrite E. reflexivity.
Qed.

Lemma addDialogue_accepted now stamp role text think (st : state) l :
  Str.trim text <> [] -> dialogues st = JArr l ->
  let st' := pushed (newDialogue now stamp role text think) l st in
  addDialogue now stamp role text think st
  = match fst (renderDialogues st') with
    | Ok _ => (Ok true, notified AddOk success st')
    | Throw e => (Throw e, st')
    end.
Proof.
  intros E Hd st'. unfold addDialogue.
  destruct (Str.trim text) as [|c t] eqn:Et; [congruence|].
  unfold bind at 1. unfold this_dialogues at 1. rewrite Hd.
  unfold bind at 1, lift at 1; simpl as_array.
  unfold bind at 1, set_dialogues at 1.
  unfold bind at 1.
  assert (Hs : saveDialogues
            (with_dialogues
               (JArr (l ++ [JObj
                  [(k_id, JStr (Str.toString now)); (k_role, JStr role);
                   (k_dialogue, JStr (c :: t));
                   (k_think, JStr (if Str.eqb role responder
                                   then Str.trim think else []));
                   (k_timestamp, JStr stamp)]])) st)
            = (Ok tt, st')).
  { unfold st', pushed, newDialogue, to_json; simpl. rewrite Et.
    rewrite saveDialogues_eq. reflexivity. }
  rewrite Hs. unfold bind at 1. rewrite (renderDialogues_eq st').
  destruct (fst (renderDialogues st')) as [[]|e]; reflexivity.
Qed.

Lemma pushed_dialogues r l st :
  dialogues (pushed r l st) = JArr (l ++ [to_json r]).
Proof. unfold pushed. rewrite saveDialogues_dialogues. reflexivity. Qed.

Lemma pushed_stored r l st :
  stored (pushed r l st) = saved st (JArr (l ++ [to_json r])).
Proof. unfold pushed. rewrite saveDialogues_stored. reflexivity. Qed.

Lemma Forall_presentable_snoc l r :
  Forall presentable l -> Forall presentable (l ++ [to_json r]).
Proof.
  intros H. apply Forall_app; split; [assumption|].
  constructor; [apply presentable_to_json | constructor].
Qed.

Lemma addDialogue_rejected_dialogues now stamp role text think st :
  Str.trim text = [] ->
  dialogues (snd (addDialogue now stamp role text think st)) = dialogues st.
Proof.
  intros E. rewrite addDialogue_rejected by assumption. reflexivity.
Qed.

Lemma addDialogue_accepted_dialogues now stamp role text think st l :
  Str.trim text <> [] -> dialogues st = JArr l ->
  dialogues (snd (addDialogue now stamp role text think st))
  = JArr (l ++ [to_json (newDialogue now stamp role text think)]).
Proof.
  intros E Hd.
  rewrite (addDialogue_accepted now stamp role text think st l E Hd).
  destruct (fst (renderDialogues _)); simpl; apply pushed_dialogues.
Qed.

Lemma write_error_with_dialogues (v : jsval) (st : state) (text : jstring) :
  write_error (with_dialogues v st) text = write_error st text.
Proof. reflexivity. Qed.

(** What the save after a change of the sequence to [v] leaves. *)
Lemma saved_state (v : jsval) (st : state) :
  snd (saveDialogues (with_dialogues v st))
  = match write_error st (JSON.stringify v) with
    | None => with_stored (JSON.stringify v) (with_dialogues v st)
    | Some e => logged SaveFailed e (with_dialogues v st)
    end.
Proof. rewrite saveDialogues_eq. reflexivity. Qed.

Lemma saved_state_written (v : jsval) (st : state) :
  write_error st (JSON.stringify v) = None ->
  stored (snd (saveDialogues (with_dialogues v st)))
  = Some (JSON.stringify v)
  /\ console (snd (saveDialogues (with_dialogues v st))) = console st.
Proof. intros H. rewrite saved_state, H. split; reflexivity. Qed.

Lemma saved_state_refused (v : jsval) (st : state) (e : exn) :
  write_error st (JSON.stringify v) = Some e ->
  stored (snd (saveDialogues (with_dialogues v st))) = stored st
  /\ console (snd (saveDialogues (with_dialogues v st)))
     = console st ++ [(SaveFailed, e)].
Proof. intros H. rewrite saved_state, H. split; reflexivity. Qed.

Lemma records_of (l : list jsval) :
  Forall is_record l -> exists rs, l = List.map to_json rs.
Proof.
  induction 1 as [|d l [r ->] _ [rs ->]].
  - exists []. reflexivity.
  - exists (r :: rs). reflexivity.
Qed.

(** The text of a sequence of records is read back as that sequence. *)
Lemma parse_stringify_store (l : list jsval) :
  Forall is_record l ->
  JSON.parse (JSON.stringify (JArr l)) = Some (JArr l).
Proof.
  intros H. destruct (records_of l H) as [rs ->].
  apply (parse_stringify_records 0).
Qed.

Lemma is_record_snoc (l : list jsval) (r : Turn.t) :
  Forall is_record l -> Forall is_record (l ++ [to_json r]).
Proof.
  intros H. apply Forall_app. split; [assumption|].
  constructor; [exists r; reflexivity | constructor].
Qed.

(** C10, as the code has it. [addDialogue] with a dialogue text that is
    empty after trimming returns [false], asks for a dialogue in an error
    notice and changes neither the sequence nor the storage; otherwise it
    puts a new record with the trimmed dialogue at the end of the
    sequence and saves the store (and returns [true] when the page can be
    rendered). The save persists the store only when storage accepts the
    write: the item then holds the text of the new sequence, which for a
    store of records is read back as that sequence; when storage refuses
    the write the item stays as it was and the refusal is only logged. *)
Theorem addDialogue_appends_or_rejects
    (now : Z) (localeString role dialogueText thinkText : jstring)
    (st : state) :
  let out := addDialogue now localeString role dialogueText thinkText st in
  (Str.trim dialogueText = [] ->
     fst out = Ok false
     /\ dialogues (snd out) = dialogues st
     /\ stored (snd out) = stored st
     /\ messages (snd out) = messages st ++ [(EnterDialogue, error)])
  /\
  (Str.trim dialogueText <> [] ->
   forall l, dialogues st = JArr l ->
     let r := newDialogue now localeString role dialogueText thinkText in
     let text := JSON.stringify (JArr (l ++ [to_json r])) in
     dialogues (snd out) = JArr (l ++ [to_json r])
     /\ Turn.dialogue r = Str.trim dialogueText
     /\ (write_error st text = None ->
         stored (snd out) = Some text /\ console (snd out) = console st)
     /\ (forall e, write_error st text = Some e ->
         stored (snd out) = stored st
         /\ console (snd out) = console st ++ [(SaveFailed, e)])
     /\ (Forall is_record l ->
         JSON.parse text = Some (JArr (l ++ [to_json r])))
     /\ (Forall presentable l -> fst out = Ok true)).
Proof.
  intros out; split.
  - intros E. unfold out. rewrite addDialogue_rejected by assumption.
    repeat split.
  - intros E l Hd r text. unfold out.
    rewrite (addDialogue_accepted now localeString role dialogueText
               thinkText st l E Hd).
    fold r.
    assert (Hs : forall n k,
               stored (notified n k (pushed r l st)) = stored (pushed r l st)
               /\ console (notified n k (pushed r l st))
                  = console (pushed r l st))
      by (intros; split; reflexivity).
    assert (Hw : write_error st text = None ->
                 stored (pushed r l st) = Some text
                 /\ console (pushed r l st) = console st)
      by (apply saved_state_written).
    assert (Hf : forall e, write_error st text = Some e ->
                 stored (pushed r l st) = stored st
                 /\ console (pushed r l st) = console st ++ [(SaveFailed, e)])
      by (intros e; apply saved_state_refused).
    assert (Hp : Forall is_record l ->
                 JSON.parse text = Some (JArr (l ++ [to_json r]))).
    { intros Hl. apply parse_stringify_store. apply is_record_snoc.
      assumption. }
    destruct (fst (renderDialogues (pushed r l st))) as [u|e] eqn:Hr;
      cbn [fst snd].
    + split; [apply pushed_dialogues|]. split; [reflexivity|].
      split; [exact Hw|]. split; [exact Hf|]. split; [exact Hp|].
      reflexivity.
    + split; [apply pushed_dialogues|]. split; [reflexivity|].
      split; [exact Hw|]. split; [exact Hf|]. split; [exact Hp|].
      intros Hl. exfalso.
      rewrite (renderDialogues_ok (pushed r l st) (l ++ [to_json r])) in Hr.
      * discriminate Hr.
      * apply pushed_dialogues.
      * apply Forall_presentable_snoc; assumption.
Qed.

Lemma addDialogue_appends_or_rejects_witness :
  let st := fresh 1000 in
  let r := Turn.make (Str.lit "1700000000000") questioner
                     (Str.lit "What is 2+2?") []
                     (Str.lit "2024/5/1 10:00:00") in
  let out1 := addDialogue 1700000000000 (Str.lit "2024/5/1 10:00:00")
                questioner (Str.lit "   ") [] st in
  let out2 := addDialogue 1700000000000 (Str.lit "2024/5/1 10:00:00")
                questioner (Str.lit " What is 2+2? ") [] st in
  (fst out1 = Ok false /\ dialogues (snd out1) = JArr [])
  /\ (dialogues (snd out2) = JArr [to_json r]
      /\ fst out2 = Ok true
      /\ stored (snd out2) = Some (JSON.stringify (JArr [to_json r]))
      /\ JSON.parse (JSON.stringify (JArr [to_json r]))
         = Some (JArr [to_json r])).
Proof.
  intros st r out1 out2. split.
  - destruct (addDialogue_appends_or_rejects 1700000000000
                (Str.lit "2024/5/1 10:00:00") questioner (Str.lit "   ") []
                st) as [H _].
    destruct (H eq_refl) as (H1 & H2 & _ & _). split; [exact H1 | exact H2].
  - destruct (addDialogue_appends_or_rejects 1700000000000
                (Str.lit "2024/5/1 10:00:00") questioner
                (Str.lit " What is 2+2? ") [] st) as [_ H].
    assert (E : Str.trim (Str.lit " What is 2+2? ") <> [])
      by (vm_compute; discriminate).
    destruct (H E [] eq_refl) as (H1 & _ & H2 & _ & H3 & H4).
    split; [exact H1|]. split; [apply H4; constructor|].
    split; [apply H2; vm_compute; reflexivity | apply H3; constructor].
Defined.

(** C10, as stated, fails: a call with a dialogue is accepted and the
    record is in the sequence, yet the store is not persisted; storage
    has no room for the new text and keeps the text of the empty
    sequence, and the next manager constructed on it starts without the
    record. *)
Lemma accepted_append_not_persisted :
  let st := mkState (JArr []) (Some (Str.lit "[]")) true 10 [] [] in
  let r := Turn.make (Str.lit "1700000000000") questioner (Str.lit "hello")
                     [] (Str.lit "2024/5/1 10:00:00") in
  let out := addDialogue 1700000000000 (Str.lit "2024/5/1 10:00:00")
               questioner (Str.lit "hello") [] st in
  Str.trim (Str.lit "hello") <> []
  /\ fst out = Ok true
  /\ dialogues (snd out) = JArr [to_json r]
  /\ stored (snd out) = Some (Str.lit "[]")
  /\ stored (snd out) <> Some (JSON.stringify (dialogues (snd out)))
  /\ dialogues (snd (constructor (snd out))) = JArr [].
Proof.
  cbv zeta. split; [vm_compute; discriminate|].
  split; [vm_compute; reflexivity|].
  split; [vm_compute; reflexivity|].
  split; [vm_compute; reflexivity|].
  split; [vm_compute; discriminate | vm_compute; reflexivity].
Qed.

(** C9. The record stored by [addDialogue] has an empty reasoning unless
    the role is ['responder'], in which case the reasoning is the trimmed
    reasoning text; in particular a questioner's reasoning text is
    dropped. *)
Theorem addDialogue_reasoning
    (now : Z) (localeString role dialogueText thinkText : jstring)
    (st : state) (l : list jsval) :
  Str.trim dialogueText <> [] -> dialogues st = JArr l ->
  exists r : Turn.t,
    dialogues (snd (addDialogue now localeString role dialogueText
                      thinkText st)) = JArr (l ++ [to_json r])
    /\ Turn.role r = role
    /\ (role = responder -> Turn.think r = Str.trim thinkText)
    /\ (role <> responder -> Turn.think r = [])
    /\ (role = questioner -> Turn.think r = []).
Proof.
  intros E Hd.
  exists (newDialogue now localeString role dialogueText thinkText).
  split; [apply addDialogue_accepted_dialogues; assumption|].
  unfold newDialogue; simpl. split; [reflexivity|].
  repeat split.
  - intros ->. reflexivity.
  - intros N. apply eqb_neq in N. rewrite N. reflexivity.
  - intros ->. reflexivity.
Qed.

Lemma addDialogue_reasoning_witness :
  exists r : Turn.t,
    dialogues (snd (addDialogue 1700000000000 (Str.lit "2024/5/1 10:00:00")
                      questioner (Str.lit "What is 2+2?")
                      (Str.lit "my private reasoning") (fresh 1000)))
    = JArr ([] ++ [to_json r])
    /\ Turn.think r = [].
Proof.
  destruct (addDialogue_reasoning 1700000000000
              (Str.lit "2024/5/1 10:00:00") questioner
              (Str.lit "What is 2+2?") (Str.lit "my private reasoning")
              (fresh 1000) [])
    as (r & H1 & _ & _ & _ & H5).
  - vm_compute; discriminate.
  - reflexivity.
  - exists r. split; [exact H1 | apply H5; reflexivity].
Defined.

(* ----------------------------------------------------------------- *)
(** *** Saving *)

Lemma skipn_all_app {A : Type} (l m : list A) :
  skipn (List.length l) (l ++ m) = m.
Proof. induction l as [|x l IH]; [reflexivity | exact IH]. Qed.

Lemma not_signals_same_messages {A : Type} (st st' : state) (a : A) :
  messages st' = messages st -> ~ signals st (Ok a, st').
Proof.
  intros E [[e He] | (n & k & Hin & _)]; [discriminate He|].
  simpl in Hin. rewrite E in Hin.
  rewrite <- (app_nil_r (messages st)) in Hin at 2.
  rewrite skipn_all_app in Hin. destruct Hin.
Qed.

Lemma not_signals_success {A : Type} (st st' : state) (a : A) (n : notice) :
  messages st' = messages st ++ [(n, success)] -> ~ signals st (Ok a, st').
Proof.
  intros E [[e He] | (m & k & Hin & Hk)]; [discriminate He|].
  simpl in Hin. rewrite E, skipn_all_app in Hin.
  destruct Hin as [[= _ <-] | []]. apply Hk. reflexivity.
Qed.

Lemma addDialogue_when_save_fails now stamp role text think st l e :
  Str.trim text <> [] -> dialogues st = JArr l -> Forall presentable l ->
  let r := newDialogue now stamp role text think in
  write_error (with_dialogues (JArr (l ++ [to_json r])) st)
              (JSON.stringify (JArr (l ++ [to_json r]))) = Some e ->
  addDialogue now stamp role text think st
  = (Ok true,
     notified AddOk success
       (logged SaveFailed e (with_dialogues (JArr (l ++ [to_json r])) st))).
Proof.
  intros E Hd Hl r Hw.
  rewrite (addDialogue_accepted now stamp role text think st l E Hd).
  fold r. unfold pushed. rewrite saveDialogues_eq.
  change (dialogues (with_dialogues (JArr (l ++ [to_json r])) st))
    with (JArr (l ++ [to_json r])).
  rewrite Hw. simpl snd.
  rewrite (renderDialogues_ok _ (l ++ [to_json r]));
    [reflexivity | reflexivity | apply Forall_presentable_snoc; assumption].
Qed.

(** C5, as the code has it. [saveDialogues] always returns normally,
    keeps the sequence in memory and tells its caller nothing; a failed
    write is caught and only logged on the console. So an append whose
    save fails still returns [true] and shows the notice of success. *)
Theorem saveDialogues_failure_is_logged (st : state) :
  fst (saveDialogues st) = Ok tt
  /\ dialogues (snd (saveDialogues st)) = dialogues st
  /\ ~ signals st (saveDialogues st)
  /\ (forall e : exn,
        write_error st (JSON.stringify (dialogues st)) = Some e ->
        snd (saveDialogues st) = logged SaveFailed e st)
  /\ (forall now localeString role dialogueText thinkText l e,
        Str.trim dialogueText <> [] ->
        dialogues st = JArr l -> Forall presentable l ->
        let r := newDialogue now localeString role dialogueText thinkText in
        write_error (with_dialogues (JArr (l ++ [to_json r])) st)
                    (JSON.stringify (JArr (l ++ [to_json r]))) = Some e ->
        let out := addDialogue now localeString role dialogueText thinkText
                     st in
        fst out = Ok true
        /\ dialogues (snd out) = JArr (l ++ [to_json r])
        /\ stored (snd out) = stored st
        /\ console (snd out) = console st ++ [(SaveFailed, e)]
        /\ ~ signals st out).
Proof.
  split; [rewrite saveDialogues_eq; reflexivity|].
  split; [apply saveDialogues_dialogues|].
  split.
  { rewrite saveDialogues_ok. apply not_signals_same_messages.
    apply saveDialogues_messages. }
  split.
  { intros e He. rewrite saveDialogues_eq, He. reflexivity. }
  intros now localeString role dialogueText thinkText l e E Hd Hl r Hw out.
  unfold out.
  rewrite (addDialogue_when_save_fails now localeString role dialogueText
             thinkText st l e E Hd Hl Hw).
  fold r. repeat split.
  apply (not_signals_success st _ true AddOk). reflexivity.
Qed.

Lemma saveDialogues_failure_is_logged_witness :
  let r := Turn.make (Str.lit "1700000000000") questioner (Str.lit "hello")
                     [] (Str.lit "2024/5/1 10:00:00") in
  let out := addDialogue 1700000000000 (Str.lit "2024/5/1 10:00:00")
               questioner (Str.lit "hello") [] (fresh 0) in
  fst out = Ok true
  /\ dialogues (snd out) = JArr [to_json r]
  /\ stored (snd out) = None
  /\ console (snd out) = [(SaveFailed, QuotaExceededError)]
  /\ ~ signals (fresh 0) out.
Proof.
  intros r out.
  destruct (saveDialogues_failure_is_logged (fresh 0)) as (_ & _ & _ & _ & H).
  apply (H 1700000000000%Z (Str.lit "2024/5/1 10:00:00") questioner
           (Str.lit "hello") [] [] QuotaExceededError).
  - vm_compute. discriminate.
  - reflexivity.
  - constructor.
  - vm_compute. reflexivity.
Defined.

(** C5, as stated, fails: with no room left in storage an append goes
    through, the failed save is only written to the console, and the
    caller gets [true] and the notice of success, nothing else. *)
Lemma persist_failure_not_reported :
  let st := fresh 0 in
  let r := Turn.make (Str.lit "1700000000000") questioner (Str.lit "hello")
                     [] (Str.lit "2024/5/1 10:00:00") in
  let out := addDialogue 1700000000000 (Str.lit "2024/5/1 10:00:00")
               questioner (Str.lit "hello") [] st in
  write_error (with_dialogues (JArr [to_json r]) st)
              (JSON.stringify (JArr [to_json r]))
  = Some QuotaExceededError
  /\ out = (Ok true,
            mkState (JArr [to_json r]) None true 0
                    [(SaveFailed, QuotaExceededError)] [(AddOk, success)])
  /\ ~ signals st out.
Proof.
  intros st r out.
  assert (E : out = (Ok true,
                     mkState (JArr [to_json r]) None true 0
                       [(SaveFailed, QuotaExceededError)] [(AddOk, success)]))
    by (vm_compute; reflexivity).
  split; [vm_compute; reflexivity|]. split; [exact E|].
  rewrite E. apply (not_signals_success st _ true AddOk). reflexivity.
Qed.

(* ----------------------------------------------------------------- *)
(** *** Deleting *)

Lemma same_string_id_of (d : jsval) (id : jstring) :
  same_string (get d k_id) id = true <-> id_of d = Some id.
Proof.
  unfold same_string, id_of.
  destruct (get d k_id) as [[| | |s| |]|]; try (split; discriminate).
  rewrite eqb_eq. split; [intros ->; reflexivity | intros [= ->]; reflexivity].
Qed.

Lemma filterR_field (id : jstring) (l : list jsval) :
  Forall (fun d => d <> JNull) l ->
  filterR (fun dialogue =>
             rbind (field dialogue k_id) (fun x =>
               Ok (negb (same_string x id)))) l
  = Ok (filter (fun d => negb (same_string (get d k_id) id)) l).
Proof.
  induction 1 as [|d l Hd _ IH]; simpl; [reflexivity|].
  rewrite IH. destruct d; try contradiction; reflexivity.
Qed.

Lemma Forall_not_null (l : list jsval) :
  Forall presentable l -> Forall (fun d => d <> JNull) l.
Proof.
  intros H; eapply Forall_impl; [|exact H].
  intros d; apply presentable_not_null.
Qed.

Lemma Forall_filter {A : Type} (P : A -> Prop) (f : A -> bool) (l : list A) :
  Forall P l -> Forall P (filter f l).
Proof.
  induction 1 as [|x l Hx _ IH]; simpl; [constructor|].
  destruct (f x); [constructor|]; assumption.
Qed.

Lemma filter_all {A : Type} (f : A -> bool) (l : list A) :
  (forall x, In x l -> f x = true) -> filter f l = l.
Proof.
  induction l as [|x l IH]; simpl; intros H; [reflexivity|].
  rewrite (H x) by (left; reflexivity).
  rewrite IH; [reflexivity|]. intros y Hy; apply H; right; assumption.
Qed.

Lemma deleteDialogue_eq (id : jstring) (st : state) (l : list jsval) :
  dialogues st = JArr l -> Forall presentable l ->
  deleteDialogue true id st
  = (Ok tt,
     notified DeleteOk success
       (snd (saveDialogues
          (with_dialogues
             (JArr (filter (fun d => negb (same_string (get d k_id) id)) l))
             st)))).
Proof.
  intros Hd Hl. unfold deleteDialogue.
  unfold bind at 1, this_dialogues at 1. rewrite Hd.
  unfold bind at 1, lift at 1; simpl as_array.
  unfold bind at 1, lift at 1.
  rewrite (filterR_field id l (Forall_not_null l Hl)).
  unfold bind at 1, set_dialogues at 1.
  set (st1 := with_dialogues _ st).
  unfold bind at 1. rewrite (saveDialogues_ok st1) at 1.
  unfold bind at 1.
  rewrite (renderDialogues_ok (snd (saveDialogues st1))
             (filter (fun d => negb (same_string (get d k_id) id)) l)).
  - reflexivity.
  - rewrite saveDialogues_dialogues. reflexivity.
  - apply Forall_filter; assumption.
Qed.




(* ----------------------------------------------------------------- *)
(** *** Loading *)

Lemma loadDialogues_absent (st : state) :
  enabled st = true -> stored st = None ->
  loadDialogues st = (Ok (JArr []), st).
Proof.
  intros He Hs. unfold loadDialogues, try_catch, bind, getItem.
  rewrite He, Hs. reflexivity.
Qed.

Lemma loadDialogues_empty_text (st : state) :
  enabled st = true -> stored st = Some [] ->
  loadDialogues st = (Ok (JArr []), st).
Proof.
  intros He Hs. unfold loadDialogues, try_catch, bind, getItem.
  rewrite He, Hs. reflexivity.
Qed.

Lemma loadDialogues_unreadable (st : state) :
  enabled st = false ->
  loadDialogues st = (Ok (JArr []), logged LoadFailed SecurityError st).
Proof.
  intros He. unfold loadDialogues, try_catch, bind, getItem.
  rewrite He. reflexivity.
Qed.

Lemma loadDialogues_syntax_error (st : state) (c : N) (text : jstring) :
  enabled st = true -> stored st = Some (c :: text) ->
  JSON.parse (c :: text) = None ->
  loadDialogues st = (Ok (JArr []), logged LoadFailed SyntaxError st).
Proof.
  intros He Hs Hp. unfold loadDialogues, try_catch, bind, getItem, JSON_parse.
  rewrite He, Hs, Hp. reflexivity.
Qed.

Lemma loadDialogues_parsed (st : state) (c : N) (text : jstring) (v : jsval) :
  enabled st = true -> stored st = Some (c :: text) ->
  JSON.parse (c :: text) = Some v ->
  loadDialogues st = (Ok v, st).
Proof.
  intros He Hs Hp. unfold loadDialogues, try_catch, bind, getItem, JSON_parse.
  rewrite He, Hs, Hp. reflexivity.
Qed.

(** C6 at a snapshot that is JSON but not a sequence: [loadDialogues]
    hands the parsed object on as the list of dialogues, and the
    constructor then throws while rendering it. *)
Theorem loadDialogues_wrong_structure :
  let st := mkState (JArr []) (Some (Str.lit "{}")) true 1000 [] [] in
  loadDialogues st = (Ok (JObj []), st)
  /\ constructor st = (Throw TypeError, with_dialogues (JObj []) st).
Proof. split; reflexivity. Qed.

(* ----------------------------------------------------------------- *)
(** *** Importing *)

Lemma isValidItem_spec (item : jsval) :
  isValidItem item = true <-> structurally_valid item.
Proof.
  unfold isValidItem, structurally_valid. split.
  - rewrite !andb_true_iff. intros ((((_ & H1) & H2) & H3) & H4).
    destruct item as [| | | | |ms]; try discriminate H1.
    simpl in *. exists ms.
    destruct (lookup k_id ms) as [[| | |a| |]|]; try discriminate H1.
    destruct (lookup k_role ms) as [[| | |b| |]|]; try discriminate H2.
    destruct (lookup k_dialogue ms) as [[| | |c| |]|]; try discriminate H3.
    destruct (lookup k_timestamp ms) as [[| | |d| |]|]; try discriminate H4.
    exists a, b, c, d. repeat split.
  - intros (ms & a & b & c & d & -> & H1 & H2 & H3 & H4).
    simpl. rewrite H1, H2, H3, H4. reflexivity.
Qed.

Lemma forallb_isValidItem (items : list jsval) :
  forallb isValidItem items = true <-> Forall structurally_valid items.
Proof.
  rewrite forallb_forall, Forall_forall.
  split; intros H x Hx; apply isValidItem_spec, H, Hx.
Qed.

Lemma malformed_array (items : list jsval) :
  malformed (JArr items) -> forallb isValidItem items = false.
Proof.
  intros (item & Hin & Hbad). apply not_true_is_false.
  rewrite forallb_forall. intros H. apply Hbad, isValidItem_spec, H, Hin.
Qed.

Lemma onload_syntax_error (text : jstring) (st : state) :
  JSON.parse text = None ->
  onload text st
  = (Ok tt, notified (ImportError SyntaxError) error
              (logged ImportFailed SyntaxError st)).
Proof.
  intros Hp. unfold onload, try_catch, bind, JSON_parse. rewrite Hp.
  reflexivity.
Qed.

Lemma onload_malformed (text : jstring) (v : jsval) (st : state) :
  JSON.parse text = Some v -> malformed v ->
  exists m : error_text,
    onload text st
    = (Ok tt, notified (ImportError (Error m)) error
                (logged ImportFailed (Error m) st)).
Proof.
  intros Hp Hv. unfold onload, try_catch, bind at 1, JSON_parse. rewrite Hp.
  unfold ret at 1.
  destruct v as [| | | |items|]; try (exists BadFormat; reflexivity).
  rewrite (malformed_array items Hv). exists BadStructure. reflexivity.
Qed.

(** C3. A file whose text parses to something that is not a sequence, or
    to a sequence with a candidate that is not structurally valid, is
    rejected as a whole: the import ends normally with an error notice,
    and neither the sequence nor the storage changes. *)
Theorem import_rejects_malformed_batch
    (f : file) (text : jstring) (v : jsval) (st : state) :
  content f = Some text -> JSON.parse text = Some v -> malformed v ->
  let out := handleFileImport (Some f) st in
  fst out = Ok tt
  /\ dialogues (snd out) = dialogues st
  /\ stored (snd out) = stored st
  /\ exists n : notice, messages (snd out) = messages st ++ [(n, error)].
Proof.
  intros Hc Hp Hv out. unfold out, handleFileImport.
  destruct (negb (Str.eqb (type f) application_json)).
  - simpl. repeat split. eexists; reflexivity.
  - rewrite Hc. destruct (onload_malformed text v st Hp Hv) as [m ->].
    simpl. repeat split. eexists; reflexivity.
Qed.

Lemma import_rejects_malformed_batch_witness :
  let good (n : string) :=
    to_json (Turn.make (Str.lit n) questioner (Str.lit "hello") []
                       (Str.lit "2024/5/1 10:00:00")) in
  let bad := JObj [ (k_id, JStr (Str.lit "4")); (k_role, JStr questioner);
                    (k_timestamp, JStr (Str.lit "2024/5/1 10:00:00")) ] in
  let batch := JArr [good "1"%string; good "2"%string; good "3"%string; bad] in
  let st := with_dialogues (JArr [good "0"%string]) (fresh 1000) in
  let out := handleFileImport
               (Some (mkFile application_json (Some (JSON.stringify2 batch))))
               st in
  fst out = Ok tt
  /\ dialogues (snd out) = dialogues st
  /\ stored (snd out) = stored st
  /\ exists n : notice, messages (snd out) = messages st ++ [(n, error)].
Proof.
  intros good bad batch st.
  apply (import_rejects_malformed_batch
           (mkFile application_json (Some (JSON.stringify2 batch)))
           (JSON.stringify2 batch) batch st).
  - reflexivity.
  - vm_compute. reflexivity.
  - exists bad. split.
    + simpl. tauto.
    + intros (ms & a & b & c & d & E & _ & _ & Hd & _).
      injection E as <-. discriminate Hd.
Defined.

Lemma mapR_field_id (l : list jsval) :
  Forall (fun d => d <> JNull) l ->
  mapR (fun d => field d k_id) l = Ok (ids l).
Proof.
  induction 1 as [|d l Hd _ IH]; simpl; [reflexivity|].
  rewrite IH. destruct d; try contradiction; reflexivity.
Qed.

Lemma has_known (l : list jsval) (item : jsval) :
  has (ids l) (get item k_id) = known l item.
Proof.
  unfold has, known, id_of, ids.
  destruct (get item k_id) as [[| | |s| |]|]; try reflexivity.
  induction l as [|d l IH]; simpl; [reflexivity|].
  rewrite IH. f_equal.
  unfold same_string. destruct (get d k_id) as [[| | |t| |]|]; reflexivity.
Qed.

Lemma filter_ext_known (l items : list jsval) :
  filter (fun item => negb (has (ids l) (get item k_id))) items
  = filter (fun item => negb (known l item)) items.
Proof.
  apply filter_ext. intros item. rewrite has_known. reflexivity.
Qed.

(** The end of a successful import: save, render, report. *)
Lemma import_tail_dialogues (n : notice) (st : state) :
  dialogues
    (snd (try_catch
            (saveDialogues ;; renderDialogues ;; showMessage n success)
            (fun err =>
               console_error ImportFailed err ;;
               showMessage (ImportError err) error) st))
  = dialogues st.
Proof.
  unfold try_catch, bind at 1. rewrite (saveDialogues_ok st).
  unfold bind at 1. rewrite (renderDialogues_eq (snd (saveDialogues st))).
  destruct (fst (renderDialogues (snd (saveDialogues st)))) as [[]|e];
    simpl; apply saveDialogues_dialogues.
Qed.

Lemma onload_valid (text : jstring) (items l : list jsval) (st : state) :
  JSON.parse text = Some (JArr items) ->
  Forall structurally_valid items ->
  dialogues st = JArr l -> Forall (fun d => d <> JNull) l ->
  dialogues (snd (onload text st))
  = JArr (filter (fun item => negb (known l item)) items ++ l).
Proof.
  intros Hp Hv Hd Hl.
  apply forallb_isValidItem in Hv.
  unfold onload, try_catch.
  unfold bind at 1, JSON_parse. rewrite Hp. unfold ret at 1.
  rewrite Hv. cbn [negb]. cbv beta iota.
  unfold bind at 1, this_dialogues at 1. cbv beta iota. rewrite Hd.
  unfold bind at 1, lift at 1. cbn [as_array]. cbv beta iota.
  unfold bind at 1, lift at 1. rewrite (mapR_field_id l Hl).
  cbv beta iota.
  rewrite filter_ext_known.
  destruct (filter (fun item => negb (known l item)) items) as [|x xs] eqn:Ef.
  - simpl. assumption.
  - unfold bind at 1, set_dialogues at 1.
    set (st1 := with_dialogues (JArr ((x :: xs) ++ l)) st).
    pose proof (import_tail_dialogues (Imported (List.length (x :: xs))) st1)
      as T.
    unfold try_catch in T. exact T.
Qed.

(** C8. When the imported text parses to a sequence of structurally
    valid candidates, the store afterwards holds the candidates whose id
    no stored record has, in their order in the file, followed by the
    records it held before, in their order. *)
Theorem import_prepends_new_records
    (text : jstring) (items l : list jsval) (st : state) :
  JSON.parse text = Some (JArr items) ->
  Forall structurally_valid items ->
  dialogues st = JArr l -> Forall (fun d => d <> JNull) l ->
  let out := handleFileImport
               (Some (mkFile application_json (Some text))) st in
  let survivors := filter (fun item => negb (known l item)) items in
  dialogues (snd out) = JArr (survivors ++ l)
  /\ (forall item, In item survivors <->
                   In item items /\ known l item = false).
Proof.
  intros Hp Hv Hd Hl out survivors. split.
  - unfold out, handleFileImport. simpl.
    apply (onload_valid text items l st Hp Hv Hd Hl).
  - intros item. unfold survivors. rewrite filter_In, negb_true_iff.
    reflexivity.
Qed.

Lemma import_prepends_new_records_witness :
  let turn (n : string) :=
    to_json (Turn.make (Str.lit n) questioner (Str.lit "hello") []
                       (Str.lit "2024/5/1 10:00:00")) in
  let st := with_dialogues (JArr [turn "2"%string; turn "9"%string])
                           (fresh 1000) in
  let text := JSON.stringify2
                (JArr [turn "1"%string; turn "2"%string; turn "3"%string]) in
  dialogues (snd (handleFileImport
                    (Some (mkFile application_json (Some text))) st))
  = JArr [turn "1"%string; turn "3"%string; turn "2"%string; turn "9"%string].
Proof.
  intros turn st text.
  destruct (import_prepends_new_records text
              [turn "1"%string; turn "2"%string; turn "3"%string]
              [turn "2"%string; turn "9"%string] st)
    as [H _].
  - vm_compute. reflexivity.
  - repeat constructor; apply isValidItem_spec; reflexivity.
  - reflexivity.
  - repeat constructor; discriminate.
  - exact H.
Defined.

(* ----------------------------------------------------------------- *)
(** *** Ids *)

Lemma uint_units_inj (d d' : Decimal.uint) :
  Str.uint_units d = Str.uint_units d' -> d = d'.
Proof.
  revert d'; induction d; intros [] E; simpl in E;
    try discriminate E; try reflexivity;
    injection E as E; f_equal; apply IHd; assumption.
Qed.

Lemma uint_units_no_sign (d d' : Decimal.uint) :
  Str.uint_units d <> 45%N :: Str.uint_units d'.
Proof. destruct d; simpl; intros E; discriminate E. Qed.

Lemma toString_inj (m n : Z) : Str.toString m = Str.toString n -> m = n.
Proof.
  unfold Str.toString. intros E.
  rewrite <- (DecimalZ.of_to m), <- (DecimalZ.of_to n). f_equal.
  destruct (Z.to_int m) as [u|u], (Z.to_int n) as [u'|u']; simpl in E.
  - f_equal. apply uint_units_inj; assumption.
  - exfalso. apply (uint_units_no_sign u u'); assumption.
  - exfalso. apply (uint_units_no_sign u' u). symmetry; assumption.
  - f_equal. apply uint_units_inj. injection E as E; assumption.
Qed.

Lemma step_append (c : append_call) (st : state) (l : list jsval) :
  dialogues st = JArr l ->
  dialogues (step (Append (at_ms c) (at_locale c) (call_role c)
                          (call_text c) (call_think c)) st)
  = JArr (l ++ if accepted c then [to_json (added c)] else []).
Proof.
  intros Hd. simpl step.
  unfold accepted. destruct (Str.trim (call_text c)) as [|x t] eqn:Et.
  - rewrite addDialogue_rejected_dialogues by assumption.
    rewrite app_nil_r. assumption.
  - apply addDialogue_accepted_dialogues; [|assumption].
    rewrite Et. discriminate.
Qed.

Lemma run_appends (calls : list append_call) (st : state) (l : list jsval) :
  dialogues st = JArr l ->
  dialogues (run (appends calls) st)
  = JArr (l ++ List.map (fun c => to_json (added c)) (filter accepted calls)).
Proof.
  revert st l. induction calls as [|c calls IH]; intros st l Hd.
  - simpl. rewrite app_nil_r. assumption.
  - change (run (appends (c :: calls)) st)
      with (run (appends calls)
              (step (Append (at_ms c) (at_locale c) (call_role c)
                            (call_text c) (call_think c)) st)).
    rewrite (IH _ _ (step_append c st l Hd)). simpl filter.
    destruct (accepted c); simpl.
    + rewrite <- app_assoc. reflexivity.
    + rewrite app_nil_r. reflexivity.
Qed.

Lemma NoDup_filter {A : Type} (f : A -> bool) (g : A -> Z) (l : list A) :
  NoDup (List.map g l) -> NoDup (List.map g (filter f l)).
Proof.
  induction l as [|x l IH]; simpl; intros H; [constructor|].
  inversion H as [|y m Hnot Hrest]; subst.
  destruct (f x); simpl; [constructor|]; auto.
  intros Hin. apply Hnot.
  apply in_map_iff in Hin. destruct Hin as (z & Ez & Hz).
  apply filter_In in Hz. apply in_map_iff. exists z. tauto.
Qed.

(** C1, as the code has it. The id of a record is the decimal text of
    the clock reading of its call, so after any sequence of calls of
    [addDialogue] on a store without records, no two records share an id
    provided no two calls read the same millisecond. *)
Theorem appended_ids_unique (calls : list append_call) (st : state) :
  dialogues st = JArr [] ->
  NoDup (List.map at_ms calls) ->
  NoDup (ids (sequence (run (appends calls) st))).
Proof.
  intros Hd H. unfold sequence.
  rewrite (run_appends calls st [] Hd).
  cbv beta iota. unfold ids. rewrite app_nil_l, map_map.
  apply (NoDup_filter accepted) in H.
  induction (filter accepted calls) as [|c cs IH]; simpl; [constructor|].
  simpl in H. inversion H as [|x m Hnot Hrest]; subst.
  constructor; [|apply IH; assumption].
  intros Hin. apply Hnot.
  apply in_map_iff in Hin. destruct Hin as (c' & E & Hc').
  apply in_map_iff. exists c'. split; [|assumption].
  injection E as E. apply toString_inj. assumption.
Qed.

Lemma appended_ids_unique_witness :
  NoDup (ids (sequence (run
    (appends [ mkCall 1700000000000 (Str.lit "2024/5/1 10:00:00") questioner
                      (Str.lit "What is 2+2?") [];
               mkCall 1700000000001 (Str.lit "2024/5/1 10:00:00") responder
                      (Str.lit "4") (Str.lit "basic arithmetic") ])
    (fresh 1000)))).
Proof.
  apply appended_ids_unique; [reflexivity|]. simpl.
  constructor.
  - simpl. intros [E|[]]. discriminate E.
  - constructor; [intros [] | constructor].
Defined.

(** C1, as stated, fails: two calls within one millisecond give two
    records with the same id. *)
Lemma same_millisecond_same_id :
  let c1 := mkCall 1700000000000 (Str.lit "2024/5/1 10:00:00") questioner
                   (Str.lit "What is 2+2?") [] in
  let c2 := mkCall 1700000000000 (Str.lit "2024/5/1 10:00:00") responder
                   (Str.lit "4") (Str.lit "basic arithmetic") in
  accepted c1 = true /\ accepted c2 = true
  /\ ids (sequence (run (appends [c1; c2]) (fresh 1000)))
     = [Some (JStr (Str.lit "1700000000000"));
        Some (JStr (Str.lit "1700000000000"))]
  /\ ~ NoDup (ids (sequence (run (appends [c1; c2]) (fresh 1000)))).
Proof.
  intros c1 c2.
  assert (E : ids (sequence (run (appends [c1; c2]) (fresh 1000)))
              = [Some (JStr (Str.lit "1700000000000"));
                 Some (JStr (Str.lit "1700000000000"))])
    by (vm_compute; reflexivity).
  repeat split; try assumption; try (vm_compute; reflexivity).
  rewrite E. intros H. inversion H as [|x l Hnot _]; subst.
  apply Hnot. left. reflexivity.
Qed.

(* ----------------------------------------------------------------- *)
(** *** Trimming *)

Lemma trimStart_head (s : jstring) (c : N) (r : jstring) :
  Str.trimStart s = c :: r -> Str.is_space c = false.
Proof.
  induction s as [|x s IH]; simpl; [discriminate|].
  destruct (Str.is_space x) eqn:Ex; [assumption|].
  intros [= <- _]. assumption.
Qed.

Lemma trimStart_app (l : jstring) (c : N) (m : jstring) :
  Str.is_space c = false ->
  Str.trimStart (l ++ c :: m) = Str.trimStart l ++ c :: m.
Proof.
  intros Hc. induction l as [|x l IH]; simpl.
  - rewrite Hc. reflexivity.
  - destruct (Str.is_space x); [assumption | reflexivity].
Qed.

Lemma trimEnd_cons (c : N) (r : jstring) :
  Str.is_space c = false -> Str.trimEnd (c :: r) = c :: Str.trimEnd r.
Proof.
  intros Hc. unfold Str.trimEnd. simpl List.rev.
  rewrite (trimStart_app _ _ _ Hc), rev_app_distr. reflexivity.
Qed.

(** What [trim] leaves is not blank, unless it is empty. *)
Lemma trim_not_blank (s : jstring) :
  Str.trim s <> [] -> Str.blank (Str.trim s) = false.
Proof.
  unfold Str.blank, Str.trim at 1 3. intros H.
  destruct (Str.trimStart s) as [|c r] eqn:Es; [contradiction H; reflexivity|].
  pose proof (trimStart_head s c r Es) as Hc.
  rewrite (trimEnd_cons c r Hc).
  unfold Str.trim. simpl Str.trimStart. rewrite Hc.
  rewrite (trimEnd_cons c _ Hc). reflexivity.
Qed.

(* ----------------------------------------------------------------- *)
(** *** Records with a dialogue *)

Lemma has_dialogue_not_null (d : jsval) : has_dialogue d -> d <> JNull.
Proof. intros (s & H & _) ->. discriminate H. Qed.

Lemma has_dialogue_added (c : append_call) :
  accepted c = true -> has_dialogue (to_json (added c)).
Proof.
  unfold accepted. intros H. exists (Str.trim (call_text c)).
  split; [reflexivity|]. apply trim_not_blank.
  destruct (Str.trim (call_text c)); [discriminate H | discriminate].
Qed.

Lemma renderDialogues_dialogues (st : state) :
  dialogues (snd (renderDialogues st)) = dialogues st.
Proof. rewrite renderDialogues_state. reflexivity. Qed.

Lemma deleteDialogue_dialogues (confirmed : bool) (id : jstring)
    (st : state) (l : list jsval) :
  dialogues st = JArr l -> Forall (fun d => d <> JNull) l ->
  dialogues (snd (deleteDialogue confirmed id st)) = JArr l
  \/ dialogues (snd (deleteDialogue confirmed id st))
     = JArr (filter (fun d => negb (same_string (get d k_id) id)) l).
Proof.
  intros Hd Hl. destruct confirmed; [|left; assumption].
  right. unfold deleteDialogue.
  unfold bind at 1, this_dialogues at 1. rewrite Hd.
  unfold bind at 1, lift at 1; cbn [as_array]; cbv beta iota.
  unfold bind at 1, lift at 1.
  rewrite (filterR_field id l Hl). cbv beta iota.
  unfold bind at 1, set_dialogues at 1.
  set (st1 := with_dialogues _ st).
  unfold bind at 1. rewrite (saveDialogues_ok st1) at 1.
  unfold bind at 1.
  rewrite (renderDialogues_eq (snd (saveDialogues st1))).
  destruct (fst (renderDialogues (snd (saveDialogues st1)))) as [[]|e];
    simpl; rewrite saveDialogues_dialogues; reflexivity.
Qed.

Lemma clearAllData_dialogues (confirmed : bool) (st : state)
    (l : list jsval) :
  dialogues st = JArr l ->
  dialogues (snd (clearAllData confirmed st)) = JArr l
  \/ dialogues (snd (clearAllData confirmed st)) = JArr [].
Proof.
  intros Hd.
  assert (E : clearAllData confirmed st
              = match l with
                | [] => showMessage NothingToClear error st
                | _ :: _ =>
                  if confirmed
                  then (set_dialogues (JArr []) ;; saveDialogues ;;
                        renderDialogues ;; showMessage ClearOk success) st
                  else (Ok tt, st)
                end).
  { unfold clearAllData.
    unfold bind at 1, this_dialogues at 1. rewrite Hd.
    unfold bind at 1, lift at 1.
    destruct l as [|d l]; cbn [length_is_zero]; cbv beta iota; [reflexivity|].
    destruct confirmed; reflexivity. }
  rewrite E. destruct l as [|d l]; [left; assumption|].
  destruct confirmed; [right | left; assumption].
  unfold bind at 1, set_dialogues at 1. cbv beta iota.
  set (st1 := with_dialogues _ st).
  unfold bind at 1. rewrite (saveDialogues_ok st1) at 1.
  unfold bind at 1.
  rewrite (renderDialogues_eq (snd (saveDialogues st1))).
  destruct (fst (renderDialogues (snd (saveDialogues st1)))) as [[]|e];
    simpl; rewrite saveDialogues_dialogues; reflexivity.
Qed.

Lemma exportData_dialogues (st : state) :
  dialogues (snd (exportData st)) = dialogues st.
Proof.
  unfold exportData, bind, this_dialogues, lift.
  destruct (length_is_zero (dialogues st)) as [[|]|]; reflexivity.
Qed.

Lemma onload_dialogues (text : jstring) (st : state) (l : list jsval) :
  dialogues st = JArr l -> Forall (fun d => d <> JNull) l ->
  dialogues (snd (onload text st)) = JArr l
  \/ exists items,
       JSON.parse text = Some (JArr items)
       /\ dialogues (snd (onload text st))
          = JArr (filter (fun item => negb (known l item)) items ++ l).
Proof.
  intros Hd Hl.
  destruct (JSON.parse text) as [v|] eqn:Hp.
  - destruct v as [| | | |items|];
      try (left; destruct (onload_malformed text _ st Hp I) as [m ->];
           assumption).
    destruct (forallb isValidItem items) eqn:Hv.
    + right. exists items. split; [reflexivity|].
      apply forallb_isValidItem in Hv.
      apply (onload_valid text items l st Hp Hv Hd Hl).
    + left. unfold onload, try_catch, bind at 1, JSON_parse. rewrite Hp.
      unfold ret at 1. rewrite Hv. simpl. assumption.
  - left. rewrite (onload_syntax_error text st Hp). assumption.
Qed.

Lemma loadDialogues_cases (st : state) :
  loadDialogues st = (Ok (JArr []), st)
  \/ (exists e, loadDialogues st = (Ok (JArr []), logged LoadFailed e st))
  \/ (exists c text v,
        enabled st = true /\ stored st = Some (c :: text)
        /\ JSON.parse (c :: text) = Some v
        /\ loadDialogues st = (Ok v, st)).
Proof.
  destruct (enabled st) eqn:He.
  - destruct (stored st) as [[|c text]|] eqn:Hs.
    + left. apply loadDialogues_empty_text; assumption.
    + destruct (JSON.parse (c :: text)) as [v|] eqn:Hp.
      * right; right. exists c, text, v. repeat split; try assumption.
        apply (loadDialogues_parsed st c text v); assumption.
      * right; left. exists SyntaxError.
        apply (loadDialogues_syntax_error st c text); assumption.
    + left. apply loadDialogues_absent; assumption.
  - right; left. exists SecurityError.
    apply loadDialogues_unreadable; assumption.
Qed.

Lemma constructor_dialogues (st st' : state) (v : jsval) :
  loadDialogues st = (Ok v, st') ->
  dialogues (snd (constructor st)) = v.
Proof.
  intros E. unfold constructor. unfold bind at 1. rewrite E.
  unfold bind at 1, set_dialogues at 1. cbv beta iota.
  rewrite renderDialogues_dialogues. reflexivity.
Qed.

Lemma Forall_has_dialogue_not_null (l : list jsval) :
  Forall has_dialogue l -> Forall (fun d => d <> JNull) l.
Proof.
  intros H; eapply Forall_impl; [|exact H].
  intros d; apply has_dialogue_not_null.
Qed.

Lemma has_dialogue_newDialogue now stamp role text think :
  Str.trim text <> [] ->
  has_dialogue (to_json (newDialogue now stamp role text think)).
Proof.
  intros H. exists (Str.trim text). split; [reflexivity|].
  apply trim_not_blank; assumption.
Qed.

Lemma step_keeps_dialogues (a : action) (st : state) :
  all_have_dialogue st -> brings_dialogues a st ->
  all_have_dialogue (step a st).
Proof.
  intros (l & Hd & Hl) Ha. unfold all_have_dialogue.
  pose proof (Forall_has_dialogue_not_null l Hl) as Hn.
  destruct a as [now stamp role text think|confirmed id|chosen| |confirmed|];
    simpl step.
  - destruct (Str.trim text) as [|x t] eqn:Et.
    + rewrite addDialogue_rejected_dialogues by assumption.
      exists l. split; assumption.
    + assert (N : Str.trim text <> []) by (rewrite Et; discriminate).
      rewrite (addDialogue_accepted_dialogues now stamp role text think st l
                 N Hd).
      eexists; split; [reflexivity|].
      apply Forall_app; split; [assumption|].
      constructor; [|constructor].
      apply has_dialogue_newDialogue. assumption.
  - destruct (deleteDialogue_dialogues confirmed id st l Hd Hn) as [-> | ->].
    + exists l. split; [reflexivity | assumption].
    + eexists; split; [reflexivity|]. apply Forall_filter; assumption.
  - destruct chosen as [f|]; [|exists l; split; assumption].
    unfold handleFileImport.
    destruct (negb (Str.eqb (type f) application_json));
      [exists l; split; assumption|].
    destruct (content f) as [text|] eqn:Hc; [|exists l; split; assumption].
    destruct (onload_dialogues text st l Hd Hn) as [-> | (items & Hp & ->)].
    + exists l. split; [reflexivity | assumption].
    + eexists; split; [reflexivity|].
      apply Forall_app; split; [|assumption].
      apply Forall_filter. apply (Ha text items Hc Hp).
  - rewrite exportData_dialogues. exists l. split; assumption.
  - destruct (clearAllData_dialogues confirmed st l Hd) as [-> | ->].
    + exists l. split; [reflexivity | assumption].
    + exists []. split; [reflexivity | constructor].
  - destruct (loadDialogues_cases st)
      as [E | [(e & E) | (c & text & v & He & Hs & Hp & E)]].
    + rewrite (constructor_dialogues st _ _ E).
      exists []. split; [reflexivity | constructor].
    + rewrite (constructor_dialogues st _ _ E).
      exists []. split; [reflexivity | constructor].
    + rewrite (constructor_dialogues st _ _ E).
      destruct (Ha He c text v Hs Hp) as (items & -> & Hi).
      exists items. split; [reflexivity | assumption].
Qed.

(** C4, as the code has it. From a store whose records all have a
    dialogue that is neither empty nor whitespace-only, every sequence of
    appends, deletions, exports and clearings keeps it so; imports and
    reloads keep it as long as the imported file, or the snapshot found in
    storage, holds only such records. *)
Theorem dialogues_stay_non_blank (acts : list action) (st : state) :
  all_have_dialogue st -> all_bring_dialogues acts st ->
  all_have_dialogue (run acts st).
Proof.
  revert st. induction acts as [|a acts IH]; intros st Hst Hacts; simpl.
  - assumption.
  - destruct Hacts as [Ha Hrest].
    apply IH; [apply step_keeps_dialogues|]; assumption.
Qed.

Lemma dialogues_stay_non_blank_witness :
  all_have_dialogue
    (run [ Append 1700000000000 (Str.lit "2024/5/1 10:00:00") questioner
                  (Str.lit "What is 2+2?") [];
           Append 1700000000001 (Str.lit "2024/5/1 10:00:05") responder
                  (Str.lit "4") (Str.lit "basic arithmetic");
           Delete true (Str.lit "1700000000000");
           Clear false ]
         (fresh 1000)).
Proof.
  apply dialogues_stay_non_blank.
  - exists []. split; [reflexivity | constructor].
  - simpl. tauto.
Defined.

(** C4, as stated, fails: an import takes a record whose dialogue is
    whitespace-only, since it only checks that the dialogue is text. *)
Lemma import_admits_blank_dialogue :
  let item := JObj [ (k_id, JStr (Str.lit "1")); (k_role, JStr questioner);
                     (k_dialogue, JStr (Str.lit "   "));
                     (k_timestamp, JStr (Str.lit "2024/5/1 10:00:00")) ] in
  let text := JSON.stringify2 (JArr [item]) in
  let st := run [Import (Some (mkFile application_json (Some text)))]
                (fresh 1000) in
  dialogues st = JArr [item]
  /\ get item k_dialogue = Some (JStr (Str.lit "   "))
  /\ Str.blank (Str.lit "   ") = true
  /\ ~ all_have_dialogue st.
Proof.
  intros item text st.
  assert (E : dialogues st = JArr [item]) by (vm_compute; reflexivity).
  repeat split; try assumption.
  intros (l & Hd & Hl). rewrite E in Hd. injection Hd as <-.
  inversion Hl as [|d m (s & Hs & Hb) _]; subst.
  injection Hs as <-. discriminate Hb.
Qed.

(* ----------------------------------------------------------------- *)
(** *** Exporting, then importing *)

Lemma structurally_valid_to_json (r : Turn.t) : structurally_valid (to_json r).
Proof. apply isValidItem_spec. reflexivity. Qed.

Lemma exportData_records (r : Turn.t) (rs : list Turn.t) (st : state) :
  dialogues st = JArr (List.map to_json (r :: rs)) ->
  exportData st
  = (Ok (Some (JSON.stringify2 (JArr (List.map to_json (r :: rs))))),
     notified ExportOk success st).
Proof.
  intros Hd. unfold exportData, bind, this_dialogues, lift. rewrite Hd.
  reflexivity.
Qed.

Lemma filter_unknown (items : list jsval) :
  filter (fun item => negb (known [] item)) items = items.
Proof.
  apply filter_all. intros item _. unfold known.
  destruct (id_of item); reflexivity.
Qed.

(** C2. For a non-empty sequence of records, the text that [exportData]
    offers for download, imported into a store without records, gives
    back the same records in the same order. *)
Theorem export_import_round_trip (rs : list Turn.t) (st empty : state) :
  rs <> [] ->
  dialogues st = JArr (List.map to_json rs) ->
  dialogues empty = JArr [] ->
  exists text : jstring,
    fst (exportData st) = Ok (Some text)
    /\ JSON.parse text = Some (JArr (List.map to_json rs))
    /\ dialogues (snd (handleFileImport
                         (Some (mkFile application_json (Some text))) empty))
       = JArr (List.map to_json rs).
Proof.
  intros Hne Hd He.
  destruct rs as [|r rs]; [contradiction Hne; reflexivity|].
  exists (JSON.stringify2 (JArr (List.map to_json (r :: rs)))).
  split; [rewrite (exportData_records r rs st Hd); reflexivity|].
  split; [apply (parse_stringify_records 2)|].
  change (handleFileImport
            (Some (mkFile application_json
                     (Some (JSON.stringify2
                              (JArr (List.map to_json (r :: rs))))))) empty)
    with (onload (JSON.stringify2 (JArr (List.map to_json (r :: rs)))) empty).
  rewrite (onload_valid
             (JSON.stringify2 (JArr (List.map to_json (r :: rs))))
             (List.map to_json (r :: rs)) [] empty).
  - rewrite filter_unknown, app_nil_r. reflexivity.
  - apply (parse_stringify_records 2).
  - apply Forall_forall. intros item Hin.
    apply in_map_iff in Hin. destruct Hin as (x & <- & _).
    apply structurally_valid_to_json.
  - assumption.
  - constructor.
Qed.

Lemma export_import_round_trip_witness :
  let rs := [ Turn.make (Str.lit "1700000000000") questioner
                        (Str.lit "What is 2+2?") []
                        (Str.lit "2024/5/1 10:00:00");
              Turn.make (Str.lit "1700000000001") responder (Str.lit "4")
                        (Str.lit "basic arithmetic")
                        (Str.lit "2024/5/1 10:00:05") ] in
  exists text : jstring,
    fst (exportData (with_dialogues (JArr (List.map to_json rs)) (fresh 1000)))
    = Ok (Some text)
    /\ JSON.parse text = Some (JArr (List.map to_json rs))
    /\ dialogues (snd (handleFileImport
                         (Some (mkFile application_json (Some text)))
                         (fresh 1000)))
       = JArr (List.map to_json rs).
Proof.
  intros rs.
  apply (export_import_round_trip rs
           (with_dialogues (JArr (List.map to_json rs)) (fresh 1000))
           (fresh 1000)).
  - discriminate.
  - reflexivity.
  - reflexivity.
Defined.

(* ----------------------------------------------------------------- *)
(** *** Saving, then loading *)

(** A store of records that has been saved is found again by the next
    manager constructed on the same storage. *)
Lemma constructor_restores_saved (rs : list Turn.t) (st : state) :
  dialogues st = JArr (List.map to_json rs) ->
  write_error st (JSON.stringify (dialogues st)) = None ->
  dialogues (snd (constructor (snd (saveDialogues st))))
  = JArr (List.map to_json rs).
Proof.
  intros Hd Hw. rewrite saveDialogues_eq, Hw. simpl snd.
  set (text := JSON.stringify (dialogues st)).
  assert (He : enabled st = true).
  { unfold write_error in Hw. destruct (enabled st); [reflexivity|].
    discriminate Hw. }
  assert (Hp : JSON.parse text = Some (JArr (List.map to_json rs))).
  { unfold text. rewrite Hd. apply (parse_stringify_records 0). }
  destruct text as [|c text'] eqn:Et; [discriminate Hp|].
  apply (constructor_dialogues _ (with_stored (c :: text') st)).
  apply (loadDialogues_parsed _ c text'); [exact He | reflexivity | exact Hp].
Qed.

(* ----------------------------------------------------------------- *)
(** *** Guards on an empty store, and an import that brings nothing *)

Lemma exportData_empty (st : state) :
  dialogues st = JArr [] ->
  exportData st = (Ok None, notified NothingToExport error st).
Proof.
  intros Hd. unfold exportData, bind, this_dialogues, lift. rewrite Hd.
  reflexivity.
Qed.

Lemma clearAllData_empty (confirmed : bool) (st : state) :
  dialogues st = JArr [] ->
  clearAllData confirmed st = (Ok tt, notified NothingToClear error st).
Proof.
  intros Hd. unfold clearAllData, bind, this_dialogues, lift. rewrite Hd.
  reflexivity.
Qed.

Lemma onload_nothing_new (text : jstring) (items l : list jsval)
    (st : state) :
  JSON.parse text = Some (JArr items) ->
  Forall structurally_valid items ->
  dialogues st = JArr l -> Forall (fun d => d <> JNull) l ->
  (forall item, In item items -> known l item = true) ->
  onload text st = (Ok tt, notified NothingNew info st).
Proof.
  intros Hp Hv Hd Hl Hk.
  apply forallb_isValidItem in Hv.
  unfold onload, try_catch.
  unfold bind at 1, JSON_parse. rewrite Hp. unfold ret at 1.
  rewrite Hv. cbn [negb]. cbv beta iota.
  unfold bind at 1, this_dialogues at 1. cbv beta iota. rewrite Hd.
  unfold bind at 1, lift at 1. cbn [as_array]. cbv beta iota.
  unfold bind at 1, lift at 1. rewrite (mapR_field_id l Hl).
  cbv beta iota. rewrite filter_ext_known.
  replace (filter (fun item => negb (known l item)) items) with (@nil jsval).
  - reflexivity.
  - symmetry. clear Hp Hv.
    induction items as [|x items IH]; [reflexivity|].
    simpl. rewrite (Hk x) by (left; reflexivity). simpl.
    apply IH. intros item Hin. apply Hk. right. assumption.
Qed.

(* ----------------------------------------------------------------- *)
(** *** The scenario of the specification *)

Example scenario :
  let q := Append 1700000000000 (Str.lit "2024/5/1 10:00:00") questioner
                  (Str.lit "What is 2+2?") [] in
  let a := Append 1700000000005 (Str.lit "2024/5/1 10:00:05") responder
                  (Str.lit "4") (Str.lit "basic arithmetic") in
  let first := Turn.make (Str.lit "1700000000000") questioner
                         (Str.lit "What is 2+2?") []
                         (Str.lit "2024/5/1 10:00:00") in
  let second := Turn.make (Str.lit "1700000000005") responder (Str.lit "4")
                          (Str.lit "basic arithmetic")
                          (Str.lit "2024/5/1 10:00:05") in
  sequence (run [q] (fresh 1000)) = [to_json first]
  /\ sequence (run [q; a] (fresh 1000)) = [to_json first; to_json second]
  /\ sequence (run [q; a; Delete true (Str.lit "1700000000000")]
                   (fresh 1000))
     = [to_json second].
Proof. repeat split. Qed.

(* ================================================================= *)
(** * Further properties of the methods *)

(** ** Importing *)

Lemma structurally_valid_not_null (d : jsval) :
  structurally_valid d -> d <> JNull.
Proof. intros (ms & a & b & c & e & -> & _). discriminate. Qed.

Lemma structurally_valid_id (d : jsval) :
  structurally_valid d -> exists s, id_of d = Some s.
Proof.
  intros (ms & a & b & c & e & -> & Ha & _). exists a.
  unfold id_of. simpl. rewrite Ha. reflexivity.
Qed.

(** The sequence after [reader.onload], in closed form. *)
Lemma onload_dialogues_eq (text : jstring) (st : state) (l : list jsval) :
  dialogues st = JArr l -> Forall (fun d => d <> JNull) l ->
  dialogues (snd (onload text st)) = JArr (imported text l).
Proof.
  intros Hd Hl. unfold imported.
  destruct (JSON.parse text) as [v|] eqn:Hp.
  - destruct v as [| | | |items|];
      try (destruct (onload_malformed text _ st Hp I) as [m ->];
           assumption).
    destruct (forallb isValidItem items) eqn:Hv.
    + apply forallb_isValidItem in Hv.
      apply (onload_valid text items l st Hp Hv Hd Hl).
    + unfold onload, try_catch, bind at 1, JSON_parse. rewrite Hp.
      unfold ret at 1. rewrite Hv. simpl. assumption.
  - rewrite (onload_syntax_error text st Hp). assumption.
Qed.

(** The sequence an import of the file [chosen] leaves. *)
Lemma handleFileImport_dialogues (chosen : option file) (st : state)
    (l : list jsval) :
  dialogues st = JArr l -> Forall (fun d => d <> JNull) l ->
  dialogues (snd (handleFileImport chosen st)) = JArr l
  \/ exists f text,
       chosen = Some f /\ content f = Some text
       /\ dialogues (snd (handleFileImport chosen st))
          = JArr (imported text l).
Proof.
  intros Hd Hl. destruct chosen as [f|]; [|left; assumption].
  unfold handleFileImport.
  destruct (negb (Str.eqb (type f) application_json)); [left; assumption|].
  destruct (content f) as [text|] eqn:Hc; [|left; assumption].
  right. exists f, text. split; [reflexivity|]. split; [assumption|].
  apply onload_dialogues_eq; assumption.
Qed.

Lemma imported_split (text : jstring) (l : list jsval) :
  exists new,
    imported text l = new ++ l
    /\ Forall structurally_valid new
    /\ Forall (fun item => known l item = false) new.
Proof.
  unfold imported.
  destruct (JSON.parse text) as [[| | | |items|]|];
    try (exists []; repeat split; constructor).
  destruct (forallb isValidItem items) eqn:Hv;
    [|exists []; repeat split; constructor].
  exists (filter (fun item => negb (known l item)) items).
  split; [reflexivity|]. split.
  - apply Forall_filter. apply forallb_isValidItem. assumption.
  - apply Forall_forall. intros item Hin.
    apply filter_In in Hin. destruct Hin as [_ Hk].
    apply negb_true_iff. assumption.
Qed.

Lemma filter_nothing {A : Type} (f : A -> bool) (l : list A) :
  (forall x, In x l -> f x = false) -> filter f l = [].
Proof.
  induction l as [|x l IH]; intros H; [reflexivity|].
  simpl. rewrite (H x) by (left; reflexivity).
  apply IH. intros y Hy. apply H. right. assumption.
Qed.

Lemma known_app (l1 l2 : list jsval) (item : jsval) :
  known (l1 ++ l2) item = known l1 item || known l2 item.
Proof.
  unfold known. destruct (id_of item); [|reflexivity].
  apply existsb_app.
Qed.

Lemma known_self (l : list jsval) (item : jsval) :
  In item l -> structurally_valid item -> known l item = true.
Proof.
  intros Hin Hv. destruct (structurally_valid_id item Hv) as [s Hs].
  unfold known. rewrite Hs. apply existsb_exists.
  exists item. split; [assumption|]. rewrite Hs. apply eqb_refl.
Qed.

(** What an import has brought, the same file brings no more. *)
Lemma imported_twice (text : jstring) (l : list jsval) :
  imported text (imported text l) = imported text l.
Proof.
  unfold imported.
  destruct (JSON.parse text) as [[| | | |items|]|]; try reflexivity.
  destruct (forallb isValidItem items) eqn:Hv; [|reflexivity].
  set (new := filter (fun item => negb (known l item)) items).
  replace (filter (fun item => negb (known (new ++ l) item)) items)
    with (@nil jsval); [reflexivity|].
  symmetry. apply forallb_isValidItem in Hv.
  assert (Hall : forall item, In item items -> known (new ++ l) item = true).
  { intros item Hin. rewrite known_app.
    destruct (known l item) eqn:Hk; [apply orb_true_r|].
    rewrite (known_self new item); [reflexivity| |].
    - apply filter_In. split; [assumption|]. rewrite Hk. reflexivity.
    - rewrite Forall_forall in Hv. apply Hv. assumption. }
  apply filter_nothing. intros item Hin.
  rewrite (Hall item Hin). reflexivity.
Qed.

Lemma imported_not_null (text : jstring) (l : list jsval) :
  Forall (fun d => d <> JNull) l ->
  Forall (fun d => d <> JNull) (imported text l).
Proof.
  intros Hl. destruct (imported_split text l) as (new & -> & Hv & _).
  apply Forall_app. split; [|assumption].
  eapply Forall_impl; [|exact Hv]. apply structurally_valid_not_null.
Qed.

(** X1. Whatever file is chosen, an import on a store that holds a
    sequence without [null] keeps every record it held, in place and in
    order, behind the records it adds; the added records are
    structurally valid and none has the id of a record already held. *)
Theorem import_keeps_existing_records
    (chosen : option file) (st : state) (l : list jsval) :
  dialogues st = JArr l -> Forall (fun d => d <> JNull) l ->
  exists new : list jsval,
    dialogues (snd (handleFileImport chosen st)) = JArr (new ++ l)
    /\ Forall structurally_valid new
    /\ Forall (fun item => known l item = false) new.
Proof.
  intros Hd Hl.
  destruct (handleFileImport_dialogues chosen st l Hd Hl)
    as [-> | (f & text & _ & _ & ->)].
  - exists []. repeat split; constructor.
  - destruct (imported_split text l) as (new & -> & Hv & Hk).
    exists new. repeat split; assumption.
Qed.

Lemma import_keeps_existing_records_witness :
  let turn (n : string) :=
    to_json (Turn.make (Str.lit n) questioner (Str.lit "hello") []
                       (Str.lit "2024/5/1 10:00:00")) in
  let st := with_dialogues (JArr [turn "2"%string; turn "9"%string])
                           (fresh 1000) in
  exists new : list jsval,
    dialogues (snd (handleFileImport
                      (Some (mkFile application_json
                               (Some (JSON.stringify2
                                        (JArr [turn "1"%string;
                                               turn "2"%string]))))) st))
    = JArr (new ++ [turn "2"%string; turn "9"%string])
    /\ Forall structurally_valid new
    /\ Forall (fun item =>
                 known [turn "2"%string; turn "9"%string] item = false) new.
Proof.
  intros turn st.
  apply (import_keeps_existing_records
           (Some (mkFile application_json
                    (Some (JSON.stringify2
                             (JArr [turn "1"%string; turn "2"%string])))))
           st
           [turn "2"%string; turn "9"%string]).
  - reflexivity.
  - repeat constructor; discriminate.
Defined.

(** X2. Importing the same file a second time adds nothing: the
    sequence after two imports in a row is the sequence after the
    first. *)
Theorem import_twice_adds_nothing
    (chosen : option file) (st : state) (l : list jsval) :
  dialogues st = JArr l -> Forall (fun d => d <> JNull) l ->
  dialogues (run [Import chosen; Import chosen] st)
  = dialogues (run [Import chosen] st).
Proof.
  intros Hd Hl.
  change (dialogues (snd (handleFileImport chosen
                            (snd (handleFileImport chosen st))))
          = dialogues (snd (handleFileImport chosen st))).
  destruct chosen as [f|]; [|reflexivity].
  unfold handleFileImport.
  destruct (negb (Str.eqb (type f) application_json)); [reflexivity|].
  destruct (content f) as [text|]; [|reflexivity].
  pose proof (onload_dialogues_eq text st l Hd Hl) as H1.
  rewrite (onload_dialogues_eq text (snd (onload text st)) (imported text l)
             H1 (imported_not_null text l Hl)).
  rewrite imported_twice. symmetry. exact H1.
Qed.

Lemma import_twice_adds_nothing_witness :
  let turn (n : string) :=
    to_json (Turn.make (Str.lit n) questioner (Str.lit "hello") []
                       (Str.lit "2024/5/1 10:00:00")) in
  let st := with_dialogues (JArr [turn "2"%string]) (fresh 1000) in
  let chosen :=
    Some (mkFile application_json
            (Some (JSON.stringify2
                     (JArr [turn "1"%string; turn "2"%string])))) in
  dialogues (run [Import chosen; Import chosen] st)
  = dialogues (run [Import chosen] st).
Proof.
  intros turn st chosen.
  apply (import_twice_adds_nothing chosen st [turn "2"%string]).
  - reflexivity.
  - repeat constructor; discriminate.
Defined.

(** X3. An import whose candidates are all structurally valid and all
    have the id of a record already held changes nothing: neither the
    sequence nor the storage is written, and the only effect is a notice
    of the kind [info]. *)
Theorem import_of_known_records_changes_nothing
    (text : jstring) (items l : list jsval) (st : state) :
  JSON.parse text = Some (JArr items) ->
  Forall structurally_valid items ->
  dialogues st = JArr l -> Forall (fun d => d <> JNull) l ->
  (forall item, In item items -> known l item = true) ->
  handleFileImport (Some (mkFile application_json (Some text))) st
  = (Ok tt, notified NothingNew info st).
Proof.
  intros Hp Hv Hd Hl Hk.
  apply (onload_nothing_new text items l st Hp Hv Hd Hl Hk).
Qed.

Lemma import_of_known_records_changes_nothing_witness :
  let turn (n : string) :=
    to_json (Turn.make (Str.lit n) questioner (Str.lit "hello") []
                       (Str.lit "2024/5/1 10:00:00")) in
  let st := with_dialogues (JArr [turn "1"%string; turn "2"%string])
                           (fresh 1000) in
  let text := JSON.stringify2 (JArr [turn "2"%string; turn "1"%string]) in
  handleFileImport (Some (mkFile application_json (Some text))) st
  = (Ok tt, notified NothingNew info st).
Proof.
  intros turn st text.
  apply (import_of_known_records_changes_nothing text
           [turn "2"%string; turn "1"%string]
           [turn "1"%string; turn "2"%string] st).
  - vm_compute. reflexivity.
  - repeat constructor; apply isValidItem_spec; reflexivity.
  - reflexivity.
  - repeat constructor; discriminate.
  - intros item [<- | [<- | []]]; reflexivity.
Defined.

Lemma Forall_presentable_not_null (l : list jsval) :
  Forall presentable l -> Forall (fun d => d <> JNull) l.
Proof. apply Forall_not_null. Qed.

Lemma is_record_presentable (l : list jsval) :
  Forall is_record l -> Forall presentable l.
Proof.
  intros H. eapply Forall_impl; [|exact H].
  intros d [r ->]. apply presentable_to_json.
Qed.

(** X4. An import that adds records reports how many it added: when
    the candidates are structurally valid and all records can be
    rendered, the call returns normally, the store holds the new records
    before the old ones, and one notice of success carries the number
    of new records. The store is then saved: when storage accepts the
    write the item holds the text of the new sequence (which for records
    is read back as that sequence) and nothing is logged; when storage
    refuses it the item stays as it was and the refusal is logged. *)
Theorem import_reports_count
    (text : jstring) (items l : list jsval) (st : state) :
  JSON.parse text = Some (JArr items) ->
  Forall structurally_valid items ->
  dialogues st = JArr l ->
  Forall presentable l -> Forall presentable items ->
  let new := filter (fun item => negb (known l item)) items in
  new <> [] ->
  let after := JArr (new ++ l) in
  let out := handleFileImport
               (Some (mkFile application_json (Some text))) st in
  fst out = Ok tt
  /\ dialogues (snd out) = after
  /\ messages (snd out)
     = messages st ++ [(Imported (List.length new), success)]
  /\ (write_error st (JSON.stringify after) = None ->
      stored (snd out) = Some (JSON.stringify after)
      /\ console (snd out) = console st)
  /\ (forall e, write_error st (JSON.stringify after) = Some e ->
      stored (snd out) = stored st
      /\ console (snd out) = console st ++ [(SaveFailed, e)])
  /\ (Forall is_record items -> Forall is_record l ->
      JSON.parse (JSON.stringify after) = Some after).
Proof.
  intros Hp Hv Hd Hl Hi new Hne after out.
  assert (E : out
              = (Ok tt,
                 notified (Imported (List.length new)) success
                   (snd (saveDialogues (with_dialogues after st))))).
  { unfold out.
    change (handleFileImport (Some (mkFile application_json (Some text))) st)
      with (onload text st).
    apply forallb_isValidItem in Hv.
    unfold onload, try_catch.
    unfold bind at 1, JSON_parse. rewrite Hp. unfold ret at 1.
    rewrite Hv. cbn [negb]. cbv beta iota.
    unfold bind at 1, this_dialogues at 1. cbv beta iota. rewrite Hd.
    unfold bind at 1, lift at 1. cbn [as_array]. cbv beta iota.
    unfold bind at 1, lift at 1.
    rewrite (mapR_field_id l (Forall_not_null l Hl)).
    cbv beta iota. rewrite filter_ext_known. fold new.
    unfold after.
    destruct new as [|x xs] eqn:En; [contradiction Hne; reflexivity|].
    unfold bind at 1, set_dialogues at 1. cbv beta iota.
    set (st1 := with_dialogues (JArr ((x :: xs) ++ l)) st).
    unfold bind at 1. rewrite (saveDialogues_ok st1) at 1.
    unfold bind at 1.
    rewrite (renderDialogues_ok (snd (saveDialogues st1)) ((x :: xs) ++ l)).
    - reflexivity.
    - rewrite saveDialogues_dialogues. reflexivity.
    - apply Forall_app. split; [|assumption].
      rewrite <- En. apply Forall_filter. assumption. }
  rewrite E. cbn [fst snd notified dialogues messages stored console].
  split; [reflexivity|].
  split; [rewrite saveDialogues_dialogues; reflexivity|].
  split; [rewrite saveDialogues_messages; reflexivity|].
  split; [apply saved_state_written|].
  split; [intros e; apply saved_state_refused|].
  intros Ri Rl. apply parse_stringify_store.
  apply Forall_app. split; [|assumption].
  apply Forall_filter. assumption.
Qed.

Lemma import_reports_count_witness :
  let turn (n : string) :=
    to_json (Turn.make (Str.lit n) questioner (Str.lit "hello") []
                       (Str.lit "2024/5/1 10:00:00")) in
  let st := with_dialogues (JArr [turn "2"%string]) (fresh 1000) in
  let text := JSON.stringify2
                (JArr [turn "1"%string; turn "2"%string; turn "3"%string]) in
  let after := JArr [turn "1"%string; turn "3"%string; turn "2"%string] in
  let out := handleFileImport
               (Some (mkFile application_json (Some text))) st in
  fst out = Ok tt
  /\ dialogues (snd out) = after
  /\ messages (snd out) = [(Imported 2, success)]
  /\ stored (snd out) = Some (JSON.stringify after)
  /\ JSON.parse (JSON.stringify after) = Some after.
Proof.
  intros turn st text after out.
  destruct (import_reports_count text
              [turn "1"%string; turn "2"%string; turn "3"%string]
              [turn "2"%string] st)
    as (H1 & H2 & H3 & H4 & _ & H5).
  - vm_compute. reflexivity.
  - repeat constructor; apply isValidItem_spec; reflexivity.
  - reflexivity.
  - repeat constructor.
  - repeat constructor.
  - discriminate.
  - split; [exact H1|]. split; [exact H2|]. split; [exact H3|].
    split.
    + apply H4. vm_compute. reflexivity.
    + apply H5; repeat constructor; eexists; reflexivity.
Defined.

(** X5. Deduplication looks at the store only, not at the file: a
    candidate with an id that no stored record has, listed twice in one
    file, is stored twice, and the ids of the store are then no longer
    distinct. *)
Theorem import_keeps_duplicates_of_the_file
    (text : jstring) (item : jsval) (l : list jsval) (st : state) :
  JSON.parse text = Some (JArr [item; item]) ->
  structurally_valid item -> known l item = false ->
  dialogues st = JArr l -> Forall (fun d => d <> JNull) l ->
  let st' := snd (handleFileImport
                    (Some (mkFile application_json (Some text))) st) in
  dialogues st' = JArr (item :: item :: l)
  /\ ~ NoDup (ids (sequence st')).
Proof.
  intros Hp Hv Hk Hd Hl st'.
  assert (E : dialogues st' = JArr (item :: item :: l)).
  { unfold st'.
    change (handleFileImport (Some (mkFile application_json (Some text))) st)
      with (onload text st).
    rewrite (onload_dialogues_eq text st l Hd Hl).
    unfold imported. rewrite Hp.
    apply isValidItem_spec in Hv. simpl. rewrite Hv, Hk. reflexivity. }
  split; [exact E|].
  unfold sequence. rewrite E. simpl. intros H.
  inversion H as [|x m Hnot _]; subst. apply Hnot. left. reflexivity.
Qed.

Lemma import_keeps_duplicates_of_the_file_witness :
  let item :=
    to_json (Turn.make (Str.lit "7") questioner (Str.lit "hello") []
                       (Str.lit "2024/5/1 10:00:00")) in
  let text := JSON.stringify2 (JArr [item; item]) in
  let st' := snd (handleFileImport
                    (Some (mkFile application_json (Some text)))
                    (fresh 1000)) in
  dialogues st' = JArr [item; item] /\ ~ NoDup (ids (sequence st')).
Proof.
  intros item text.
  apply (import_keeps_duplicates_of_the_file text item [] (fresh 1000)).
  - vm_compute. reflexivity.
  - apply isValidItem_spec. reflexivity.
  - reflexivity.
  - reflexivity.
  - constructor.
Defined.

(** ** Deleting *)

(** What comes after the change of the sequence in every method that
    changes it: the save, the rendering and the notice. *)
Lemma commit_eq (v : jsval) (n : notice) (k : kind) (st : state) :
  (set_dialogues v ;; saveDialogues ;; renderDialogues ;; showMessage n k) st
  = let st' := snd (saveDialogues (with_dialogues v st)) in
    match fst (renderDialogues st') with
    | Ok _ => (Ok tt, notified n k st')
    | Throw e => (Throw e, st')
    end.
Proof.
  unfold bind at 1, set_dialogues at 1. cbv beta iota.
  set (st1 := with_dialogues v st).
  unfold bind at 1. rewrite (saveDialogues_ok st1) at 1.
  unfold bind at 1. cbv zeta.
  rewrite (renderDialogues_eq (snd (saveDialogues st1))).
  destruct (fst (renderDialogues (snd (saveDialogues st1)))) as [[]|e];
    reflexivity.
Qed.

Lemma commit_dialogues (v : jsval) (n : notice) (k : kind) (st : state) :
  dialogues (snd ((set_dialogues v ;; saveDialogues ;; renderDialogues ;;
                   showMessage n k) st)) = v.
Proof.
  rewrite commit_eq. cbv zeta.
  destruct (fst (renderDialogues _)); simpl;
    rewrite saveDialogues_dialogues; reflexivity.
Qed.

Lemma commit_stored (v : jsval) (n : notice) (k : kind) (st : state) :
  stored (snd ((set_dialogues v ;; saveDialogues ;; renderDialogues ;;
                showMessage n k) st)) = saved st v.
Proof.
  rewrite commit_eq. cbv zeta.
  destruct (fst (renderDialogues _)); simpl;
    rewrite saveDialogues_stored; reflexivity.
Qed.

Lemma deleteDialogue_confirmed_dialogues (id : jstring) (st : state)
    (l : list jsval) :
  dialogues st = JArr l -> Forall (fun d => d <> JNull) l ->
  dialogues (snd (deleteDialogue true id st))
  = JArr (filter (fun d => negb (same_string (get d k_id) id)) l).
Proof.
  intros Hd Hl. unfold deleteDialogue.
  unfold bind at 1, this_dialogues at 1. rewrite Hd.
  unfold bind at 1, lift at 1; cbn [as_array]; cbv beta iota.
  unfold bind at 1, lift at 1.
  rewrite (filterR_field id l Hl). cbv beta iota.
  apply commit_dialogues.
Qed.

Lemma filter_idem {A : Type} (f : A -> bool) (l : list A) :
  filter f (filter f l) = filter f l.
Proof.
  apply filter_all. intros x Hx. apply filter_In in Hx. apply Hx.
Qed.

(** X6. After a confirmed [deleteDialogue(id)] on a store that holds a
    sequence without [null], the store holds exactly the records that
    were there and have another id, so none with the id [id] is left,
    however many there were; deleting the same id again changes nothing,
    and a deletion that is not confirmed changes nothing at all. *)
Theorem deleteDialogue_leaves_no_match
    (id : jstring) (st : state) (l : list jsval) :
  dialogues st = JArr l -> Forall (fun d => d <> JNull) l ->
  let st' := snd (deleteDialogue true id st) in
  exists kept : list jsval,
    dialogues st' = JArr kept
    /\ (forall d, In d kept <-> In d l /\ id_of d <> Some id)
    /\ dialogues (snd (deleteDialogue true id st')) = JArr kept
    /\ deleteDialogue false id st = (Ok tt, st).
Proof.
  intros Hd Hl st'.
  exists (filter (fun d => negb (same_string (get d k_id) id)) l).
  pose proof (deleteDialogue_confirmed_dialogues id st l Hd Hl) as H1.
  split; [exact H1|]. split.
  - intros d. rewrite filter_In, negb_true_iff.
    rewrite <- not_true_iff_false, same_string_id_of. reflexivity.
  - split; [|reflexivity].
    rewrite (deleteDialogue_confirmed_dialogues id st' _ H1).
    + rewrite filter_idem. reflexivity.
    + apply Forall_filter. assumption.
Qed.

Lemma deleteDialogue_leaves_no_match_witness :
  let turn (n : string) :=
    to_json (Turn.make (Str.lit n) questioner (Str.lit "hello") []
                       (Str.lit "2024/5/1 10:00:00")) in
  let st := with_dialogues
              (JArr [turn "7"%string; turn "8"%string; turn "7"%string])
              (fresh 1000) in
  exists kept : list jsval,
    dialogues (snd (deleteDialogue true (Str.lit "7") st)) = JArr kept
    /\ (forall d, In d kept <->
                  In d [turn "7"%string; turn "8"%string; turn "7"%string]
                  /\ id_of d <> Some (Str.lit "7")).
Proof.
  intros turn st.
  destruct (deleteDialogue_leaves_no_match (Str.lit "7") st
              [turn "7"%string; turn "8"%string; turn "7"%string])
    as (kept & H1 & H2 & _).
  - reflexivity.
  - repeat constructor; discriminate.
  - exists kept. split; [exact H1 | exact H2].
Defined.

(** X7. Appending a record and then deleting its id gives back the
    sequence held before, provided no record held before has the id that
    the clock gives the new one. *)
Theorem append_then_delete_restores
    (now : Z) (localeString role dialogueText thinkText : jstring)
    (st : state) (l : list jsval) :
  Str.trim dialogueText <> [] ->
  dialogues st = JArr l -> Forall (fun d => d <> JNull) l ->
  (forall d, In d l -> id_of d <> Some (Str.toString now)) ->
  dialogues (run [ Append now localeString role dialogueText thinkText;
                   Delete true (Str.toString now) ] st)
  = JArr l.
Proof.
  intros E Hd Hl Hfresh.
  change (dialogues
            (snd (deleteDialogue true (Str.toString now)
                    (snd (addDialogue now localeString role dialogueText
                            thinkText st)))) = JArr l).
  pose proof (addDialogue_accepted_dialogues now localeString role
                dialogueText thinkText st l E Hd) as H1.
  rewrite (deleteDialogue_confirmed_dialogues _ _ _ H1).
  - rewrite filter_app. simpl.
    rewrite eqb_refl. simpl. rewrite app_nil_r. f_equal.
    apply filter_all. intros d Hin.
    apply negb_true_iff. apply not_true_is_false.
    rewrite same_string_id_of. apply Hfresh. assumption.
  - apply Forall_app. split; [assumption|].
    constructor; [discriminate | constructor].
Qed.

Lemma append_then_delete_restores_witness :
  let old := to_json (Turn.make (Str.lit "1") questioner (Str.lit "hello") []
                        (Str.lit "2024/5/1 10:00:00")) in
  dialogues (run [ Append 1700000000000 (Str.lit "2024/5/1 10:00:05")
                          responder (Str.lit "4") (Str.lit "arithmetic");
                   Delete true (Str.toString 1700000000000) ]
                 (with_dialogues (JArr [old]) (fresh 1000)))
  = JArr [old].
Proof.
  intros old.
  apply (append_then_delete_restores 1700000000000
           (Str.lit "2024/5/1 10:00:05") responder (Str.lit "4")
           (Str.lit "arithmetic") (with_dialogues (JArr [old]) (fresh 1000))
           [old]).
  - vm_compute. discriminate.
  - reflexivity.
  - repeat constructor; discriminate.
  - intros d [<- | []]. vm_compute. discriminate.
Defined.

(** ** Loading and saving *)

Lemma constructor_reads_storage (st : state) (c : N) (text : jstring)
    (v : jsval) :
  enabled st = true -> stored st = Some (c :: text) ->
  JSON.parse (c :: text) = Some v ->
  dialogues (snd (constructor st)) = v.
Proof.
  intros He Hs Hp. apply (constructor_dialogues st st).
  apply (loadDialogues_parsed st c text v); assumption.
Qed.

(** X8. [loadDialogues] never throws and writes neither the storage nor
    the list of the manager. It returns the empty list when storage
    cannot be read, holds no item, holds the empty text or holds a text
    that is not JSON, with a line on the console in the first and the
    last case; in every other case it returns whatever the text parses
    to. *)
Theorem loadDialogues_never_throws (st : state) :
  exists v : jsval,
    fst (loadDialogues st) = Ok v
    /\ dialogues (snd (loadDialogues st)) = dialogues st
    /\ stored (snd (loadDialogues st)) = stored st
    /\ messages (snd (loadDialogues st)) = messages st
    /\ (enabled st = false ->
        v = JArr []
        /\ console (snd (loadDialogues st))
           = console st ++ [(LoadFailed, SecurityError)])
    /\ (enabled st = true ->
        match stored st with
        | None | Some [] =>
          v = JArr [] /\ console (snd (loadDialogues st)) = console st
        | Some (c :: text) =>
          match JSON.parse (c :: text) with
          | Some parsed =>
            v = parsed /\ console (snd (loadDialogues st)) = console st
          | None =>
            v = JArr []
            /\ console (snd (loadDialogues st))
               = console st ++ [(LoadFailed, SyntaxError)]
          end
        end).
Proof.
  destruct (enabled st) eqn:He.
  - destruct (stored st) as [[|c text]|] eqn:Hs.
    + rewrite (loadDialogues_empty_text st He Hs).
      exists (JArr []). repeat split; try assumption; try discriminate.
    + destruct (JSON.parse (c :: text)) as [v|] eqn:Hp.
      * rewrite (loadDialogues_parsed st c text v He Hs Hp).
        exists v. repeat split; try assumption; try discriminate.
      * rewrite (loadDialogues_syntax_error st c text He Hs Hp).
        exists (JArr []). repeat split; try assumption; try discriminate.
    + rewrite (loadDialogues_absent st He Hs).
      exists (JArr []). repeat split; try assumption; try discriminate.
  - rewrite (loadDialogues_unreadable st He).
    exists (JArr []). repeat split; try assumption; try discriminate.
Qed.

(** X9. A store of records that [saveDialogues] has written to storage
    is found again, record for record, by the next manager constructed
    on that storage. *)
Theorem saved_store_is_restored (rs : list Turn.t) (st : state) :
  dialogues st = JArr (List.map to_json rs) ->
  write_error st (JSON.stringify (dialogues st)) = None ->
  stored (snd (saveDialogues st)) = Some (JSON.stringify (dialogues st))
  /\ dialogues (snd (constructor (snd (saveDialogues st))))
     = JArr (List.map to_json rs).
Proof.
  intros Hd Hw. split.
  - rewrite saveDialogues_eq, Hw. reflexivity.
  - apply constructor_restores_saved; assumption.
Qed.

Lemma saved_store_is_restored_witness :
  let rs := [ Turn.make (Str.lit "1700000000000") questioner
                        (Str.lit "What is 2+2?") []
                        (Str.lit "2024/5/1 10:00:00");
              Turn.make (Str.lit "1700000000001") responder (Str.lit "4")
                        (Str.lit "basic arithmetic")
                        (Str.lit "2024/5/1 10:00:05") ] in
  let st := with_dialogues (JArr (List.map to_json rs)) (fresh 1000) in
  dialogues (snd (constructor (snd (saveDialogues st))))
  = JArr (List.map to_json rs).
Proof.
  intros rs st.
  destruct (saved_store_is_restored rs st) as [_ H].
  - reflexivity.
  - vm_compute. reflexivity.
  - exact H.
Defined.

(** ** Exporting and clearing *)

Lemma exportData_state (st : state) :
  snd (exportData st) = st
  \/ (exists n k, snd (exportData st) = notified n k st).
Proof.
  assert (E : exportData st
              = match length_is_zero (dialogues st) with
                | Ok true => (Ok None, notified NothingToExport error st)
                | Ok false =>
                  (Ok (Some (JSON.stringify2 (dialogues st))),
                   notified ExportOk success st)
                | Throw e => (Throw e, st)
                end).
  { unfold exportData, bind, this_dialogues, lift, showMessage, ret.
    destruct (length_is_zero (dialogues st)) as [[|]|e]; reflexivity. }
  rewrite E.
  destruct (length_is_zero (dialogues st)) as [[|]|e].
  - right. exists NothingToExport, error. reflexivity.
  - right. exists ExportOk, success. reflexivity.
  - left. reflexivity.
Qed.

(** X10. [exportData] only reads the store: in every state it leaves
    the sequence, the storage and the console as they are. On a store of
    records it offers a file whose text parses back to exactly the
    sequence held and reports success; on the empty store it offers no
    file and shows a notice of the kind [error]. *)
Theorem exportData_reads_only (st : state) :
  let out := exportData st in
  dialogues (snd out) = dialogues st
  /\ stored (snd out) = stored st
  /\ console (snd out) = console st
  /\ (dialogues st = JArr [] ->
      out = (Ok None, notified NothingToExport error st))
  /\ (forall r rs,
        dialogues st = JArr (List.map to_json (r :: rs)) ->
        exists text : jstring,
          out = (Ok (Some text), notified ExportOk success st)
          /\ JSON.parse text = Some (dialogues st)).
Proof.
  cbv zeta.
  assert (H : dialogues (snd (exportData st)) = dialogues st
              /\ stored (snd (exportData st)) = stored st
              /\ console (snd (exportData st)) = console st).
  { destruct (exportData_state st) as [-> | (n & k & ->)];
      repeat split; reflexivity. }
  destruct H as (H1 & H2 & H3).
  split; [exact H1|]. split; [exact H2|]. split; [exact H3|]. split.
  - apply exportData_empty.
  - intros r rs Hd.
    exists (JSON.stringify2 (JArr (List.map to_json (r :: rs)))).
    split; [apply exportData_records; assumption|].
    rewrite Hd. apply (parse_stringify_records 2).
Qed.

Lemma clearAllData_confirmed (st : state) (d : jsval) (l : list jsval) :
  dialogues st = JArr (d :: l) ->
  clearAllData true st
  = (Ok tt,
     notified ClearOk success
       (snd (saveDialogues (with_dialogues (JArr []) st)))).
Proof.
  intros Hd. unfold clearAllData.
  unfold bind at 1, this_dialogues at 1. rewrite Hd.
  unfold bind at 1, lift at 1. cbn [length_is_zero]. cbv beta iota.
  rewrite commit_eq. cbv zeta.
  rewrite (renderDialogues_ok _ []).
  - reflexivity.
  - rewrite saveDialogues_dialogues. reflexivity.
  - constructor.
Qed.

(** X11. A confirmed [clearAllData] on a store that holds records
    empties it and reports success; when storage can be written (two
    code units suffice) the item then holds the text of the empty array,
    and the next manager constructed on that storage starts with the
    empty sequence. Without the confirmation nothing changes. *)
Theorem clearAllData_survives_reload
    (st : state) (d : jsval) (l : list jsval) :
  dialogues st = JArr (d :: l) ->
  enabled st = true -> 2 <= capacity st ->
  stored (run [Clear true] st) = Some (Str.lit "[]")
  /\ messages (run [Clear true] st) = messages st ++ [(ClearOk, success)]
  /\ dialogues (run [Clear true; Reload] st) = JArr []
  /\ run [Clear false] st = st.
Proof.
  intros Hd He Hc.
  change (run [Clear true] st) with (snd (clearAllData true st)).
  change (run [Clear true; Reload] st)
    with (snd (constructor (snd (clearAllData true st)))).
  change (run [Clear false] st) with (snd (clearAllData false st)).
  rewrite (clearAllData_confirmed st d l Hd).
  assert (Hs : stored (snd (saveDialogues (with_dialogues (JArr []) st)))
               = Some (Str.lit "[]")).
  { rewrite saveDialogues_stored. unfold saved.
    cbn [enabled with_dialogues capacity dialogues]. rewrite He.
    change (JSON.stringify (JArr [])) with (Str.lit "[]").
    change (List.length (Str.lit "[]")) with 2.
    apply Nat.leb_le in Hc. rewrite Hc. reflexivity. }
  split; [exact Hs|]. split.
  - cbn [snd notified messages]. rewrite saveDialogues_messages. reflexivity.
  - split.
    + apply (constructor_reads_storage _ 91%N [93%N] (JArr [])).
      * cbn [snd notified enabled].
        rewrite saveDialogues_eq. cbn [snd].
        destruct (write_error _ _); reflexivity || exact He.
      * exact Hs.
      * reflexivity.
    + unfold clearAllData.
      unfold bind at 1, this_dialogues at 1. rewrite Hd.
      reflexivity.
Qed.

Lemma clearAllData_survives_reload_witness :
  let old := to_json (Turn.make (Str.lit "1") questioner (Str.lit "hello") []
                        (Str.lit "2024/5/1 10:00:00")) in
  let st := with_dialogues (JArr [old; old]) (fresh 1000) in
  stored (run [Clear true] st) = Some (Str.lit "[]")
  /\ dialogues (run [Clear true; Reload] st) = JArr [].
Proof.
  intros old st.
  destruct (clearAllData_survives_reload st old [old]) as (H1 & _ & H2 & _).
  - reflexivity.
  - reflexivity.
  - simpl. lia.
  - split; [exact H1 | exact H2].
Defined.

(** X12. Importing the file that [exportData] has just written into
    the store it was written from changes nothing: every record of the
    file is already held, so neither the sequence nor the storage is
    written and a notice of the kind [info] is shown. *)
Theorem reimport_of_export_changes_nothing
    (r : Turn.t) (rs : list Turn.t) (st : state) :
  dialogues st = JArr (List.map to_json (r :: rs)) ->
  exists text : jstring,
    fst (exportData st) = Ok (Some text)
    /\ handleFileImport (Some (mkFile application_json (Some text)))
                        (snd (exportData st))
       = (Ok tt, notified NothingNew info (snd (exportData st))).
Proof.
  intros Hd.
  exists (JSON.stringify2 (JArr (List.map to_json (r :: rs)))).
  rewrite (exportData_records r rs st Hd). split; [reflexivity|].
  cbn [snd].
  assert (Hv : Forall structurally_valid (List.map to_json (r :: rs))).
  { apply Forall_forall. intros item Hin.
    apply in_map_iff in Hin. destruct Hin as (x & <- & _).
    apply structurally_valid_to_json. }
  apply (onload_nothing_new
           (JSON.stringify2 (JArr (List.map to_json (r :: rs))))
           (List.map to_json (r :: rs)) (List.map to_json (r :: rs))).
  - apply (parse_stringify_records 2).
  - exact Hv.
  - exact Hd.
  - eapply Forall_impl; [|exact Hv]. apply structurally_valid_not_null.
  - intros item Hin. apply known_self; [assumption|].
    rewrite Forall_forall in Hv. apply Hv. assumption.
Qed.

Lemma reimport_of_export_changes_nothing_witness :
  let r1 := Turn.make (Str.lit "1700000000000") questioner
                      (Str.lit "What is 2+2?") []
                      (Str.lit "2024/5/1 10:00:00") in
  let r2 := Turn.make (Str.lit "1700000000001") responder (Str.lit "4")
                      (Str.lit "basic arithmetic")
                      (Str.lit "2024/5/1 10:00:05") in
  let st := with_dialogues (JArr (List.map to_json [r1; r2])) (fresh 1000) in
  exists text : jstring,
    fst (exportData st) = Ok (Some text)
    /\ handleFileImport (Some (mkFile application_json (Some text)))
                        (snd (exportData st))
       = (Ok tt, notified NothingNew info (snd (exportData st))).
Proof.
  intros r1 r2 st.
  apply (reimport_of_export_changes_nothing r1 [r2] st). reflexivity.
Defined.

(** ** What storage holds *)

(** What a save leaves in storage: the old item, or the text of the
    sequence. *)
Lemma saved_cases (st : state) (v : jsval) :
  saved st v = stored st \/ saved st v = Some (JSON.stringify v).
Proof.
  unfold saved.
  destruct (enabled st && (List.length (JSON.stringify v) <=? capacity st));
    [right | left]; reflexivity.
Qed.

Lemma commit_storage (v : jsval) (n : notice) (k : kind) (st : state) :
  let st' := snd ((set_dialogues v ;; saveDialogues ;; renderDialogues ;;
                   showMessage n k) st) in
  stored st' = stored st \/ stored st' = Some (JSON.stringify (dialogues st')).
Proof.
  cbv zeta. rewrite commit_stored, commit_dialogues. apply saved_cases.
Qed.

Lemma addDialogue_leaves (P : state -> Prop) now stamp role text think
    (st : state) :
  P st -> P (notified EnterDialogue error st) ->
  (forall l,
     dialogues st = JArr l ->
     let st' := pushed (newDialogue now stamp role text think) l st in
     P st' /\ P (notified AddOk success st')) ->
  P (snd (addDialogue now stamp role text think st)).
Proof.
  intros H0 H1 H2.
  destruct (Str.trim text) as [|x t] eqn:Et.
  - rewrite (addDialogue_rejected now stamp role text think st Et).
    exact H1.
  - assert (N : Str.trim text <> []) by (rewrite Et; discriminate).
    destruct (dialogues st) as [| | | |l|] eqn:Hd;
      try (unfold addDialogue; rewrite Et;
           unfold bind at 1, this_dialogues at 1; rewrite Hd;
           exact H0).
    rewrite (addDialogue_accepted now stamp role text think st l N Hd).
    cbv zeta. destruct (H2 l eq_refl) as [Ha Hb].
    destruct (fst (renderDialogues _)); assumption.
Qed.

Lemma addDialogue_storage now stamp role text think (st : state) :
  let st' := snd (addDialogue now stamp role text think st) in
  stored st' = stored st \/ stored st' = Some (JSON.stringify (dialogues st')).
Proof.
  cbv zeta.
  apply (addDialogue_leaves
           (fun st' => stored st' = stored st
                       \/ stored st' = Some (JSON.stringify (dialogues st')))).
  - left. reflexivity.
  - left. reflexivity.
  - intros l Hd. cbv zeta. cbn [notified stored dialogues].
    rewrite pushed_stored, pushed_dialogues.
    split; apply saved_cases.
Qed.

(** Case principles: the states a method can leave. *)
Lemma deleteDialogue_leaves (P : state -> Prop) (confirmed : bool)
    (id : jstring) (st : state) :
  P st ->
  (forall v,
     P (snd ((set_dialogues v ;; saveDialogues ;; renderDialogues ;;
              showMessage DeleteOk success) st))) ->
  P (snd (deleteDialogue confirmed id st)).
Proof.
  intros H0 H1. destruct confirmed; [|exact H0].
  unfold deleteDialogue.
  unfold bind at 1, this_dialogues at 1.
  unfold bind at 1, lift at 1.
  destruct (as_array (dialogues st)) as [l|e]; [|exact H0].
  cbv beta iota. unfold bind at 1, lift at 1.
  destruct (filterR _ l) as [kept|e]; [|exact H0].
  cbv beta iota. apply H1.
Qed.

Lemma clearAllData_leaves (P : state -> Prop) (confirmed : bool)
    (st : state) :
  P st -> P (notified NothingToClear error st) ->
  P (snd ((set_dialogues (JArr []) ;; saveDialogues ;; renderDialogues ;;
           showMessage ClearOk success) st)) ->
  P (snd (clearAllData confirmed st)).
Proof.
  intros H0 H1 H2. unfold clearAllData.
  unfold bind at 1, this_dialogues at 1.
  unfold bind at 1, lift at 1.
  destruct (length_is_zero (dialogues st)) as [[|]|e];
    [exact H1 | | exact H0].
  cbv beta iota. destruct confirmed; [exact H2 | exact H0].
Qed.

Lemma import_tail_eq (n : notice) (st : state) :
  try_catch
    (saveDialogues ;; renderDialogues ;; showMessage n success)
    (fun err =>
       console_error ImportFailed err ;;
       showMessage (ImportError err) error) st
  = let st' := snd (saveDialogues st) in
    match fst (renderDialogues st') with
    | Ok _ => (Ok tt, notified n success st')
    | Throw e =>
      (Ok tt, notified (ImportError e) error (logged ImportFailed e st'))
    end.
Proof.
  unfold try_catch, bind at 1. rewrite (saveDialogues_ok st) at 1.
  unfold bind at 1. cbv zeta.
  rewrite (renderDialogues_eq (snd (saveDialogues st))).
  destruct (fst (renderDialogues (snd (saveDialogues st)))) as [[]|e];
    reflexivity.
Qed.

Lemma import_tail_storage (n : notice) (st : state) :
  let st' := snd (try_catch
                    (saveDialogues ;; renderDialogues ;;
                     showMessage n success)
                    (fun err =>
                       console_error ImportFailed err ;;
                       showMessage (ImportError err) error) st) in
  stored st' = saved st (dialogues st) /\ dialogues st' = dialogues st.
Proof.
  cbv zeta. rewrite import_tail_eq. cbv zeta.
  destruct (fst (renderDialogues (snd (saveDialogues st)))) as [[]|e];
    cbn [snd notified logged stored dialogues];
    (split; [apply saveDialogues_stored | apply saveDialogues_dialogues]).
Qed.

Lemma onload_leaves (P : state -> Prop) (text : jstring) (st : state) :
  (forall e,
     P (notified (ImportError e) error (logged ImportFailed e st))) ->
  P (notified NothingNew info st) ->
  (forall v n,
     P (snd (try_catch
               (saveDialogues ;; renderDialogues ;; showMessage n success)
               (fun err =>
                  console_error ImportFailed err ;;
                  showMessage (ImportError err) error)
               (with_dialogues v st)))) ->
  P (snd (onload text st)).
Proof.
  intros H0 H1 H2.
  destruct (JSON.parse text) as [v|] eqn:Hp;
    [|rewrite (onload_syntax_error text st Hp); apply H0].
  destruct v as [| | | |items|];
    try (destruct (onload_malformed text _ st Hp I) as [m ->]; apply H0).
  unfold onload, try_catch.
  unfold bind at 1, JSON_parse. rewrite Hp. unfold ret at 1.
  destruct (forallb isValidItem items); cbn [negb]; cbv beta iota;
    [|apply H0].
  unfold bind at 1, this_dialogues at 1. cbv beta iota.
  unfold bind at 1, lift at 1.
  destruct (as_array (dialogues st)) as [l|e]; [|apply H0].
  cbv beta iota. unfold bind at 1, lift at 1.
  destruct (mapR (fun d => field d k_id) l) as [existingIds|e];
    [|apply H0].
  cbv beta iota.
  destruct (filter _ items) as [|x xs]; [apply H1|].
  unfold bind at 1, set_dialogues at 1.
  apply (H2 (JArr ((x :: xs) ++ l)) (Imported (List.length (x :: xs)))).
Qed.

Lemma deleteDialogue_storage (confirmed : bool) (id : jstring) (st : state) :
  let st' := snd (deleteDialogue confirmed id st) in
  stored st' = stored st \/ stored st' = Some (JSON.stringify (dialogues st')).
Proof.
  cbv zeta.
  apply (deleteDialogue_leaves
           (fun st' => stored st' = stored st
                       \/ stored st' = Some (JSON.stringify (dialogues st')))).
  - left. reflexivity.
  - intros v. apply commit_storage.
Qed.

Lemma clearAllData_storage (confirmed : bool) (st : state) :
  let st' := snd (clearAllData confirmed st) in
  stored st' = stored st \/ stored st' = Some (JSON.stringify (dialogues st')).
Proof.
  cbv zeta.
  apply (clearAllData_leaves
           (fun st' => stored st' = stored st
                       \/ stored st' = Some (JSON.stringify (dialogues st')))).
  - left. reflexivity.
  - left. reflexivity.
  - apply commit_storage.
Qed.

Lemma onload_storage (text : jstring) (st : state) :
  let st' := snd (onload text st) in
  stored st' = stored st \/ stored st' = Some (JSON.stringify (dialogues st')).
Proof.
  cbv zeta.
  apply (onload_leaves
           (fun st' => stored st' = stored st
                       \/ stored st' = Some (JSON.stringify (dialogues st')))).
  - intros e. left. reflexivity.
  - left. reflexivity.
  - intros v n.
    destruct (import_tail_storage n (with_dialogues v st)) as [T1 T2].
    cbv zeta in T1, T2. rewrite T1, T2. apply (saved_cases st).
Qed.

Lemma step_storage (a : action) (st : state) :
  stored (step a st) = stored st
  \/ stored (step a st) = Some (JSON.stringify (dialogues (step a st))).
Proof.
  destruct a as [now stamp role text think|confirmed id|chosen| |confirmed|];
    cbn [step].
  - apply addDialogue_storage.
  - apply deleteDialogue_storage.
  - destruct chosen as [f|]; [|left; reflexivity].
    unfold handleFileImport.
    destruct (negb (Str.eqb (type f) application_json));
      [left; reflexivity|].
    destruct (content f) as [text|]; [|left; reflexivity].
    apply onload_storage.
  - left. destruct (exportData_state st) as [-> | (n & k & ->)]; reflexivity.
  - apply clearAllData_storage.
  - left. unfold constructor.
    destruct (loadDialogues_cases st)
      as [E | [(e & E) | (c & text & v & _ & _ & _ & E)]];
      unfold bind at 1; rewrite E;
      unfold bind at 1, set_dialogues at 1; cbv beta iota;
      rewrite renderDialogues_state; reflexivity.
Qed.

(** X13. Whatever the page asks of the manager, and in whatever state,
    the storage item is only ever written with the serialization of the
    sequence the store holds: after a session the item is what it was
    before the session, or it is the text of the sequence as it stood
    after one of the actions of the session; when that sequence is one
    of records, the text is read back as that sequence. *)
Theorem storage_holds_a_serialization (acts : list action) (st : state) :
  stored (run acts st) = stored st
  \/ exists (a : action) (done rest : list action) (text : jstring),
       acts = (a :: done) ++ rest
       /\ stored (run acts st) = Some text
       /\ text = JSON.stringify (dialogues (run (a :: done) st))
       /\ (forall l,
             dialogues (run (a :: done) st) = JArr l -> Forall is_record l ->
             JSON.parse text = Some (JArr l)).
Proof.
  revert st. induction acts as [|a acts IH]; intros st.
  - left. reflexivity.
  - cbn [run].
    destruct (IH (step a st))
      as [E | (b & done & rest & text & -> & E & T & P)].
    + rewrite E. destruct (step_storage a st) as [S | S].
      * left. exact S.
      * right. exists a, [], acts, (JSON.stringify (dialogues (step a st))).
        split; [reflexivity|]. split; [exact S|]. split; [reflexivity|].
        intros l Hd Hl. cbn [run] in Hd. rewrite Hd.
        apply (parse_stringify_store l Hl).
    + right. exists a, (b :: done), rest, text. split; [reflexivity|].
      split; [exact E|]. split; [exact T | exact P].
Qed.

(** ** Where the records of the store come from *)

Lemma imported_provenance (text : jstring) (l : list jsval) (d : jsval) :
  In d (imported text l) ->
  In d l
  \/ exists items,
       JSON.parse text = Some (JArr items) /\ In d items
       /\ structurally_valid d.
Proof.
  unfold imported.
  destruct (JSON.parse text) as [[| | | |items|]|]; try (left; assumption).
  destruct (forallb isValidItem items) eqn:Hv; [|left; assumption].
  intros Hin. apply in_app_or in Hin. destruct Hin as [Hin | Hin].
  - right. apply filter_In in Hin. destruct Hin as [Hin _].
    exists items. split; [reflexivity|]. split; [assumption|].
    apply forallb_isValidItem in Hv. rewrite Forall_forall in Hv.
    apply Hv. assumption.
  - left. assumption.
Qed.

Lemma step_provenance (a : action) (st : state) (l : list jsval) :
  dialogues st = JArr l -> Forall (fun d => d <> JNull) l ->
  a <> Reload ->
  exists l',
    dialogues (step a st) = JArr l'
    /\ forall d, In d l' -> In d l \/ brought_by a d.
Proof.
  intros Hd Hn Ha.
  destruct a as [now stamp role text think|confirmed id|chosen| |confirmed|];
    cbn [step].
  - destruct (Str.trim text) as [|x t] eqn:Et.
    + rewrite addDialogue_rejected_dialogues by assumption.
      exists l. split; [assumption | intros d H; left; exact H].
    + assert (N : Str.trim text <> []) by (rewrite Et; discriminate).
      rewrite (addDialogue_accepted_dialogues now stamp role text think st l
                 N Hd).
      eexists; split; [reflexivity|].
      intros d Hin. apply in_app_or in Hin.
      destruct Hin as [Hin | [<- | []]]; [left; assumption|].
      right. split; [exact N | reflexivity].
  - destruct (deleteDialogue_dialogues confirmed id st l Hd Hn) as [-> | ->].
    + exists l. split; [reflexivity | intros d H; left; exact H].
    + eexists; split; [reflexivity|].
      intros d Hin. apply filter_In in Hin. left. apply Hin.
  - destruct (handleFileImport_dialogues chosen st l Hd Hn)
      as [-> | (f & text & -> & Hc & ->)].
    + exists l. split; [reflexivity | intros d H; left; exact H].
    + eexists; split; [reflexivity|].
      intros d Hin.
      destruct (imported_provenance text l d Hin)
        as [H | (items & Hp & Hi & Hv)]; [left; exact H|].
      right. exists text, items. repeat split; assumption.
  - rewrite exportData_dialogues.
    exists l. split; [assumption | intros d H; left; exact H].
  - destruct (clearAllData_dialogues confirmed st l Hd) as [-> | ->].
    + exists l. split; [reflexivity | intros d H; left; exact H].
    + exists []. split; [reflexivity | intros d []].
  - contradiction Ha. reflexivity.
Qed.

Lemma brought_by_valid (a : action) (d : jsval) :
  brought_by a d -> structurally_valid d.
Proof.
  destruct a as [now stamp role text think|confirmed id|[f|]| |confirmed|];
    cbn [brought_by]; try contradiction.
  - intros [_ ->]. apply structurally_valid_to_json.
  - intros (text & items & _ & _ & _ & H). exact H.
Qed.

(** X14. From a store that holds a sequence of structurally valid
    records (objects whose id, role, dialogue and timestamp are text),
    every session of appends, deletions, imports, exports and clearings
    leaves such a store, whatever the files that are imported: no method
    but the constructor ever puts anything else in the store. *)
Theorem store_stays_valid (acts : list action) (st : state)
    (l : list jsval) :
  dialogues st = JArr l -> Forall structurally_valid l ->
  Forall (fun a => a <> Reload) acts ->
  exists l',
    dialogues (run acts st) = JArr l' /\ Forall structurally_valid l'.
Proof.
  revert st l. induction acts as [|a acts IH]; intros st l Hd Hv Hacts.
  - exists l. split; assumption.
  - cbn [run]. inversion Hacts as [|a' acts' Ha Hrest]; subst.
    assert (Hn : Forall (fun d => d <> JNull) l).
    { eapply Forall_impl; [|exact Hv]. apply structurally_valid_not_null. }
    destruct (step_provenance a st l Hd Hn Ha) as (l1 & Hd1 & Hfrom).
    apply (IH (step a st) l1 Hd1); [|assumption].
    apply Forall_forall. intros d Hin.
    destruct (Hfrom d Hin) as [H | H].
    + rewrite Forall_forall in Hv. apply Hv. assumption.
    + apply (brought_by_valid a). assumption.
Qed.

Lemma store_stays_valid_witness :
  let turn (n : string) :=
    to_json (Turn.make (Str.lit n) questioner (Str.lit "hello") []
                       (Str.lit "2024/5/1 10:00:00")) in
  let st := with_dialogues (JArr [turn "2"%string]) (fresh 1000) in
  let text := JSON.stringify2 (JArr [turn "1"%string; turn "2"%string]) in
  exists l',
    dialogues
      (run [ Import (Some (mkFile application_json (Some text)));
             Append 1700000000000 (Str.lit "2024/5/1 10:00:05") responder
                    (Str.lit "4") (Str.lit "arithmetic");
             Delete true (Str.lit "2");
             Import (Some (mkFile application_json (Some (Str.lit "[{}]"))));
             Export ]
           st) = JArr l'
    /\ Forall structurally_valid l'.
Proof.
  intros turn st text.
  apply (store_stays_valid _ st [turn "2"%string]).
  - reflexivity.
  - repeat constructor. apply structurally_valid_to_json.
  - repeat constructor; discriminate.
Defined.

Lemma reasoning_fits_not_null (d : jsval) : reasoning_fits d -> d <> JNull.
Proof. intros [H | H] ->; discriminate. Qed.

Lemma reasoning_fits_newDialogue now stamp role text think :
  reasoning_fits (to_json (newDialogue now stamp role text think)).
Proof.
  unfold reasoning_fits, newDialogue.
  destruct (Str.eqb role responder) eqn:E.
  - right. apply eqb_eq in E. subst role. reflexivity.
  - left. reflexivity.
Qed.

(** X15. The reasoning of a record stays tied to the role ['responder']
    as long as records only come from [addDialogue]: from a store in
    which every record has the empty reasoning or the role
    ['responder'], every session of appends, deletions, exports and
    clearings leaves such a store. *)
Theorem reasoning_stays_with_responder (acts : list action) (st : state)
    (l : list jsval) :
  dialogues st = JArr l -> Forall reasoning_fits l ->
  Forall (fun a => a <> Reload /\ forall chosen, a <> Import chosen) acts ->
  exists l',
    dialogues (run acts st) = JArr l' /\ Forall reasoning_fits l'.
Proof.
  revert st l. induction acts as [|a acts IH]; intros st l Hd Hv Hacts.
  - exists l. split; assumption.
  - cbn [run]. inversion Hacts as [|a' acts' [Ha Hi] Hrest]; subst.
    assert (Hn : Forall (fun d => d <> JNull) l).
    { eapply Forall_impl; [|exact Hv]. apply reasoning_fits_not_null. }
    destruct (step_provenance a st l Hd Hn Ha) as (l1 & Hd1 & Hfrom).
    apply (IH (step a st) l1 Hd1); [|assumption].
    apply Forall_forall. intros d Hin.
    destruct (Hfrom d Hin) as [H | H].
    + rewrite Forall_forall in Hv. apply Hv. assumption.
    + destruct a as [now stamp role text think|confirmed id|chosen|
                     |confirmed|]; cbn [brought_by] in H;
        try contradiction.
      * destruct H as [_ ->]. apply reasoning_fits_newDialogue.
      * contradiction (Hi chosen). reflexivity.
Qed.

Lemma reasoning_stays_with_responder_witness :
  exists l',
    dialogues
      (run [ Append 1700000000000 (Str.lit "2024/5/1 10:00:00") questioner
                    (Str.lit "What is 2+2?") (Str.lit "a private thought");
             Append 1700000000005 (Str.lit "2024/5/1 10:00:05") responder
                    (Str.lit "4") (Str.lit "basic arithmetic");
             Delete true (Str.lit "1700000000000");
             Export ]
           (fresh 1000)) = JArr l'
    /\ Forall reasoning_fits l'.
Proof.
  apply (reasoning_stays_with_responder _ (fresh 1000) []).
  - reflexivity.
  - constructor.
  - repeat constructor; discriminate.
Defined.

(** ** What trimming leaves *)

Lemma trimStart_split (s : jstring) :
  exists pre, s = pre ++ Str.trimStart s /\ forallb Str.is_space pre = true.
Proof.
  induction s as [|c s (pre & E & H)].
  - exists []. split; reflexivity.
  - cbn [Str.trimStart]. destruct (Str.is_space c) eqn:Ec.
    + exists (c :: pre). split.
      * cbn [List.app]. rewrite <- E. reflexivity.
      * cbn [forallb]. rewrite Ec, H. reflexivity.
    + exists []. split; reflexivity.
Qed.

Lemma trimEnd_split (s : jstring) :
  exists post, s = Str.trimEnd s ++ post /\ forallb Str.is_space post = true.
Proof.
  destruct (trimStart_split (List.rev s)) as (pre & E & H).
  exists (List.rev pre). split.
  - unfold Str.trimEnd. rewrite <- rev_app_distr, <- E, rev_involutive.
    reflexivity.
  - apply forallb_forall. intros c Hc. apply in_rev in Hc.
    rewrite forallb_forall in H. apply H. assumption.
Qed.

Lemma trim_first (s : jstring) (c : N) (r : jstring) :
  Str.trim s = c :: r -> Str.is_space c = false.
Proof.
  unfold Str.trim.
  destruct (Str.trimStart s) as [|x t] eqn:Es; [discriminate|].
  pose proof (trimStart_head s x t Es) as Hx.
  rewrite (trimEnd_cons x t Hx). intros [= <- _]. assumption.
Qed.

Lemma trim_last (s : jstring) (r : jstring) (c : N) :
  Str.trim s = r ++ [c] -> Str.is_space c = false.
Proof.
  unfold Str.trim, Str.trimEnd. intros H.
  apply (f_equal (@List.rev N)) in H.
  rewrite rev_involutive, rev_app_distr in H. cbn [List.rev List.app] in H.
  apply (trimStart_head _ _ _ H).
Qed.

(** X16. The dialogue that an accepted [addDialogue] stores is the
    text it was given without the white space at its two ends: the text
    is some white space, the stored dialogue, and some white space
    again, and the stored dialogue neither begins nor ends with a
    white-space code unit. *)
Theorem stored_dialogue_is_trimmed
    (now : Z) (localeString role dialogueText thinkText : jstring)
    (st : state) (l : list jsval) :
  Str.trim dialogueText <> [] -> dialogues st = JArr l ->
  exists (r : Turn.t) (pre post : jstring),
    dialogues (snd (addDialogue now localeString role dialogueText
                      thinkText st)) = JArr (l ++ [to_json r])
    /\ dialogueText = pre ++ Turn.dialogue r ++ post
    /\ forallb Str.is_space pre = true
    /\ forallb Str.is_space post = true
    /\ (forall c rest, Turn.dialogue r = c :: rest -> Str.is_space c = false)
    /\ (forall rest c, Turn.dialogue r = rest ++ [c] ->
                       Str.is_space c = false).
Proof.
  intros E Hd.
  destruct (trimStart_split dialogueText) as (pre & E1 & H1).
  destruct (trimEnd_split (Str.trimStart dialogueText)) as (post & E2 & H2).
  exists (newDialogue now localeString role dialogueText thinkText), pre, post.
  split; [apply addDialogue_accepted_dialogues; assumption|].
  cbn [newDialogue Turn.dialogue]. split.
  - unfold Str.trim. rewrite <- E2. exact E1.
  - split; [exact H1|]. split; [exact H2|]. split.
    + apply trim_first.
    + apply trim_last.
Qed.

Lemma stored_dialogue_is_trimmed_witness :
  exists (r : Turn.t) (pre post : jstring),
    dialogues (snd (addDialogue 1700000000000 (Str.lit "2024/5/1 10:00:00")
                      questioner (Str.lit "  What is 2+2?   ") []
                      (fresh 1000))) = JArr ([] ++ [to_json r])
    /\ Str.lit "  What is 2+2?   " = pre ++ Turn.dialogue r ++ post
    /\ forallb Str.is_space pre = true
    /\ forallb Str.is_space post = true.
Proof.
  destruct (stored_dialogue_is_trimmed 1700000000000
              (Str.lit "2024/5/1 10:00:00") questioner
              (Str.lit "  What is 2+2?   ") [] (fresh 1000) [])
    as (r & pre & post & H1 & H2 & H3 & H4 & _).
  - vm_compute. discriminate.
  - reflexivity.
  - exists r, pre, post. repeat split; assumption.
Defined.

(** ** The modal window *)

Lemma find_active_selected (role : jstring) (bs : list role_button) :
  find active
       (List.map (fun button =>
                    mkButton (data_role button)
                             (Str.eqb (data_role button) role)) bs)
  = match find (fun button => Str.eqb (data_role button) role) bs with
    | Some b => Some (mkButton role true)
    | None => None
    end.
Proof.
  induction bs as [|b bs IH]; [reflexivity|].
  cbn [List.map find active].
  destruct (Str.eqb (data_role b) role) eqn:E; [|exact IH].
  apply eqb_eq in E. rewrite E. reflexivity.
Qed.

Lemma activeRole_selected (role : jstring) (p : page) :
  activeRole (setActiveRoleButton role p)
  = match find (fun button => Str.eqb (data_role button) role)
               (roleButtons p) with
    | Some _ => role
    | None => user
    end.
Proof.
  unfold activeRole, setActiveRoleButton. cbn [roleButtons].
  rewrite find_active_selected.
  destruct (find _ (roleButtons p)); reflexivity.
Qed.

Lemma find_member (role : jstring) (bs : list role_button) (b : role_button) :
  In b bs -> data_role b = role ->
  exists b', find (fun button => Str.eqb (data_role button) role) bs
             = Some b'.
Proof.
  intros Hin E. destruct (find _ bs) as [b'|] eqn:F; [exists b'; reflexivity|].
  pose proof (find_none _ _ F b Hin) as H. cbv beta in H.
  rewrite E, eqb_refl in H. discriminate.
Qed.

Lemma handleModalAddDialogue_dialogues (now : Z) (localeString : jstring)
    (p : page) (st : state) :
  dialogues (snd (snd (handleModalAddDialogue now localeString p st)))
  = dialogues (snd (addDialogue now localeString (activeRole p)
                      (modalDialogueInput p) (modalThinkInput p) st)).
Proof.
  unfold handleModalAddDialogue.
  destruct (Str.trim (modalDialogueInput p)) as [|x t] eqn:Et.
  - rewrite addDialogue_rejected_dialogues by assumption. reflexivity.
  - destruct (addDialogue now localeString (activeRole p)
                (modalDialogueInput p) (modalThinkInput p) st)
      as [[[|]|e] st']; reflexivity.
Qed.

(** X17. A record added through the modal window without a click on a
    role button gets the role ['user']: [openAddDialogModal] selects
    that role whatever buttons the page has, so [addDialogue] stores a
    record that the rendering does not draw as the questioner's and
    whose reasoning is empty, whatever was typed as reasoning. Opening
    the window leaves the visibility of the reasoning input as it
    was. *)
Theorem modal_default_role_is_user
    (now : Z) (localeString : jstring) (p0 p : page) (st : state)
    (l : list jsval) :
  roleButtons p = roleButtons (openAddDialogModal p0) ->
  Str.trim (modalDialogueInput p) <> [] -> dialogues st = JArr l ->
  thinkGroup_display (openAddDialogModal p0) = thinkGroup_display p0
  /\ exists r : Turn.t,
       dialogues (snd (snd (handleModalAddDialogue now localeString p st)))
       = JArr (l ++ [to_json r])
       /\ Turn.role r = user
       /\ Turn.dialogue r = Str.trim (modalDialogueInput p)
       /\ Turn.think r = []
       /\ drawn_as_questioner (to_json r) = false.
Proof.
  intros Hb E Hd. split; [reflexivity|].
  assert (Hr : activeRole p = user).
  { unfold activeRole. rewrite Hb.
    change (roleButtons (openAddDialogModal p0))
      with (roleButtons (setActiveRoleButton user p0)).
    pose proof (activeRole_selected user p0) as H.
    unfold activeRole in H. rewrite H.
    destruct (find _ (roleButtons p0)); reflexivity. }
  exists (newDialogue now localeString user (modalDialogueInput p)
                      (modalThinkInput p)).
  rewrite handleModalAddDialogue_dialogues, Hr.
  split; [apply addDialogue_accepted_dialogues; assumption|].
  repeat split.
Qed.

Lemma modal_default_role_is_user_witness :
  let p0 := mkPage none [] (Str.lit "left over") block
                   [mkButton user false; mkButton responder true] in
  let p := mkPage flex (Str.lit "What is 2+2?") (Str.lit "a thought") block
                  (roleButtons (openAddDialogModal p0)) in
  exists r : Turn.t,
    dialogues (snd (snd (handleModalAddDialogue 1700000000000
                           (Str.lit "2024/5/1 10:00:00") p (fresh 1000))))
    = JArr ([] ++ [to_json r])
    /\ Turn.role r = user
    /\ Turn.think r = []
    /\ drawn_as_questioner (to_json r) = false.
Proof.
  intros p0 p.
  destruct (modal_default_role_is_user 1700000000000
              (Str.lit "2024/5/1 10:00:00") p0 p (fresh 1000) [])
    as (_ & r & H1 & H2 & _ & H3 & H4).
  - reflexivity.
  - vm_compute. discriminate.
  - reflexivity.
  - exists r. repeat split; assumption.
Defined.

(** X18. [handleModalAddDialogue] on a store whose records can be
    rendered: with a blank dialogue input it shows one notice of the
    kind [error] and leaves the window and the store as they are; with
    any other input it appends the record, closes the window without
    clearing its inputs, and the notice of success is shown twice, once
    by [addDialogue] and once by the handler. *)
Theorem modal_add_reports_twice
    (now : Z) (localeString : jstring) (p : page) (st : state)
    (l : list jsval) :
  dialogues st = JArr l -> Forall presentable l ->
  let out := handleModalAddDialogue now localeString p st in
  (Str.trim (modalDialogueInput p) = [] ->
   out = (Ok tt, (p, notified EnterDialogue error st)))
  /\ (Str.trim (modalDialogueInput p) <> [] ->
      fst out = Ok tt
      /\ fst (snd out) = closeAddDialogModal p
      /\ modalDialogueInput (fst (snd out)) = modalDialogueInput p
      /\ dialogues (snd (snd out))
         = JArr (l ++ [to_json (newDialogue now localeString (activeRole p)
                                  (modalDialogueInput p)
                                  (modalThinkInput p))])
      /\ messages (snd (snd out))
         = messages st ++ [(AddOk, success); (AddOk, success)]).
Proof.
  intros Hd Hl. cbv zeta. split.
  - intros E. unfold handleModalAddDialogue. rewrite E. reflexivity.
  - intros E.
    assert (A : addDialogue now localeString (activeRole p)
                  (modalDialogueInput p) (modalThinkInput p) st
                = (Ok true,
                   notified AddOk success
                     (pushed (newDialogue now localeString (activeRole p)
                                (modalDialogueInput p) (modalThinkInput p))
                             l st))).
    { rewrite (addDialogue_accepted now localeString (activeRole p)
                 (modalDialogueInput p) (modalThinkInput p) st l E Hd).
      cbv zeta.
      rewrite (renderDialogues_ok _
                 (l ++ [to_json (newDialogue now localeString (activeRole p)
                                   (modalDialogueInput p)
                                   (modalThinkInput p))])).
      - reflexivity.
      - apply pushed_dialogues.
      - apply Forall_presentable_snoc. assumption. }
    unfold handleModalAddDialogue.
    destruct (Str.trim (modalDialogueInput p)) as [|x t] eqn:Et;
      [contradiction E; reflexivity|].
    rewrite A. cbn [fst snd notified dialogues messages closeAddDialogModal
                    modalDialogueInput].
    rewrite pushed_dialogues.
    repeat split.
    unfold pushed. rewrite saveDialogues_messages. cbn [with_dialogues messages].
    rewrite <- app_assoc. reflexivity.
Qed.

Lemma modal_add_reports_twice_witness :
  let p := mkPage flex (Str.lit "What is 2+2?") [] none
                  [mkButton user true; mkButton responder false] in
  let out := handleModalAddDialogue 1700000000000
               (Str.lit "2024/5/1 10:00:00") p (fresh 1000) in
  fst out = Ok tt
  /\ modal_display (fst (snd out)) = none
  /\ messages (snd (snd out)) = [(AddOk, success); (AddOk, success)].
Proof.
  intros p out.
  destruct (modal_add_reports_twice 1700000000000
              (Str.lit "2024/5/1 10:00:00") p (fresh 1000) [])
    as [_ H].
  - reflexivity.
  - constructor.
  - destruct H as (H1 & H2 & _ & _ & H3).
    + vm_compute. discriminate.
    + split; [exact H1|]. split; [|exact H3].
      unfold out. rewrite H2. reflexivity.
Defined.

(** X19. After a click on a role button of the page the window holds
    the role of that button: the record that [handleModalAddDialogue]
    then adds has this role, the reasoning input is shown exactly when
    the role is ['responder'], and for any other role the reasoning
    input is emptied. *)
Theorem role_click_selects_role
    (now : Z) (localeString : jstring) (clickedButton : role_button)
    (p : page) (st : state) (l : list jsval) :
  In clickedButton (roleButtons p) ->
  Str.trim (modalDialogueInput p) <> [] -> dialogues st = JArr l ->
  let p' := handleRoleButtonClick clickedButton p in
  activeRole p' = data_role clickedButton
  /\ (thinkGroup_display p' = block <-> data_role clickedButton = responder)
  /\ (data_role clickedButton <> responder -> modalThinkInput p' = [])
  /\ (data_role clickedButton = responder ->
      modalThinkInput p' = modalThinkInput p)
  /\ exists r : Turn.t,
       dialogues (snd (snd (handleModalAddDialogue now localeString p' st)))
       = JArr (l ++ [to_json r])
       /\ Turn.role r = data_role clickedButton.
Proof.
  intros Hin E Hd p'.
  assert (Hb : roleButtons p'
               = roleButtons (setActiveRoleButton (data_role clickedButton)
                                                  p)).
  { unfold p', handleRoleButtonClick, updateThinkInputVisibility.
    destruct (Str.eqb (data_role clickedButton) responder); reflexivity. }
  assert (Hi : modalDialogueInput p' = modalDialogueInput p).
  { unfold p', handleRoleButtonClick, updateThinkInputVisibility.
    destruct (Str.eqb (data_role clickedButton) responder); reflexivity. }
  assert (Hr : activeRole p' = data_role clickedButton).
  { unfold activeRole. rewrite Hb.
    pose proof (activeRole_selected (data_role clickedButton) p) as H.
    unfold activeRole in H. rewrite H.
    destruct (find_member (data_role clickedButton) (roleButtons p)
                clickedButton Hin eq_refl) as [b' ->].
    reflexivity. }
  split; [exact Hr|].
  unfold p' at 1 2 3, handleRoleButtonClick, updateThinkInputVisibility.
  destruct (Str.eqb (data_role clickedButton) responder) eqn:Eb.
  - apply eqb_eq in Eb. split; [split; intros _; [exact Eb | reflexivity]|].
    split; [intros N; contradiction|]. split; [reflexivity|].
    exists (newDialogue now localeString (data_role clickedButton)
                        (modalDialogueInput p') (modalThinkInput p')).
    rewrite handleModalAddDialogue_dialogues, Hr.
    split; [|reflexivity].
    apply addDialogue_accepted_dialogues; [rewrite Hi|]; assumption.
  - apply eqb_neq in Eb.
    split; [split; [discriminate | intros N; contradiction]|].
    split; [reflexivity|]. split; [intros N; contradiction|].
    exists (newDialogue now localeString (data_role clickedButton)
                        (modalDialogueInput p') (modalThinkInput p')).
    rewrite handleModalAddDialogue_dialogues, Hr.
    split; [|reflexivity].
    apply addDialogue_accepted_dialogues; [rewrite Hi|]; assumption.
Qed.

Lemma role_click_selects_role_witness :
  let b := mkButton responder false in
  let p := mkPage flex (Str.lit "4") [] none [mkButton user true; b] in
  activeRole (handleRoleButtonClick b p) = responder
  /\ exists r : Turn.t,
       dialogues (snd (snd (handleModalAddDialogue 1700000000000
                              (Str.lit "2024/5/1 10:00:00")
                              (handleRoleButtonClick b p) (fresh 1000))))
       = JArr ([] ++ [to_json r])
       /\ Turn.role r = responder.
Proof.
  intros b p.
  destruct (role_click_selects_role 1700000000000
              (Str.lit "2024/5/1 10:00:00") b p (fresh 1000) [])
    as (H1 & _ & _ & _ & H2).
  - right. left. reflexivity.
  - vm_compute. discriminate.
  - reflexivity.
  - split; [exact H1 | exact H2].
Defined.

(** ** Escaping *)

Lemma escape_html_unit_cases (c : N) :
  (c = 38%N /\ escape_html_unit c = [38; 97; 109; 112; 59]%N)
  \/ (c = 60%N /\ escape_html_unit c = [38; 108; 116; 59]%N)
  \/ (c = 62%N /\ escape_html_unit c = [38; 103; 116; 59]%N)
  \/ (c = 160%N /\ escape_html_unit c = [38; 110; 98; 115; 112; 59]%N)
  \/ (c <> 38%N /\ c <> 60%N /\ c <> 62%N /\ c <> 160%N
      /\ escape_html_unit c = [c]).
Proof.
  unfold escape_html_unit.
  destruct (N.eqb_spec c 38); [left; split; [assumption | reflexivity]|].
  destruct (N.eqb_spec c 60);
    [right; left; split; [assumption | reflexivity]|].
  destruct (N.eqb_spec c 62);
    [right; right; left; split; [assumption | reflexivity]|].
  destruct (N.eqb_spec c 160);
    [right; right; right; left; split; [assumption | reflexivity]|].
  right; right; right; right. repeat split; assumption.
Qed.

Lemma escapeHtml_cons (c : N) (text : jstring) :
  escapeHtml (c :: text) = escape_html_unit c ++ escapeHtml text.
Proof. reflexivity. Qed.

Lemma escapeHtml_injective (text other : jstring) :
  escapeHtml text = escapeHtml other -> text = other.
Proof.
  revert other. induction text as [|c text IH]; intros [|d other].
  - reflexivity.
  - rewrite escapeHtml_cons. cbn [escapeHtml flat_map].
    destruct (escape_html_unit_cases d)
      as [[_ ->] | [[_ ->] | [[_ ->] | [[_ ->] | (_ & _ & _ & _ & ->)]]]];
      discriminate.
  - rewrite escapeHtml_cons. cbn [escapeHtml flat_map].
    destruct (escape_html_unit_cases c)
      as [[_ ->] | [[_ ->] | [[_ ->] | [[_ ->] | (_ & _ & _ & _ & ->)]]]];
      discriminate.
  - rewrite !escapeHtml_cons.
    destruct (escape_html_unit_cases c)
      as [[Hc ->] | [[Hc ->] | [[Hc ->] | [[Hc ->]
          | (Hc1 & Hc2 & Hc3 & Hc4 & ->)]]]];
    destruct (escape_html_unit_cases d)
      as [[Hd ->] | [[Hd ->] | [[Hd ->] | [[Hd ->]
          | (Hd1 & Hd2 & Hd3 & Hd4 & ->)]]]];
    cbn [List.app]; intros H; try discriminate H;
    injection H; intros; subst; try congruence;
    f_equal; apply IH; assumption.
Qed.

(** X20. The text that [escapeHtml] returns holds no angle bracket, so
    the page never reads a tag out of a dialogue or a reasoning; text
    without ampersand, angle bracket and no-break space comes back
    unchanged; and two different texts are never escaped to the same
    text. *)
Theorem escapeHtml_no_markup (text : jstring) :
  ~ In 60%N (escapeHtml text)
  /\ ~ In 62%N (escapeHtml text)
  /\ ((forall c, In c text ->
         c <> 38%N /\ c <> 60%N /\ c <> 62%N /\ c <> 160%N) ->
      escapeHtml text = text)
  /\ (forall other, escapeHtml text = escapeHtml other -> text = other).
Proof.
  split; [|split; [|split]].
  - induction text as [|c text IH]; [intros []|].
    rewrite escapeHtml_cons. intros H. apply in_app_or in H.
    destruct H as [H | H]; [|exact (IH H)].
    destruct (escape_html_unit_cases c)
      as [[_ E] | [[_ E] | [[_ E] | [[_ E] | (_ & N & _ & _ & E)]]]];
      rewrite E in H; cbn [In] in H;
      repeat (destruct H as [H | H]; [try discriminate H|]);
      try contradiction.
  - induction text as [|c text IH]; [intros []|].
    rewrite escapeHtml_cons. intros H. apply in_app_or in H.
    destruct H as [H | H]; [|exact (IH H)].
    destruct (escape_html_unit_cases c)
      as [[_ E] | [[_ E] | [[_ E] | [[_ E] | (_ & _ & N & _ & E)]]]];
      rewrite E in H; cbn [In] in H;
      repeat (destruct H as [H | H]; [try discriminate H|]);
      try contradiction.
  - induction text as [|c text IH]; intros H; [reflexivity|].
    rewrite escapeHtml_cons.
    destruct (H c (or_introl eq_refl)) as (N1 & N2 & N3 & N4).
    destruct (escape_html_unit_cases c)
      as [[E _] | [[E _] | [[E _] | [[E _] | (_ & _ & _ & _ & ->)]]]];
      try contradiction.
    cbn [List.app]. f_equal. apply IH.
    intros x Hx. apply H. right. assumption.
  - apply escapeHtml_injective.
Qed.

(** ** Changes and the next visit *)

Lemma constructor_reads_records (rs : list Turn.t) (st : state) :
  enabled st = true ->
  stored st = Some (JSON.stringify (JArr (List.map to_json rs))) ->
  dialogues (snd (constructor st)) = JArr (List.map to_json rs).
Proof.
  intros He Hs.
  pose proof (parse_stringify_records 0 rs) as Hp.
  change (stringify_at 0 0 (JArr (List.map to_json rs)))
    with (JSON.stringify (JArr (List.map to_json rs))) in Hp.
  destruct (JSON.stringify (JArr (List.map to_json rs))) as [|c text];
    [discriminate Hp|].
  apply (constructor_reads_storage st c text); assumption.
Qed.

Lemma saved_fits (st : state) (v : jsval) :
  enabled st = true -> List.length (JSON.stringify v) <= capacity st ->
  saved st v = Some (JSON.stringify v).
Proof.
  intros He Hc. unfold saved. rewrite He.
  apply Nat.leb_le in Hc. rewrite Hc. reflexivity.
Qed.

Lemma Forall_presentable_records (rs : list Turn.t) :
  Forall presentable (List.map to_json rs).
Proof.
  apply Forall_forall. intros d Hin. apply in_map_iff in Hin.
  destruct Hin as (r & <- & _). apply presentable_to_json.
Qed.

Lemma filter_records (id : jstring) (rs : list Turn.t) :
  filter (fun d => negb (same_string (get d k_id) id)) (List.map to_json rs)
  = List.map to_json (filter (fun r => negb (Str.eqb (Turn.id r) id)) rs).
Proof.
  induction rs as [|r rs IH]; [reflexivity|].
  cbn [List.map filter].
  change (same_string (get (to_json r) k_id) id)
    with (Str.eqb (Turn.id r) id).
  destruct (Str.eqb (Turn.id r) id); cbn [negb List.map]; rewrite IH;
    reflexivity.
Qed.

Lemma addDialogue_enabled now stamp role text think (st : state) :
  enabled (snd (addDialogue now stamp role text think st)) = enabled st.
Proof.
  apply (addDialogue_leaves (fun st' => enabled st' = enabled st)).
  - reflexivity.
  - reflexivity.
  - intros l Hd. cbv zeta. cbn [notified enabled]. unfold pushed.
    rewrite saveDialogues_eq. cbn [snd].
    destruct (write_error _ _); split; reflexivity.
Qed.

Lemma deleteDialogue_enabled (confirmed : bool) (id : jstring) (st : state) :
  enabled (snd (deleteDialogue confirmed id st)) = enabled st.
Proof.
  apply (deleteDialogue_leaves (fun st' => enabled st' = enabled st)).
  - reflexivity.
  - intros v. rewrite commit_eq. cbv zeta.
    destruct (fst (renderDialogues _)); cbn [snd notified enabled];
      rewrite saveDialogues_eq; cbn [snd];
      destruct (write_error _ _); reflexivity.
Qed.

(** X21. On a store of records and a storage that can be written, what
    an accepted [addDialogue] or a confirmed [deleteDialogue] leaves in
    the store is what the next manager constructed on that storage
    starts with, provided the new text fits the storage: the added
    record is there after a reload, the deleted ones are not. *)
Theorem changes_survive_reload (rs : list Turn.t) (st : state) :
  dialogues st = JArr (List.map to_json rs) -> enabled st = true ->
  (forall now localeString role dialogueText thinkText,
     Str.trim dialogueText <> [] ->
     let after :=
       rs ++ [newDialogue now localeString role dialogueText thinkText] in
     List.length (JSON.stringify (JArr (List.map to_json after)))
     <= capacity st ->
     dialogues (run [ Append now localeString role dialogueText thinkText;
                      Reload ] st)
     = JArr (List.map to_json after))
  /\ (forall id,
        let after := filter (fun r => negb (Str.eqb (Turn.id r) id)) rs in
        List.length (JSON.stringify (JArr (List.map to_json after)))
        <= capacity st ->
        dialogues (run [Delete true id; Reload] st)
        = JArr (List.map to_json after)).
Proof.
  intros Hd He. split.
  - intros now localeString role dialogueText thinkText E after Hc.
    change (dialogues
              (snd (constructor
                      (snd (addDialogue now localeString role dialogueText
                              thinkText st))))
            = JArr (List.map to_json after)).
    apply constructor_reads_records.
    + rewrite addDialogue_enabled. exact He.
    + rewrite (addDialogue_accepted now localeString role dialogueText
                 thinkText st (List.map to_json rs) E Hd).
      cbv zeta.
      assert (S : stored (pushed (newDialogue now localeString role
                                    dialogueText thinkText)
                                 (List.map to_json rs) st)
                  = Some (JSON.stringify (JArr (List.map to_json after)))).
      { rewrite pushed_stored. unfold after. rewrite map_app.
        cbn [List.map]. apply saved_fits; [exact He|].
        unfold after in Hc. rewrite map_app in Hc. exact Hc. }
      destruct (fst (renderDialogues _)); cbn [snd notified stored];
        exact S.
  - intros id after Hc.
    change (dialogues (snd (constructor (snd (deleteDialogue true id st))))
            = JArr (List.map to_json after)).
    apply constructor_reads_records.
    + rewrite deleteDialogue_enabled. exact He.
    + rewrite (deleteDialogue_eq id st (List.map to_json rs) Hd
                 (Forall_presentable_records rs)).
      cbn [snd notified stored]. rewrite saveDialogues_stored.
      cbn [with_dialogues dialogues]. rewrite filter_records.
      apply saved_fits; [exact He | exact Hc].
Qed.

Lemma changes_survive_reload_witness :
  let r1 := Turn.make (Str.lit "1700000000000") questioner
                      (Str.lit "What is 2+2?") []
                      (Str.lit "2024/5/1 10:00:00") in
  let r2 := Turn.make (Str.lit "1700000000005") responder (Str.lit "4")
                      (Str.lit "basic arithmetic")
                      (Str.lit "2024/5/1 10:00:05") in
  let st := with_dialogues (JArr (List.map to_json [r1])) (fresh 1000) in
  dialogues (run [ Append 1700000000005 (Str.lit "2024/5/1 10:00:05")
                          responder (Str.lit " 4 ")
                          (Str.lit "basic arithmetic");
                   Reload ] st)
  = JArr (List.map to_json [r1; r2])
  /\ dialogues (run [Delete true (Str.lit "1700000000000"); Reload] st)
     = JArr [].
Proof.
  intros r1 r2 st.
  destruct (changes_survive_reload [r1] st) as [H1 H2].
  - reflexivity.
  - reflexivity.
  - split.
    + apply (H1 1700000000005%Z (Str.lit "2024/5/1 10:00:05") responder
                (Str.lit " 4 ") (Str.lit "basic arithmetic")).
      * vm_compute. discriminate.
      * vm_compute. lia.
    + apply (H2 (Str.lit "1700000000000")). vm_compute. lia.
Defined.

